(** * generate_cookiecutter.py: exclusion, path rewriting, content
    transformation and tree copying

    A shallow embedding of [src/generate_cookiecutter.py].  Python [str]
    values are lists of Unicode code points, [bytes] are lists of
    [Byte.byte], a [pathlib.Path] relative to the working directory is the
    list of its [parts], the file system is a finite map from paths to
    nodes, and raising an exception is a [Raise] result. *)

From Stdlib Require Import String Ascii NArith ZArith Lia.
From Stdlib Require Strings.Byte.
From stdpp Require Import base option list gmap.

Local Open Scope N_scope.

(** ** Python strings *)

(** A Python [str]: the sequence of its code points. *)
Abbreviation str := (list N).

(** A [pathlib.PurePosixPath] relative to the working directory, as its
    [parts].  pathlib keeps segments non-empty, free of ['/'] and different
    from ['.']; [Path('.')] has no parts at all. *)
Abbreviation path := (list (list N)).

(** The code points of an ASCII literal of the source. *)
Definition py (s : string) : str :=
  List.map N_of_ascii (list_ascii_of_string s).

Fixpoint eqb_str (a b : str) : bool :=
  match a, b with
  | [], [] => true
  | x :: a', y :: b' => (x =? y) && eqb_str a' b'
  | _, _ => false
  end.

(** [s.startswith(p)] *)
Fixpoint starts_with (p s : str) : bool :=
  match p, s with
  | [], _ => true
  | x :: p', y :: s' => (x =? y) && starts_with p' s'
  | _ :: _, [] => false
  end.

(** [p in s] on strings: [p] occurs at some position of [s]. *)
Fixpoint contains (p s : str) : bool :=
  starts_with p s ||
  match s with
  | [] => false
  | _ :: s' => contains p s'
  end.

(** [s.endswith(p)] *)
Definition ends_with (p s : str) : bool :=
  starts_with (rev p) (rev s).

(** [x in l] on a tuple or list of strings. *)
Definition elem_str (x : str) (l : list str) : bool :=
  existsb (eqb_str x) l.

(** ["/".join(parts)] *)
Fixpoint join_sep (sep : str) (l : list str) : str :=
  match l with
  | [] => []
  | [x] => x
  | x :: l' => x ++ sep ++ join_sep sep l'
  end.

(** ** Paths *)

(** [str(path)]: the segments joined by ['/'], and ['.'] for the empty
    path. *)
Definition path_str (p : path) : str :=
  match p with
  | [] => py "."
  | _ => join_sep (py "/") p
  end.

(** [path.name]: the final segment, the empty string when there is none. *)
Definition path_name (p : path) : str := List.last p [].

(** [path.parent] *)
Definition path_parent (p : path) : path := removelast p.

(** ** The file system *)

Inductive node :=
| File (content : list Byte.byte) (executable : bool)
| Dir.

(** Regular files and directories below the working directory, which is
    itself the directory at the empty path. *)
Abbreviation filesystem := (gmap (list (list N)) node).

Definition fs_node (fs : filesystem) (p : path) : option node :=
  match p with
  | [] => Some Dir
  | _ => fs !! p
  end.

Definition is_dir (fs : filesystem) (p : path) : bool :=
  match fs_node fs p with Some Dir => true | _ => false end.

Definition is_file (fs : filesystem) (p : path) : bool :=
  match fs_node fs p with Some (File _ _) => true | _ => false end.

(** ** Configuration *)

Definition OUTPUT_DIR : path := [py "cookiecutter-output"].

Definition TEMPLATE_ROOT : path :=
  OUTPUT_DIR ++ [py "{{cookiecutter.project_slug}}"].

(** The set [EXCLUDE_PATTERNS], listed in the order of the source.  A
    Python set is iterated in an unspecified order; [exclude_loop_perm]
    below shows that the order does not matter. *)
Definition EXCLUDE_PATTERNS : list str :=
  [ py ".git"; py ".gitignore"; py "__pycache__"; py ".pytest_cache";
    py ".mypy_cache"; py ".venv"; py "venv"; py "poetry.lock";
    py "mypy.ini"; py "cookiecutter-output"; py "generate_cookiecutter.py";
    py "COOKIECUTTER_README.md"; py ".ruff_cache"; py ".vscode"; py ".idea";
    py "*.pyc"; py "*.pyo"; py "*.pyd"; py ".Python"; py "pip-log.txt";
    py "pip-delete-this-directory.txt"; py ".coverage"; py "htmlcov";
    py ".tox"; py ".DS_Store"; py ".approval_tests_temp";
    py ".approval_tests_cache"; py "approved_files"; py "received_files" ].

Definition DIRECTORY_RENAMES : gmap (list N) (list N) :=
  <[ py "template_core" := py "{{cookiecutter.project_slug}}_core" ]>
  (<[ py "template_tools" := py "{{cookiecutter.project_slug}}_tools" ]> ∅).

(** ** Path Classifier: [should_exclude] *)

(** [fnmatch.fnmatchcase(name, pat)] for patterns made of literal
    characters, [*] and [?]; the patterns of [EXCLUDE_PATTERNS] use no
    bracket expression. *)
Fixpoint fnmatchcase (pat name : str) : bool :=
  match pat with
  | [] => match name with [] => true | _ => false end
  | c :: pat' =>
      if c =? 42 then
        (fix star (n : str) : bool :=
           fnmatchcase pat' n ||
           match n with
           | [] => false
           | _ :: n' => star n'
           end) name
      else if c =? 63 then
        match name with
        | [] => false
        | _ :: n' => fnmatchcase pat' n'
        end
      else
        match name with
        | [] => false
        | x :: n' => (x =? c) && fnmatchcase pat' n'
        end
  end.

(** [path.match(pattern)] for a relative pattern of one segment: the
    pattern is matched against the final segment, and a path without
    segments matches nothing. *)
Definition path_match (pattern : str) (p : path) : bool :=
  match p with
  | [] => false
  | _ => fnmatchcase pattern (path_name p)
  end.

(** [parts[parts.index(x) + 1:]], when [x in parts]. *)
Fixpoint after_first (x : str) (parts : path) : option path :=
  match parts with
  | [] => None
  | y :: rest => if eqb_str y x then Some rest else after_first x rest
  end.

(** [".git" in path.parts and path.parts[path.parts.index(".git") + 1:]] *)
Definition inside_git (p : path) : bool :=
  match after_first (py ".git") p with
  | Some (_ :: _) => true
  | _ => false
  end.

(** The [for pattern in EXCLUDE_PATTERNS] loop. *)
Fixpoint exclude_loop (patterns : list str) (p : path) : bool :=
  match patterns with
  | [] => false
  | pattern :: rest =>
      if eqb_str pattern (py ".git") then exclude_loop rest p
      else if contains pattern (path_str p) || eqb_str (path_name p) pattern
      then true
      else if contains (py "*") pattern && path_match pattern p then true
      else exclude_loop rest p
  end.

Definition should_exclude (fs : filesystem) (p : path) : bool :=
  if eqb_str (path_name p) (py ".git") && is_dir fs p then true
  else if inside_git p then true
  else if elem_str (py "scratchpads") p && is_file fs p then
    if eqb_str (path_name p) (py ".gitignore") then false else true
  else exclude_loop EXCLUDE_PATTERNS p.

(** ** Exceptions *)

Inductive exn :=
| IndexError
| FileNotFoundError
| FileExistsError
| NotADirectoryError
| IsADirectoryError
| UnicodeDecodeError
| UnicodeEncodeError
| SameFileError.

Inductive result (A : Type) :=
| Ok (a : A)
| Raise (e : exn).
Arguments Ok {A} a.
Arguments Raise {A} e.

Definition bind {A B} (r : result A) (k : A -> result B) : result B :=
  match r with
  | Ok a => k a
  | Raise e => Raise e
  end.

Notation "x <- r ;; k" := (bind r (fun x => k))
  (at level 100, r at next level, right associativity).

(** ** Path Rewriter: [get_template_path] *)

(** One step of the renaming loop: [DIRECTORY_RENAMES[part]] when [part]
    is a key, [part] itself otherwise. *)
Definition rename_part (part : str) : str :=
  match DIRECTORY_RENAMES !! part with
  | Some new => new
  | None => part
  end.

(** [parts[0]] raises [IndexError] on the path without segments. *)
Definition get_template_path (source_path : path) : result path :=
  match source_path with
  | [] => Raise IndexError
  | p0 :: rest =>
      let parts := if eqb_str p0 (py ".") then rest else source_path in
      let new_parts := List.map rename_part parts in
      match new_parts with
      | [] => Ok TEMPLATE_ROOT
      | _ => Ok (TEMPLATE_ROOT ++ new_parts)
      end
  end.

(** ** Regular expressions of the Content Transformer *)

(** The tables of the Python runtime that decide which code points above
    ASCII are word characters ([\w]) and decimal digits ([\d]). *)
Class UnicodeDB := {
  uni_word : N -> bool;
  uni_digit : N -> bool
}.

Definition ascii_digit (c : N) : bool := (48 <=? c) && (c <=? 57).

Definition ascii_word (c : N) : bool :=
  ascii_digit c || ((65 <=? c) && (c <=? 90)) || ((97 <=? c) && (c <=? 122))
  || (c =? 95).

(** The character classes used by the patterns of the source: [\w], [\d]
    and the negation of a one-character set. *)
Inductive cclass :=
| CWord
| CDigit
| CNot (c : N).

(** The pattern language the source uses: a sequence of literal
    characters, [k+] for a class [k] (greedy), [^] under [re.MULTILINE] and
    the word boundary [\b]. *)
Inductive atom :=
| Chr (c : N)
| Plus (k : cclass)
| BolM
| Wordb.

Abbreviation regex := (list atom).

(** A pattern without metacharacters (escaped ones included). *)
Definition lit (s : str) : regex := List.map Chr s.

Section Regex.
Context {udb : UnicodeDB}.

Definition is_word (c : N) : bool :=
  if c <? 128 then ascii_word c else uni_word c.

Definition is_digit (c : N) : bool :=
  if c <? 128 then ascii_digit c else uni_digit c.

Definition in_class (k : cclass) (c : N) : bool :=
  match k with
  | CWord => is_word c
  | CDigit => is_digit c
  | CNot x => negb (c =? x)
  end.

Definition word_opt (c : option N) : bool :=
  match c with
  | Some x => is_word x
  | None => false
  end.

(** The loop of [k+] after its first character: it takes one more
    character of the class when there is one, and on failure of what
    follows gives it back; [cont] matches the rest of the pattern and
    [last] is the character taken last. *)
Fixpoint plus_loop (k : cclass)
  (cont : option N -> str -> option (option N * str))
  (last : N) (t : str) : option (option N * str) :=
  match t with
  | y :: t' =>
      if in_class k y then
        match plus_loop k cont y t' with
        | Some r => Some r
        | None => cont (Some last) t
        end
      else cont (Some last) t
  | [] => cont (Some last) t
  end.

(** The backtracking matcher, anchored at the current position: [prev]
    is the character before it ([None] at the start of the string).  On
    success it returns the character before the end of the match and the
    rest of the string. *)
Fixpoint match_here (re : regex) (prev : option N) (s : str)
  : option (option N * str) :=
  match re with
  | [] => Some (prev, s)
  | Chr c :: re' =>
      match s with
      | x :: s' => if x =? c then match_here re' (Some x) s' else None
      | [] => None
      end
  | Plus k :: re' =>
      match s with
      | x :: s' =>
          if in_class k x then plus_loop k (match_here re') x s' else None
      | [] => None
      end
  | BolM :: re' =>
      match prev with
      | None => match_here re' prev s
      | Some x => if x =? 10 then match_here re' prev s else None
      end
  | Wordb :: re' =>
      if xorb (word_opt prev) (word_opt (head s)) then match_here re' prev s
      else None
  end.

(** The scan of [re.sub]: at each position the pattern is tried; a match
    is replaced by [repl] and the scan resumes after it, otherwise one
    character is copied.  Every step consumes a character, so
    [length s + 1] steps reach the end of the string. *)
Fixpoint sub_loop (fuel : nat) (re : regex) (repl : str) (prev : option N)
  (s : str) : str :=
  match fuel with
  | O => s
  | S fuel' =>
      match match_here re prev s with
      | Some (prev', rest) =>
          if (length rest <? length s)%nat
          then repl ++ sub_loop fuel' re repl prev' rest
          else
            match s with
            | [] => repl
            | c :: s' => repl ++ c :: sub_loop fuel' re repl (Some c) s'
            end
      | None =>
          match s with
          | [] => []
          | c :: s' => c :: sub_loop fuel' re repl (Some c) s'
          end
      end
  end.

(** [re.sub(pattern, repl, content)]; no replacement string of the source
    contains a backslash or a group reference. *)
Definition re_sub (pattern : regex) (repl : str) (content : str) : str :=
  sub_loop (S (length content)) pattern repl None content.

(** [re.search(pattern, s) is not None] *)
Fixpoint search_from (re : regex) (prev : option N) (s : str) : bool :=
  match match_here re prev s with
  | Some _ => true
  | None =>
      match s with
      | [] => false
      | c :: s' => search_from re (Some c) s'
      end
  end.

Definition re_search (pattern : regex) (s : str) : bool :=
  search_from pattern None s.

End Regex.

(** [str.replace(old, new)]: the occurrences of [old] are replaced from
    left to right, without overlap. *)
Fixpoint replace_loop (fuel : nat) (old new s : str) : str :=
  match fuel with
  | O => s
  | S fuel' =>
      if starts_with old s
      then new ++ replace_loop fuel' old new (drop (length old) s)
      else
        match s with
        | [] => []
        | c :: s' => c :: replace_loop fuel' old new s'
        end
  end.

(** With an empty [old], [new] is inserted before every character and at
    the end. *)
Fixpoint insert_everywhere (new s : str) : str :=
  new ++
  match s with
  | [] => []
  | c :: s' => c :: insert_everywhere new s'
  end.

Definition str_replace (old new s : str) : str :=
  match old with
  | [] => insert_everywhere new s
  | _ => replace_loop (S (length s)) old new s
  end.

(** ** Content Transformer: [process_text_content] *)

(** [s] between double quotes. *)
Definition q (s : str) : str := 34 :: s ++ [34].

(** The notice removed from [README.md]; its fifth character is U+1F4E6. *)
Definition README_NOTICE : str :=
  py "> **" ++ [128230] ++
  py " Using this as a Cookiecutter Template?** See [COOKIECUTTER_README.md](COOKIECUTTER_README.md) for instructions on generating new projects from this template."
  ++ [10; 10].

(** [\bword\b] *)
Definition whole_word (w : str) : regex := Wordb :: lit w ++ [Wordb].

(** [v\d+\.\d+\.\d+] *)
Definition version_re : regex :=
  lit (py "v") ++ [Plus CDigit] ++ lit (py ".") ++ [Plus CDigit]
  ++ lit (py ".") ++ [Plus CDigit].

(** The literal-block pair put around a workflow file. *)
Definition raw_wrap (content : str) : str :=
  py "{% raw %}" ++ content ++ py "{% endraw %}".

Section Transformer.
Context {udb : UnicodeDB}.

Definition process_text_content (content : str) (filepath : path) : str :=
  let filename := path_name filepath in
  if eqb_str filename (py "pyproject.toml") then
    let content :=
      re_sub (lit (py "name = " ++ q (py "template_core")))
        (py "name = " ++ q (py "{{cookiecutter.project_slug}}_core"))
        content in
    let content :=
      re_sub (lit (py "name = " ++ q (py "template_tools")))
        (py "name = " ++ q (py "{{cookiecutter.project_slug}}_tools"))
        content in
    let content :=
      re_sub (lit (py "name = " ++ q (py "template-tools")))
        (py "name = " ++ q (py "{{cookiecutter.project_slug}}-tools"))
        content in
    let content :=
      re_sub (lit (py "template-core = " ++ q (py "template_core.cli:main")))
        (py "{{cookiecutter.project_slug}}-core = "
         ++ q (py "{{cookiecutter.project_slug}}_core.cli:main"))
        content in
    let content :=
      re_sub
        (lit (py "template-tools = " ++ q (py "template_tools.cli:main")))
        (py "{{cookiecutter.project_slug}}-tools = "
         ++ q (py "{{cookiecutter.project_slug}}_tools.cli:main"))
        content in
    let content :=
      re_sub
        (lit (py "authors = [" ++ [34]) ++ [Plus (CNot 34)]
         ++ lit (34 :: py "]"))
        (py "authors = ["
         ++ q (py "{{cookiecutter.author_name}} <{{cookiecutter.author_email}}>")
         ++ py "]")
        content in
    let content :=
      re_sub
        (lit (py "template_tools = { path = " ++ q (py "../template_tools/")
              ++ py ", develop = true }"))
        (py "{{cookiecutter.project_slug}}_tools = { path = "
         ++ q (py "../{{cookiecutter.project_slug}}_tools/")
         ++ py ", develop = true }")
        content in
    let content :=
      re_sub
        (lit (py "description = "
              ++ q (py "Core functionality for the template project.")))
        (py "description = "
         ++ q (py "Core functionality for the {{cookiecutter.project_name}} project."))
        content in
    let content :=
      re_sub
        (lit (py "description = "
              ++ q (py "Shared utils for the template project.")))
        (py "description = "
         ++ q (py "Shared utils for the {{cookiecutter.project_name}} project."))
        content in
    content
  else if eqb_str filename (py ".env") then
    let content :=
      re_sub (lit (py "IMAGE_NAME=template"))
        (py "IMAGE_NAME={{cookiecutter.docker_image_name}}") content in
    let content :=
      re_sub (lit (py "USER_NAME=") ++ [Plus CWord])
        (py "USER_NAME={{cookiecutter.user_name}}") content in
    let content :=
      re_sub (lit (py "IMAGE_VERSION=") ++ version_re)
        (py "IMAGE_VERSION={{cookiecutter.docker_image_version}}")
        content in
    content
  else if eqb_str filename (py "devcontainer.json") then
    let content :=
      re_sub (lit (q (py "name") ++ py ": " ++ q (py "template")))
        (q (py "name") ++ py ": " ++ q (py "{{cookiecutter.project_name}}"))
        content in
    let content :=
      re_sub
        (lit (q (py "image") ++ py ": " ++ 34 :: py "template:")
         ++ version_re ++ lit [34])
        (q (py "image") ++ py ": "
         ++ q (py "{{cookiecutter.docker_image_name}}:{{cookiecutter.docker_image_version}}"))
        content in
    let content :=
      re_sub (lit (py "/home/klapaucius/"))
        (py "/home/{{cookiecutter.user_name}}/") content in
    content
  else if eqb_str filename (py "compose.yaml") then
    re_sub (lit (py "template-dev:"))
      (py "{{cookiecutter.docker_service_name}}:") content
  else if ends_with (py ".sh") filename
          || eqb_str filename (py "pre-commit") then
    let content :=
      re_sub (lit (py "/home/klapaucius/"))
        (py "/home/{{cookiecutter.user_name}}/") content in
    if contains (py "${#") content
    then str_replace (py "${#") (py "{{ '${#' }}") content
    else content
  else if eqb_str filename (py "README.md") then
    let content := re_sub (lit README_NOTICE) [] content in
    let content :=
      re_sub (BolM :: lit (py "# Template Project"))
        (py "# {{cookiecutter.project_name}}") content in
    let content :=
      re_sub (lit (py "git clone git@github.com:jackhjfission/template.git"))
        (py "git clone <your-repo-url>") content in
    let content :=
      re_sub (lit (py "cd template"))
        (py "cd {{cookiecutter.project_slug}}") content in
    let content :=
      re_sub (whole_word (py "template_core"))
        (py "{{cookiecutter.project_slug}}_core") content in
    let content :=
      re_sub (whole_word (py "template_tools"))
        (py "{{cookiecutter.project_slug}}_tools") content in
    let content :=
      re_sub (whole_word (py "template-tools"))
        (py "{{cookiecutter.project_slug}}-tools") content in
    let content :=
      re_sub (lit (py "A Python monorepo template"))
        (py "A Python monorepo for {{cookiecutter.project_name}}")
        content in
    let content :=
      re_sub (whole_word (py "klapaucius"))
        (py "{{cookiecutter.user_name}}") content in
    let content :=
      re_sub (lit (py "IMAGE_NAME=template"))
        (py "IMAGE_NAME={{cookiecutter.docker_image_name}}") content in
    content
  else if ends_with (py ".py") filename then
    let content :=
      re_sub (whole_word (py "template_core"))
        (py "{{cookiecutter.project_slug}}_core") content in
    let content :=
      re_sub (whole_word (py "template_tools"))
        (py "{{cookiecutter.project_slug}}_tools") content in
    content
  else if eqb_str filename (py ".pre-commit-config.yaml") then
    let content :=
      re_sub (lit (py "--config-file=template_core/mypy.ini"))
        (py "--config-file={{cookiecutter.project_slug}}_core/mypy.ini")
        content in
    let content :=
      re_sub (lit (py "--config-file=template_tools/mypy.ini"))
        (py "--config-file={{cookiecutter.project_slug}}_tools/mypy.ini")
        content in
    content
  else if ends_with (py ".yml") filename
          || ends_with (py ".yaml") filename then
    if contains (py "${{") content then raw_wrap content else content
  else content.

End Transformer.

(** A table without word characters or digits above ASCII, to run the
    transformer on ASCII inputs. *)
Definition ascii_db : UnicodeDB :=
  {| uni_word := fun _ => false; uni_digit := fun _ => false |}.

(** ** Text files: decoding, newlines, encoding *)

Definition byte_of (n : N) : Byte.byte :=
  match Byte.of_N n with
  | Some b => b
  | None => Byte.x00
  end.

(** A continuation byte [10xxxxxx]. *)
Definition is_cont (n : N) : bool := (128 <=? n) && (n <=? 191).

Definition in_range (lo hi n : N) : bool := (lo <=? n) && (n <=? hi).

(** The strict UTF-8 decoder behind [open(source, 'r', encoding='utf-8')]:
    [None] is [UnicodeDecodeError].  Overlong forms, surrogates and values
    above U+10FFFF are rejected. *)
Fixpoint utf8_decode (bs : list Byte.byte) : option str :=
  match bs with
  | [] => Some []
  | b0 :: r0 =>
      let n0 := Byte.to_N b0 in
      if n0 <? 128 then cons n0 <$> utf8_decode r0
      else if in_range 194 223 n0 then
        match r0 with
        | b1 :: r1 =>
            let n1 := Byte.to_N b1 in
            if is_cont n1
            then cons ((n0 - 192) * 64 + (n1 - 128)) <$> utf8_decode r1
            else None
        | _ => None
        end
      else if in_range 224 239 n0 then
        match r0 with
        | b1 :: b2 :: r2 =>
            let n1 := Byte.to_N b1 in
            let n2 := Byte.to_N b2 in
            let lo := if n0 =? 224 then 160 else 128 in
            let hi := if n0 =? 237 then 159 else 191 in
            if in_range lo hi n1 && is_cont n2
            then cons ((n0 - 224) * 4096 + (n1 - 128) * 64 + (n2 - 128))
                   <$> utf8_decode r2
            else None
        | _ => None
        end
      else if in_range 240 244 n0 then
        match r0 with
        | b1 :: b2 :: b3 :: r3 =>
            let n1 := Byte.to_N b1 in
            let n2 := Byte.to_N b2 in
            let n3 := Byte.to_N b3 in
            let lo := if n0 =? 240 then 144 else 128 in
            let hi := if n0 =? 244 then 143 else 191 in
            if in_range lo hi n1 && is_cont n2 && is_cont n3
            then cons ((n0 - 240) * 262144 + (n1 - 128) * 4096
                       + (n2 - 128) * 64 + (n3 - 128))
                   <$> utf8_decode r3
            else None
        | _ => None
        end
      else None
  end.

(** Reading in text mode translates ['\r\n'] and ['\r'] to ['\n']. *)
Fixpoint universal_newlines (s : str) : str :=
  match s with
  | [] => []
  | c :: s' =>
      if c =? 13 then
        match s' with
        | d :: s'' =>
            if d =? 10 then 10 :: universal_newlines s''
            else 10 :: universal_newlines s'
        | [] => [10]
        end
      else c :: universal_newlines s'
  end.

(** The UTF-8 encoder of [open(dest, 'w', encoding='utf-8')]: [None] is
    [UnicodeEncodeError] (a surrogate).  On POSIX, writing in text mode
    leaves ['\n'] as it is. *)
Definition utf8_encode_char (c : N) : option (list Byte.byte) :=
  if c <? 128 then Some [byte_of c]
  else if c <? 2048 then
    Some [byte_of (192 + c / 64); byte_of (128 + c mod 64)]
  else if c <? 65536 then
    if in_range 55296 57343 c then None
    else Some [byte_of (224 + c / 4096); byte_of (128 + (c / 64) mod 64);
               byte_of (128 + c mod 64)]
  else if c <? 1114112 then
    Some [byte_of (240 + c / 262144); byte_of (128 + (c / 4096) mod 64);
          byte_of (128 + (c / 64) mod 64); byte_of (128 + c mod 64)]
  else None.

Fixpoint utf8_encode (s : str) : option (list Byte.byte) :=
  match s with
  | [] => Some []
  | c :: s' =>
      match utf8_encode_char c, utf8_encode s' with
      | Some bs, Some rest => Some (bs ++ rest)
      | _, _ => None
      end
  end.

(** ** File system operations *)

(** [Path.mkdir(parents=True, exist_ok=True)]: every missing prefix of the
    path becomes a directory; a regular file in the way raises. *)
Fixpoint mkdir_chain (fs : filesystem) (done todo : path)
  : result filesystem :=
  match todo with
  | [] => Ok fs
  | seg :: rest =>
      let d := done ++ [seg] in
      match fs !! d with
      | None => mkdir_chain (<[d := Dir]> fs) d rest
      | Some Dir => mkdir_chain fs d rest
      | Some (File _ _) =>
          Raise (match rest with
                 | [] => FileExistsError
                 | _ => NotADirectoryError
                 end)
      end
  end.

Definition mkdir_parents (fs : filesystem) (d : path) : result filesystem :=
  mkdir_chain fs [] d.

(** [open(source, 'r', encoding='utf-8')] followed by [f.read()]. *)
Definition read_text (fs : filesystem) (source : path) : result str :=
  match fs_node fs source with
  | None => Raise FileNotFoundError
  | Some Dir => Raise IsADirectoryError
  | Some (File bytes _) =>
      match utf8_decode bytes with
      | Some s => Ok (universal_newlines s)
      | None => Raise UnicodeDecodeError
      end
  end.

(** Where a new file can be created: its parent has to be a directory. *)
Definition create_error (fs : filesystem) (dest : path) : option exn :=
  match fs_node fs (path_parent dest) with
  | Some Dir => None
  | Some (File _ _) => Some NotADirectoryError
  | None => Some FileNotFoundError
  end.

(** [open(dest, 'w', encoding='utf-8')] followed by [f.write(s)]: an
    existing file keeps its mode, a new one is not executable. *)
Definition write_text (fs : filesystem) (dest : path) (s : str)
  : result filesystem :=
  match fs_node fs dest with
  | Some Dir => Raise IsADirectoryError
  | Some (File _ x) =>
      match utf8_encode s with
      | Some bytes => Ok (<[dest := File bytes x]> fs)
      | None => Raise UnicodeEncodeError
      end
  | None =>
      match create_error fs dest with
      | Some e => Raise e
      | None =>
          match utf8_encode s with
          | Some bytes => Ok (<[dest := File bytes false]> fs)
          | None => Raise UnicodeEncodeError
          end
      end
  end.

(** [os.access(source, os.X_OK)] *)
Definition access_x (fs : filesystem) (p : path) : bool :=
  match fs_node fs p with
  | Some (File _ x) => x
  | Some Dir => true
  | None => false
  end.

(** [os.chmod(dest, os.stat(dest).st_mode | 0o111)] *)
Definition chmod_x (fs : filesystem) (dest : path) : filesystem :=
  match fs !! dest with
  | Some (File bytes _) => <[dest := File bytes true]> fs
  | _ => fs
  end.

(** [shutil.copy2(source, dest)]: a copy of the bytes and of the mode; into
    the directory [dest] under the name of the source when [dest] is a
    directory. *)
Definition copy2 (fs : filesystem) (source dest : path)
  : result filesystem :=
  let target := if is_dir fs dest then dest ++ [path_name source] else dest in
  match fs_node fs source with
  | None => Raise FileNotFoundError
  | Some Dir =>
      Raise (match source, dest with
             | [], [] => SameFileError
             | _, _ => IsADirectoryError
             end)
  | Some (File bytes x) =>
      if bool_decide (source = target) then Raise SameFileError
      else
        match fs_node fs target with
        | Some Dir => Raise IsADirectoryError
        | Some (File _ _) => Ok (<[target := File bytes x]> fs)
        | None =>
            match create_error fs target with
            | Some e => Raise e
            | None => Ok (<[target := File bytes x]> fs)
            end
        end
  end.

(** ** Tree Copier *)

Section Copier.
Context {udb : UnicodeDB}.

(** The body of the [try]: it raises before anything is written, or
    succeeds. *)
Definition copy_as_text (fs : filesystem) (source dest : path)
  : result filesystem :=
  content <- read_text fs source ;;
  let processed_content := process_text_content content source in
  fs' <- write_text fs dest processed_content ;;
  Ok (if access_x fs' source then chmod_x fs' dest else fs').

Definition copy_and_process_file (fs : filesystem) (source dest : path)
  : result filesystem :=
  fs <- mkdir_parents fs (path_parent dest) ;;
  match copy_as_text fs source dest with
  | Raise UnicodeDecodeError | Raise IsADirectoryError =>
      copy2 fs source dest
  | r => r
  end.

(** [item.relative_to(source)]: [None] is [ValueError]. *)
Fixpoint relative_to (item source : path) {struct source} : option path :=
  match source with
  | [] => Some item
  | s :: source' =>
      match item with
      | i :: item' =>
          if eqb_str i s then relative_to item' source' else None
      | [] => None
      end
  end.

(** The body of the loop of [copy_directory_structure]. *)
Definition copy_item (source : path) (fs : filesystem) (item : path)
  : result filesystem :=
  if should_exclude fs item then Ok fs
  else
    match relative_to item source with
    | None => Ok fs
    | Some relative_path =>
        dest_path <- get_template_path relative_path ;;
        if is_file fs item then copy_and_process_file fs item dest_path
        else if is_dir fs item then mkdir_parents fs dest_path
        else Ok fs
    end.

(** [copy_directory_structure(source, template_root)], where [items] is
    the sequence [source.rglob("*")] yields; the parameter
    [template_root] of the source is not used by it. *)
Fixpoint copy_directory_structure (source : path) (items : list path)
  (fs : filesystem) : result filesystem :=
  match items with
  | [] => Ok fs
  | item :: rest =>
      fs' <- copy_item source fs item ;;
      copy_directory_structure source rest fs'
  end.

End Copier.

(** ** Scaffolding Emitter and [main] *)

Definition SOURCE_DIR : path := [].

(** The dict [COOKIECUTTER_CONFIG], in insertion order, which is the
    order [json.dump] writes. *)
Definition COOKIECUTTER_CONFIG : list (str * str) :=
  [ (py "project_slug", py "myproject");
    (py "project_name", py "My Project");
    (py "author_name", py "Your Name");
    (py "author_email", py "you@example.com");
    (py "docker_image_name", py "myproject");
    (py "docker_service_name", py "myproject-dev");
    (py "user_name", py "devuser");
    (py "docker_image_version", py "v0.0.0") ].

Definition hex_digit (d : N) : N := if d <? 10 then 48 + d else 87 + d.

(** ['\\u{0:04x}'.format(n)] *)
Definition u_escape (n : N) : str :=
  [92; 117; hex_digit ((n / 4096) mod 16); hex_digit ((n / 256) mod 16);
   hex_digit ((n / 16) mod 16); hex_digit (n mod 16)].

(** The escape of one character by [json] with [ensure_ascii]. *)
Definition json_escape_char (c : N) : str :=
  if c =? 34 then [92; 34]
  else if c =? 92 then [92; 92]
  else if c =? 10 then [92; 110]
  else if c =? 13 then [92; 114]
  else if c =? 9 then [92; 116]
  else if c =? 8 then [92; 98]
  else if c =? 12 then [92; 102]
  else if (32 <=? c) && (c <=? 126) then [c]
  else if c <? 65536 then u_escape c
  else
    let v := c - 65536 in
    u_escape (55296 + v / 1024) ++ u_escape (56320 + v mod 1024).

Definition json_string (s : str) : str :=
  34 :: concat (List.map json_escape_char s) ++ [34].

(** [json.dumps(d, indent=2)] for a dict from strings to strings. *)
Definition json_dumps (d : list (str * str)) : str :=
  match d with
  | [] => py "{}"
  | _ =>
      py "{" ++ [10] ++ py "  "
      ++ join_sep (py "," ++ [10] ++ py "  ")
           (List.map (fun kv => json_string kv.1 ++ py ": " ++ json_string kv.2)
              d)
      ++ [10] ++ py "}"
  end.

Definition config_path : path := OUTPUT_DIR ++ [py "cookiecutter.json"].

(** [create_cookiecutter_json()]; the message it prints is left out. *)
Definition create_cookiecutter_json (fs : filesystem) : result filesystem :=
  write_text fs config_path (json_dumps COOKIECUTTER_CONFIG).

(** The text written by [create_gitignore]: each line of the literal
    ends with a newline. *)
Definition gitignore_lines : list str :=
  [ py "# Python";
    py "__pycache__/";
    py "*.py[cod]";
    py "*$py.class";
    py "*.so";
    py ".Python";
    py ".venv/";
    py "venv/";
    py "ENV/";
    py "env/";
    py ".pytest_cache/";
    py ".mypy_cache/";
    py ".ruff_cache/";
    py ".coverage";
    py "htmlcov/";
    py "*.log";
    py "";
    py "# Poetry";
    py "poetry.lock";
    py "";
    py "# IDEs";
    py ".vscode/";
    py ".idea/";
    py "*.swp";
    py "*.swo";
    py "*~";
    py "";
    py "# OS";
    py ".DS_Store";
    py "Thumbs.db";
    py "";
    py "# Project specific";
    py "prototyping/";
    py "scratchpads/";
    py "";
    py "# user specific";
    py "mypy.ini" ].

Definition gitignore_content : str :=
  concat (List.map (fun l => l ++ [10]) gitignore_lines).

Definition gitignore_path : path := TEMPLATE_ROOT ++ [py ".gitignore"].

(** [create_gitignore()]; the message it prints is left out. *)
Definition create_gitignore (fs : filesystem) : result filesystem :=
  fs <- mkdir_parents fs (path_parent gitignore_path) ;;
  write_text fs gitignore_path gitignore_content.

(** [d] is [p] or an ancestor of [p]. *)
Fixpoint path_under (d p : path) : bool :=
  match d, p with
  | [], _ => true
  | x :: d', y :: p' => eqb_str x y && path_under d' p'
  | _ :: _, [] => false
  end.

(** [Path.exists()] *)
Definition exists_path (fs : filesystem) (p : path) : bool :=
  match fs_node fs p with
  | Some _ => true
  | None => false
  end.

(** [shutil.rmtree(d)]: the directory and everything below it go away;
    it raises on what is not a directory. *)
Definition rmtree (fs : filesystem) (d : path) : result filesystem :=
  match fs_node fs d with
  | Some Dir => Ok (filter (fun kv => path_under d kv.1 = false) fs)
  | Some (File _ _) => Raise NotADirectoryError
  | None => Raise FileNotFoundError
  end.

Section Main.
Context {udb : UnicodeDB}.

(** [main()], where [items] is the sequence [SOURCE_DIR.rglob("*")]
    yields during the copy; the messages it prints are left out. *)
Definition main (items : list path) (fs : filesystem) : result filesystem :=
  fs <- (if exists_path fs OUTPUT_DIR then rmtree fs OUTPUT_DIR else Ok fs) ;;
  fs <- mkdir_parents fs OUTPUT_DIR ;;
  fs <- create_cookiecutter_json fs ;;
  fs <- copy_directory_structure SOURCE_DIR items fs ;;
  create_gitignore fs.

End Main.

(** ** Auxiliary predicates of the statements, continued *)

(** A Unicode scalar value: a code point that is not a surrogate. *)
Definition valid_scalar (c : N) : bool :=
  (c <? 55296) || ((57343 <? c) && (c <? 1114112)).

(** A printable ASCII character. *)
Definition printable (c : N) : bool := (32 <=? c) && (c <=? 126).

(** The renamed names of the Rename Table. *)
Definition rename_values : list str :=
  [py "{{cookiecutter.project_slug}}_core";
   py "{{cookiecutter.project_slug}}_tools"].

(** ** Auxiliary predicates of the statements *)

(** What one turn of the loop tests for a pattern other than [.git]. *)
Definition pattern_hits (pattern : str) (p : path) : bool :=
  contains pattern (path_str p) || eqb_str (path_name p) pattern
  || (contains (py "*") pattern && path_match pattern p).

(** The claim's reading of a rule: glob matching when the pattern has a
    wildcard, otherwise a substring of the path string or the final
    segment itself. *)
Definition spec_rule_matches (pattern : str) (p : path) : bool :=
  if contains (py "*") pattern then path_match pattern p
  else contains pattern (path_str p) || eqb_str (path_name p) pattern.

(** The special-keep rule: a regular file named [.gitignore] with
    [scratchpads] among its segments. *)
Definition special_keep (fs : filesystem) (p : path) : bool :=
  elem_str (py "scratchpads") p && is_file fs p
  && eqb_str (path_name p) (py ".gitignore").

(** The number of occurrences of a character. *)
Fixpoint count_char (x : N) (s : str) : nat :=
  match s with
  | [] => 0
  | c :: s' => (if c =? x then 1 else 0) + count_char x s'
  end.

(** The non-empty suffixes of a string. *)
Fixpoint suffixes (s : str) : list str :=
  match s with
  | [] => []
  | _ :: s' => s :: suffixes s'
  end.

(** One of the two strings is a prefix of the other. *)
Definition compat (a b : str) : bool := starts_with a b || starts_with b a.

(** Putting [new] into a text cannot complete an occurrence of [q]: no
    non-empty suffix of [new] is comparable with [q], and [new] is
    comparable with no non-empty suffix of [q]. *)
Definition safe_insert (new q : str) : bool :=
  forallb (fun r => negb (compat r q)) (suffixes new)
  && forallb (fun q' => negb (compat new q')) (suffixes q).

(** Patterns that can be matched line by line: they start by consuming a
    character, look at no context, and no atom matches a newline. *)
Definition local_atom (a : atom) : bool :=
  match a with
  | Chr c => negb (c =? 10)
  | Plus CWord | Plus CDigit => true
  | _ => false
  end.

Definition local_re (re : regex) : bool :=
  match re with
  | Chr _ :: _ | Plus _ :: _ => forallb local_atom re
  | _ => false
  end.

(** The three patterns of the [.env] branch. *)
Definition env_image_name : regex := lit (py "IMAGE_NAME=template").
Definition env_user_name : regex := lit (py "USER_NAME=") ++ [Plus CWord].
Definition env_image_version : regex :=
  lit (py "IMAGE_VERSION=") ++ version_re.

(** The character before the position once [p] has been read. *)
Definition after_lit (prev : option N) (p : str) : option N :=
  match last p with
  | Some c => Some c
  | None => prev
  end.

(** The transformation of the [.env] branch. *)
Definition env_transform {udb : UnicodeDB} (content : str) : str :=
  re_sub env_image_version
    (py "IMAGE_VERSION={{cookiecutter.docker_image_version}}")
    (re_sub env_user_name (py "USER_NAME={{cookiecutter.user_name}}")
       (re_sub env_image_name
          (py "IMAGE_NAME={{cookiecutter.docker_image_name}}") content)).

(** A line: a string without a newline. *)
Definition is_line (l : str) : bool := negb (existsb (N.eqb 10) l).

(** The entries of [fs'] are those of [fs], or new ones that satisfy
    [P]. *)
Definition grows_by (P : path -> node -> Prop) (fs fs' : filesystem) : Prop :=
  forall p n, fs' !! p = Some n -> fs !! p = Some n \/ P p n.

(** Nothing disappears: a directory stays a directory and a regular file
    stays a regular file. *)
Definition fs_le (fs fs' : filesystem) : Prop :=
  forall p, (fs !! p = Some Dir -> fs' !! p = Some Dir)
            /\ (is_file fs p = true -> is_file fs' p = true).

(** An output tree without a trace of [.git]: below the template root,
    no entry lies beneath a [.git] segment and no directory is named
    [.git]. *)
Definition clean_tree (fs : filesystem) : Prop :=
  forall (before after : path) (n : node),
    fs !! (TEMPLATE_ROOT ++ before ++ py ".git" :: after) = Some n ->
    after = [] /\ n <> Dir.

(** [clean_tree], in terms of the tests of the classifier. *)
Definition clean_nodes (fs : filesystem) : Prop :=
  forall (q : path) (n : node),
    fs !! (TEMPLATE_ROOT ++ q) = Some n ->
    inside_git q = false /\ (path_name q = py ".git" -> n <> Dir).


(** The literal with which every match of a pattern begins: its leading
    characters, after the anchors. *)
Fixpoint chr_prefix (re : regex) : str :=
  match re with
  | Chr c :: re' => c :: chr_prefix re'
  | _ => []
  end.

Fixpoint lit_prefix (re : regex) : str :=
  match re with
  | BolM :: re' | Wordb :: re' => lit_prefix re'
  | _ => chr_prefix re
  end.

(** The words one of which occurs in whatever a rewrite of the
    transformer looks for. *)
Definition trigger_words : list str :=
  [py "template"; py "Template"; py "klapaucius"; py "USER_NAME=";
   py "IMAGE_VERSION="; py "authors = ["; py "${"].

(** None of the words occurs in [s]. *)
Definition free_of (words : list str) (s : str) : bool :=
  negb (existsb (fun w => contains w s) words).

(** What [copy_and_process_file] leaves at the destination for a regular
    file with the bytes [bytes] read under the path [filepath]: the
    encoding of the transformed text when the bytes decode, the bytes
    themselves otherwise. *)
Definition copied_bytes {udb : UnicodeDB} (bytes : list Byte.byte)
  (filepath : path) : option (list Byte.byte) :=
  match utf8_decode bytes with
  | Some s =>
      utf8_encode (process_text_content (universal_newlines s) filepath)
  | None => Some bytes
  end.

(** Nothing at [d] or below it. *)
Definition empty_below (d : path) (fs : filesystem) : Prop :=
  forall p, path_under d p = true -> fs !! p = None.

(** The entry [item2] of a listing gets in the way of [item], whose
    rewritten path is [dest]: it is another entry, and it is rewritten to
    [dest] or to a path beneath it, or would be written onto [dest] when
    it is copied into its own rewritten path as into a directory. *)
Definition clashes (source item dest item2 : path) : bool :=
  negb (bool_decide (item2 = item))
  && match relative_to item2 source with
     | Some rel2 =>
         match get_template_path rel2 with
         | Ok dest2 =>
             path_under dest dest2
             || bool_decide (dest2 ++ [path_name item2] = dest)
         | Raise _ => false
         end
     | None => false
     end.

Definition lands_alone (source : path) (items : list path)
  (item dest : path) : bool :=
  forallb (fun item2 => negb (clashes source item dest item2)) items.

(** The state of a run with respect to one file of the source: the file
    is there with its bytes, it is kept, and its rewritten path is free or
    already holds what the copy writes ([file_pending]); its rewritten
    path holds what the copy writes ([file_placed]). *)
Definition file_pending (item dest : path) (bytes out : list Byte.byte)
  (x : bool) (fs : filesystem) : Prop :=
  fs_node fs item = Some (File bytes x)
  /\ should_exclude fs item = false
  /\ (fs !! dest = None \/ exists y, fs !! dest = Some (File out y)).

Definition file_placed (dest : path) (out : list Byte.byte)
  (fs : filesystem) : Prop :=
  exists y, fs !! dest = Some (File out y).

(** A completed run of the copier over [items] from [fs] to [fs'] that
    started on an empty template root, in which the regular file
    [source ++ rel], with the bytes [bytes], is listed and kept and no
    other entry of the listing gets in its way; [dest] is its rewritten
    path. *)
Definition completed_run {udb : UnicodeDB} (source : path)
  (items : list path) (fs fs' : filesystem) (rel dest : path)
  (bytes : list Byte.byte) (x : bool) : Prop :=
  empty_below TEMPLATE_ROOT fs
  /\ In (source ++ rel) items
  /\ fs_node fs (source ++ rel) = Some (File bytes x)
  /\ should_exclude fs (source ++ rel) = false
  /\ get_template_path rel = Ok dest
  /\ lands_alone source items (source ++ rel) dest = true
  /\ copy_directory_structure source items fs = Ok fs'.
(** * Properties *)

(** ** Worked examples *)

Example should_exclude_github :
  should_exclude ∅ [py ".github"; py "workflows"] = false.
Proof. vm_compute. reflexivity. Qed.

Example get_template_path_nested :
  get_template_path [py "template_core"; py "template_core"; py "a.py"]
  = Ok (TEMPLATE_ROOT ++ [py "{{cookiecutter.project_slug}}_core";
                          py "{{cookiecutter.project_slug}}_core"; py "a.py"]).
Proof. vm_compute. reflexivity. Qed.

Example env_example :
  process_text_content (udb := ascii_db)
    (py "IMAGE_NAME=template" ++ [10] ++ py "USER_NAME=alice" ++ [10]
     ++ py "IMAGE_VERSION=v1.20.3" ++ [10] ++ py "OTHER=1")
    [py "docker"; py ".env"]
  = py "IMAGE_NAME={{cookiecutter.docker_image_name}}" ++ [10]
    ++ py "USER_NAME={{cookiecutter.user_name}}" ++ [10]
    ++ py "IMAGE_VERSION={{cookiecutter.docker_image_version}}" ++ [10]
    ++ py "OTHER=1".
Proof. vm_compute. reflexivity. Qed.

Example py_example :
  process_text_content (udb := ascii_db)
    (py "from template_core.cli import x_template_core, template_tools")
    [py "a.py"]
  = py "from {{cookiecutter.project_slug}}_core.cli import x_template_core, {{cookiecutter.project_slug}}_tools".
Proof. vm_compute. reflexivity. Qed.

Example readme_example :
  process_text_content (udb := ascii_db)
    (README_NOTICE ++ py "# Template Project" ++ [10]
     ++ py "x # Template Project, cd template_core as klapaucius")
    [py "README.md"]
  = py "# {{cookiecutter.project_name}}" ++ [10]
    ++ py "x # Template Project, cd {{cookiecutter.project_slug}}_core as {{cookiecutter.user_name}}".
Proof. vm_compute. reflexivity. Qed.


(** ** Strings and paths *)

Lemma eqb_str_eq (a b : str) : eqb_str a b = true <-> a = b.
Proof.
  revert b. induction a as [|x a IH]; intros [|y b]; simpl; split;
    try congruence; try done.
  - intros [Hx Hab]%andb_prop. apply N.eqb_eq in Hx. apply IH in Hab.
    congruence.
  - intros [= -> ->]. rewrite N.eqb_refl. simpl. by apply IH.
Qed.

Lemma eqb_str_refl (a : str) : eqb_str a a = true.
Proof. by apply eqb_str_eq. Qed.

Lemma eqb_str_neq (a b : str) : eqb_str a b = false <-> a <> b.
Proof.
  rewrite <- eqb_str_eq. destruct (eqb_str a b); split; congruence.
Qed.

Lemma eqb_str_sym (a b : str) : eqb_str a b = eqb_str b a.
Proof.
  destruct (eqb_str a b) eqn:E.
  - apply eqb_str_eq in E. subst. symmetry. apply eqb_str_refl.
  - symmetry. apply eqb_str_neq. apply eqb_str_neq in E. congruence.
Qed.

Lemma starts_with_app (p t : str) : starts_with p (p ++ t) = true.
Proof. induction p as [|x p IH]; simpl; [done|]. by rewrite N.eqb_refl. Qed.

Lemma starts_with_inv (p s : str) :
  starts_with p s = true -> s = p ++ drop (length p) s.
Proof.
  revert s. induction p as [|x p IH]; intros s; simpl; [done|].
  destruct s as [|y s]; [done|].
  intros [Hx Hp]%andb_prop. apply N.eqb_eq in Hx. subst y.
  f_equal. by apply IH.
Qed.

Lemma elem_str_In (x : str) (l : list str) : elem_str x l = true <-> In x l.
Proof.
  unfold elem_str. rewrite existsb_exists. split.
  - intros (y & Hy & E). apply eqb_str_eq in E. by subst.
  - intros H. exists x. split; [done|apply eqb_str_refl].
Qed.

Lemma path_name_app (before : path) (x : str) :
  path_name (before ++ [x]) = x.
Proof. unfold path_name. apply last_last. Qed.

Lemma path_name_cons (x : str) (p : path) :
  p <> [] -> path_name (x :: p) = path_name p.
Proof. unfold path_name. by destruct p. Qed.

(** ** [inside_git]: a further segment follows a [.git] segment *)

Lemma after_first_elem (x : str) (p : path) :
  elem_str x p = true ->
  exists rest, after_first x p = Some rest /\
               (rest = [] -> path_name p = x).
Proof.
  induction p as [|y p IH]; simpl; [done|].
  rewrite (eqb_str_sym x y).
  destruct (eqb_str y x) eqn:E; simpl.
  - intros _. exists p. split; [done|]. intros ->.
    by apply eqb_str_eq in E.
  - intros H. destruct (IH H) as (rest & Hr & Hl). exists rest.
    split; [done|]. intros Hn. rewrite path_name_cons; [by apply Hl|].
    intros ->. simpl in Hr. done.
Qed.

Lemma inside_git_app (before after : path) :
  after <> [] -> inside_git (before ++ py ".git" :: after) = true.
Proof.
  intros Hne. unfold inside_git.
  induction before as [|y before IH]; simpl.
  - by destruct after.
  - destruct (eqb_str y (py ".git")) eqn:E; [|exact IH].
    destruct (before ++ py ".git" :: after) as [|z l] eqn:El; [|done].
    by destruct before.
Qed.

Lemma inside_git_inv (p : path) :
  inside_git p = true ->
  exists before after, p = before ++ py ".git" :: after /\ after <> [].
Proof.
  unfold inside_git. induction p as [|y p IH]; simpl; [done|].
  destruct (eqb_str y (py ".git")) eqn:E.
  - apply eqb_str_eq in E. subst y. destruct p as [|z p]; [done|].
    intros _. by exists [], (z :: p).
  - intros H. destruct (IH H) as (before & after & -> & Hne).
    by exists (y :: before), after.
Qed.

Lemma inside_git_of_elem (p : path) :
  elem_str (py ".git") p = true -> path_name p <> py ".git" ->
  inside_git p = true.
Proof.
  intros He Hn. destruct (after_first_elem _ _ He) as (rest & Hr & Hl).
  unfold inside_git. rewrite Hr. destruct rest; [|done].
  by destruct Hn; apply Hl.
Qed.

(** ** The exclusion loop *)

Lemma exclude_loop_existsb (patterns : list str) (p : path) :
  exclude_loop patterns p
  = existsb (fun pattern => negb (eqb_str pattern (py ".git"))
                            && pattern_hits pattern p) patterns.
Proof.
  induction patterns as [|pattern rest IH]; simpl; [done|].
  unfold pattern_hits.
  destruct (eqb_str pattern (py ".git")); simpl; [done|].
  destruct (contains pattern (path_str p) || eqb_str (path_name p) pattern);
    simpl; [done|].
  by destruct (contains (py "*") pattern && path_match pattern p).
Qed.

(** The result of the loop does not depend on the order in which the set
    is iterated. *)
Lemma exclude_loop_perm (l1 l2 : list str) (p : path) :
  Permutation l1 l2 -> exclude_loop l1 p = exclude_loop l2 p.
Proof.
  intros HP. rewrite !exclude_loop_existsb.
  induction HP as [|x l l' _ IH|x y l|l l' l'' _ IH1 _ IH2]; simpl.
  - done.
  - by rewrite IH.
  - by rewrite !orb_assoc, (orb_comm (negb _ && _)).
  - by rewrite IH1.
Qed.

Lemma exclude_loop_hit (patterns : list str) (pattern : str) (p : path) :
  In pattern patterns -> pattern <> py ".git" ->
  pattern_hits pattern p = true -> exclude_loop patterns p = true.
Proof.
  intros Hin Hne Hhit. rewrite exclude_loop_existsb.
  apply existsb_exists. exists pattern. split; [done|].
  apply eqb_str_neq in Hne. by rewrite Hne, Hhit.
Qed.

Lemma spec_rule_matches_hits (pattern : str) (p : path) :
  spec_rule_matches pattern p = true -> pattern_hits pattern p = true.
Proof.
  unfold spec_rule_matches, pattern_hits.
  destruct (contains (py "*") pattern); simpl.
  - intros ->. apply orb_true_r.
  - intros ->. done.
Qed.

Lemma is_file_not_dir (fs : filesystem) (p : path) :
  is_file fs p = true -> is_dir fs p = false.
Proof.
  unfold is_file, is_dir. by destruct (fs_node fs p) as [[]|].
Qed.

(** ** Path Classifier *)

Lemma should_exclude_git_dir (fs : filesystem) (p : path) :
  path_name p = py ".git" -> is_dir fs p = true -> should_exclude fs p = true.
Proof.
  intros Hn Hd. unfold should_exclude. by rewrite Hn, eqb_str_refl, Hd.
Qed.

Lemma should_exclude_inside_git (fs : filesystem) (p : path) :
  inside_git p = true -> should_exclude fs p = true.
Proof.
  intros Hi. unfold should_exclude. rewrite Hi.
  by destruct (eqb_str (path_name p) (py ".git") && is_dir fs p).
Qed.

(** A regular file with [scratchpads] among its segments: excluded unless
    it is named [.gitignore] and does not lie beneath [.git]. *)
Lemma should_exclude_scratchpads_file (fs : filesystem) (p : path) :
  elem_str (py "scratchpads") p = true -> is_file fs p = true ->
  should_exclude fs p
  = inside_git p || negb (eqb_str (path_name p) (py ".gitignore")).
Proof.
  intros Hs Hf. unfold should_exclude.
  rewrite (is_file_not_dir _ _ Hf), andb_false_r, Hs, Hf. simpl.
  destruct (inside_git p); [done|].
  by destruct (eqb_str (path_name p) (py ".gitignore")).
Qed.

(** C2 (amended): for every path and every pattern of [EXCLUDE_PATTERNS]
    other than [.git], if the pattern matches the path (glob matching
    against the path when the pattern has a wildcard, otherwise substring
    of the path string or equality with the final segment) then
    [should_exclude] returns [True], unless the path is kept by the
    special-keep rule (a regular file named [.gitignore] with [scratchpads]
    among its segments). *)
Theorem should_exclude_any_rule (fs : filesystem) (p : path) (pattern : str) :
  In pattern EXCLUDE_PATTERNS ->
  pattern <> py ".git" ->
  special_keep fs p = false ->
  spec_rule_matches pattern p = true ->
  should_exclude fs p = true.
Proof.
  intros Hin Hne Hkeep Hm. unfold should_exclude.
  destruct (eqb_str (path_name p) (py ".git") && is_dir fs p); [done|].
  destruct (inside_git p); [done|].
  unfold special_keep in Hkeep.
  destruct (elem_str (py "scratchpads") p && is_file fs p); simpl in Hkeep.
  - by rewrite Hkeep.
  - apply (exclude_loop_hit _ pattern); [done..|].
    by apply spec_rule_matches_hits.
Qed.

Lemma should_exclude_any_rule_witness :
  should_exclude ∅ [py "pkg"; py "mod.pyc"] = true.
Proof.
  apply (should_exclude_any_rule ∅ [py "pkg"; py "mod.pyc"] (py "*.pyc")).
  - apply elem_str_In. vm_compute. reflexivity.
  - apply eqb_str_neq. vm_compute. reflexivity.
  - vm_compute. reflexivity.
  - vm_compute. reflexivity.
Defined.

(** C2, as stated, fails for the pattern [.git], which the loop skips: it
    is a substring of [.github], and [.github] is not excluded. *)
Lemma should_exclude_any_rule_counterexample :
  In (py ".git") EXCLUDE_PATTERNS /\
  spec_rule_matches (py ".git") [py ".github"] = true /\
  should_exclude ∅ [py ".github"] = false.
Proof.
  split; [apply elem_str_In; vm_compute; reflexivity|].
  split; vm_compute; reflexivity.
Qed.

(** The special-keep rule overrides a matching pattern as well. *)
Lemma should_exclude_keeps_scratchpads_gitignore :
  let p := [py "scratchpads"; py ".gitignore"] in
  let fs : filesystem := {[ p := File [] false ]} in
  spec_rule_matches (py ".gitignore") p = true /\ should_exclude fs p = false.
Proof. split; vm_compute; reflexivity. Qed.

(** ** Path Rewriter *)

Lemma rename_part_core :
  rename_part (py "template_core") = py "{{cookiecutter.project_slug}}_core".
Proof. vm_compute. reflexivity. Qed.

Lemma rename_part_tools :
  rename_part (py "template_tools") = py "{{cookiecutter.project_slug}}_tools".
Proof. vm_compute. reflexivity. Qed.

Lemma rename_part_other (part : str) :
  part <> py "template_core" -> part <> py "template_tools" ->
  rename_part part = part.
Proof.
  intros H1 H2. unfold rename_part, DIRECTORY_RENAMES.
  rewrite lookup_insert_ne by done. rewrite lookup_insert_ne by done.
  by rewrite lookup_empty.
Qed.


(** The rewriting of a path with segments (at least one, and no ['.']
    segment, which pathlib never keeps): the destination is the template
    root followed by the same number of segments in the same order, each
    replaced by its Rename Table entry exactly when the whole segment is a
    key ([template_core], [template_tools]) and left unchanged otherwise,
    at every position. *)
Lemma get_template_path_renames (source_path : path) :
  source_path <> [] ->
  head source_path <> Some (py ".") ->
  exists new_parts : path,
    get_template_path source_path = Ok (TEMPLATE_ROOT ++ new_parts)
    /\ length new_parts = length source_path
    /\ forall (i : nat) (part : str),
         source_path !! i = Some part ->
         new_parts !! i
         = Some (if eqb_str part (py "template_core")
                 then py "{{cookiecutter.project_slug}}_core"
                 else if eqb_str part (py "template_tools")
                 then py "{{cookiecutter.project_slug}}_tools"
                 else part).
Proof.
  intros Hne Hdot. exists (List.map rename_part source_path).
  split; [|split].
  - unfold get_template_path. destruct source_path as [|p0 rest]; [done|].
    assert (p0 <> py ".") as Hp0 by (intros ->; by apply Hdot).
    apply eqb_str_neq in Hp0. by rewrite Hp0.
  - by rewrite length_map.
  - intros i part Hi.
    change (List.map rename_part source_path)
      with (rename_part <$> source_path).
    rewrite list_lookup_fmap, Hi. simpl. f_equal.
    destruct (eqb_str part (py "template_core")) eqn:E1.
    { apply eqb_str_eq in E1. subst. apply rename_part_core. }
    destruct (eqb_str part (py "template_tools")) eqn:E2.
    { apply eqb_str_eq in E2. subst. apply rename_part_tools. }
    apply rename_part_other; by apply eqb_str_neq.
Qed.

Lemma get_template_path_renames_witness :
  exists new_parts : path,
    get_template_path
      [py "template_core"; py "my_template_core"; py "template_core";
       py "a.py"]
    = Ok (TEMPLATE_ROOT ++ new_parts)
    /\ new_parts !! 0%nat = Some (py "{{cookiecutter.project_slug}}_core")
    /\ new_parts !! 1%nat = Some (py "my_template_core")
    /\ new_parts !! 2%nat = Some (py "{{cookiecutter.project_slug}}_core")
    /\ new_parts !! 3%nat = Some (py "a.py").
Proof.
  destruct (get_template_path_renames
              [py "template_core"; py "my_template_core"; py "template_core";
               py "a.py"])
    as (new_parts & Hpath & _ & Hparts).
  - discriminate.
  - intros E. vm_compute in E. discriminate E.
  - exists new_parts. split; [exact Hpath|].
    repeat split.
    + rewrite (Hparts 0%nat (py "template_core")); reflexivity.
    + rewrite (Hparts 1%nat (py "my_template_core")); reflexivity.
    + rewrite (Hparts 2%nat (py "template_core")); reflexivity.
    + rewrite (Hparts 3%nat (py "a.py")); reflexivity.
Defined.

(** ** The matcher and the scan of [re.sub] *)

Section RegexFacts.
Context {udb : UnicodeDB}.

Lemma plus_loop_inv (k : cclass)
  (cont : option N -> str -> option (option N * str))
  (last : N) (t : str) (r : option N * str) :
  plus_loop k cont last t = Some r ->
  exists y u t', t = u ++ t' /\ cont (Some y) t' = Some r.
Proof.
  revert last. induction t as [|y t IH]; intros last H; simpl in H.
  - by exists last, [], [].
  - destruct (in_class k y); [|by exists last, [], (y :: t)].
    destruct (plus_loop k cont y t) as [r'|] eqn:Em.
    + injection H as ->. destruct (IH _ Em) as (z & u & t' & -> & Hc).
      by exists z, (y :: u), t'.
    + by exists last, [], (y :: t).
Qed.

(** A match consumes a prefix of the string. *)
Lemma match_here_suffix (re : regex) (prev : option N) (s : str)
  (prev' : option N) (rest : str) :
  match_here re prev s = Some (prev', rest) ->
  exists consumed, s = consumed ++ rest.
Proof.
  revert prev s. induction re as [|a re IH]; intros prev s H.
  - injection H as <- <-. by exists [].
  - destruct a as [c|k| |]; simpl in H.
    + destruct s as [|x s]; [done|]. destruct (x =? c); [|done].
      destruct (IH _ _ H) as [u ->]. by exists (x :: u).
    + destruct s as [|x s]; [done|]. destruct (in_class k x); [|done].
      apply plus_loop_inv in H as (y & u & t' & -> & Hc).
      destruct (IH _ _ Hc) as [v ->]. exists (x :: u ++ v).
      simpl. by rewrite <- app_assoc.
    + destruct prev as [x|]; [destruct (x =? 10); [|done]|]; eauto.
    + destruct (xorb (word_opt prev) (word_opt (head s))); [|done]. eauto.
Qed.

Lemma match_here_length (re : regex) (prev : option N) (s : str)
  (prev' : option N) (rest : str) :
  match_here re prev s = Some (prev', rest) ->
  (length rest <= length s)%nat.
Proof.
  intros H. destruct (match_here_suffix _ _ _ _ _ H) as [u ->].
  rewrite length_app. lia.
Qed.

(** A pattern of literal characters matches exactly when the string
    starts with them. *)
Lemma match_here_lit_true (p : str) (prev : option N) (s : str) :
  starts_with p s = true ->
  exists prev', match_here (lit p) prev s
                = Some (prev', drop (length p) s).
Proof.
  revert prev s. induction p as [|x p IH]; intros prev s H; simpl.
  - by exists prev.
  - destruct s as [|y s]; [done|]. simpl in H.
    apply andb_prop in H as [Hx Hp]. rewrite N.eqb_sym, Hx. by apply IH.
Qed.

Lemma match_here_lit_false (p : str) (prev : option N) (s : str) :
  starts_with p s = false -> match_here (lit p) prev s = None.
Proof.
  revert prev s. induction p as [|x p IH]; intros prev s H; simpl.
  - done.
  - destruct s as [|y s]; [done|]. simpl in H. rewrite N.eqb_sym.
    destruct (x =? y); [|done]. by apply IH.
Qed.

Lemma starts_with_drop_length (p s : str) :
  p <> [] -> starts_with p s = true ->
  (length (drop (length p) s) <? length s)%nat = true.
Proof.
  intros Hp H. apply Nat.ltb_lt.
  rewrite (starts_with_inv _ _ H) at 2. rewrite length_app.
  destruct p; [done|]. simpl. lia.
Qed.

(** On a literal pattern the scan of [re.sub] is [str.replace]. *)
Lemma sub_loop_lit (fuel : nat) (p repl : str) (prev : option N) (s : str) :
  p <> [] ->
  sub_loop fuel (lit p) repl prev s = replace_loop fuel p repl s.
Proof.
  intros Hp. revert prev s.
  induction fuel as [|fuel IH]; intros prev s; simpl; [done|].
  destruct (starts_with p s) eqn:E.
  - destruct (match_here_lit_true p prev s E) as [prev' ->].
    rewrite starts_with_drop_length by done. by rewrite IH.
  - rewrite match_here_lit_false by done.
    destruct s as [|c s]; [done|]. by rewrite IH.
Qed.

Lemma re_sub_lit (p repl s : str) :
  p <> [] -> re_sub (lit p) repl s = str_replace p repl s.
Proof.
  intros Hp. unfold re_sub, str_replace. rewrite sub_loop_lit by done.
  by destruct p.
Qed.

(** Where the pattern is found nowhere, the scan copies the string. *)
Lemma sub_loop_no_match (fuel : nat) (re : regex) (repl : str)
  (prev : option N) (s : str) :
  search_from re prev s = false -> sub_loop fuel re repl prev s = s.
Proof.
  revert prev s. induction fuel as [|fuel IH]; intros prev s H; [done|].
  simpl. destruct s as [|c s]; simpl in H.
  - by destruct (match_here re prev []).
  - destruct (match_here re prev (c :: s)); [done|]. by rewrite IH.
Qed.

Lemma re_sub_no_match (re : regex) (repl s : str) :
  re_search re s = false -> re_sub re repl s = s.
Proof. apply sub_loop_no_match. Qed.

End RegexFacts.

(** ** Dispatch of the Content Transformer *)

Lemma ends_with_head (p s : str) :
  ends_with p s = true -> p <> [] -> head (rev s) = head (rev p).
Proof.
  unfold ends_with. intros H Hp.
  destruct (rev p) as [|x rp] eqn:Ep.
  - apply (f_equal (@rev N)) in Ep. rewrite rev_involutive in Ep. done.
  - destruct (rev s) as [|y rs]; [done|]. simpl in H.
    apply andb_prop in H as [Hx _]. apply N.eqb_eq in Hx. by subst.
Qed.

(** Evaluates the tests of the dispatch on literal file names. *)
Ltac eval_tests :=
  repeat match goal with
  | |- context [eqb_str (py ?a) (py ?b)] =>
      let v := eval vm_compute in (eqb_str (py a) (py b)) in
      change (eqb_str (py a) (py b)) with v
  | |- context [ends_with (py ?a) (py ?b)] =>
      let v := eval vm_compute in (ends_with (py a) (py b)) in
      change (ends_with (py a) (py b)) with v
  end;
  cbv beta iota zeta delta [orb].

(** Refutes that a name with a known extension equals a literal name. *)
Ltac name_differs H :=
  apply eqb_str_neq; intros ->; vm_compute in H; discriminate H.

Section Dispatch.
Context {udb : UnicodeDB}.

Lemma process_compose (content : str) (filepath : path) :
  path_name filepath = py "compose.yaml" ->
  process_text_content content filepath
  = re_sub (lit (py "template-dev:"))
      (py "{{cookiecutter.docker_service_name}}:") content.
Proof.
  intros H. unfold process_text_content. rewrite H. by eval_tests.
Qed.

Lemma process_pre_commit_config (content : str) (filepath : path) :
  path_name filepath = py ".pre-commit-config.yaml" ->
  process_text_content content filepath
  = re_sub (lit (py "--config-file=template_tools/mypy.ini"))
      (py "--config-file={{cookiecutter.project_slug}}_tools/mypy.ini")
      (re_sub (lit (py "--config-file=template_core/mypy.ini"))
         (py "--config-file={{cookiecutter.project_slug}}_core/mypy.ini")
         content).
Proof.
  intros H. unfold process_text_content. rewrite H. by eval_tests.
Qed.

Lemma process_env (content : str) (filepath : path) :
  path_name filepath = py ".env" ->
  process_text_content content filepath
  = re_sub (lit (py "IMAGE_VERSION=") ++ version_re)
      (py "IMAGE_VERSION={{cookiecutter.docker_image_version}}")
      (re_sub (lit (py "USER_NAME=") ++ [Plus CWord])
         (py "USER_NAME={{cookiecutter.user_name}}")
         (re_sub (lit (py "IMAGE_NAME=template"))
            (py "IMAGE_NAME={{cookiecutter.docker_image_name}}") content)).
Proof.
  intros H. unfold process_text_content. rewrite H. by eval_tests.
Qed.

Lemma process_shell (content : str) (filepath : path) :
  ends_with (py ".sh") (path_name filepath)
  || eqb_str (path_name filepath) (py "pre-commit") = true ->
  process_text_content content filepath
  = let content :=
      re_sub (lit (py "/home/klapaucius/"))
        (py "/home/{{cookiecutter.user_name}}/") content in
    if contains (py "${#") content
    then str_replace (py "${#") (py "{{ '${#' }}") content
    else content.
Proof.
  intros H. unfold process_text_content. rewrite H.
  assert (forall x, ends_with (py ".sh") x || eqb_str x (py "pre-commit") = true
                    -> x <> py "pyproject.toml" /\ x <> py ".env"
                       /\ x <> py "devcontainer.json"
                       /\ x <> py "compose.yaml") as Hx.
  { intros x Hx. repeat split; intros ->; vm_compute in Hx; discriminate. }
  destruct (Hx _ H) as (H1 & H2 & H3 & H4).
  apply eqb_str_neq in H1, H2, H3, H4. by rewrite H1, H2, H3, H4.
Qed.

(** A workflow file: a name in [.yml] or [.yaml] that is not one of the
    two exact names dispatched before. *)
Lemma process_workflow (content : str) (filepath : path) :
  ends_with (py ".yml") (path_name filepath)
  || ends_with (py ".yaml") (path_name filepath) = true ->
  path_name filepath <> py "compose.yaml" ->
  path_name filepath <> py ".pre-commit-config.yaml" ->
  process_text_content content filepath
  = if contains (py "${{") content then raw_wrap content else content.
Proof.
  intros H Hc Hp. unfold process_text_content.
  set (filename := path_name filepath) in *.
  assert (head (rev filename) = Some 108) as Hl.
  { apply orb_prop in H as [H|H];
      apply ends_with_head in H; try done; exact H. }
  assert (ends_with (py ".sh") filename = false) as Hsh.
  { destruct (ends_with (py ".sh") filename) eqn:E; [|done].
    apply ends_with_head in E; [|done]. rewrite Hl in E. done. }
  assert (ends_with (py ".py") filename = false) as Hpy.
  { destruct (ends_with (py ".py") filename) eqn:E; [|done].
    apply ends_with_head in E; [|done]. rewrite Hl in E. done. }
  assert (forall x, ends_with (py ".yml") x || ends_with (py ".yaml") x = true
            -> x <> py "pyproject.toml" /\ x <> py ".env"
               /\ x <> py "devcontainer.json" /\ x <> py "pre-commit"
               /\ x <> py "README.md") as Hx.
  { intros x Hx. repeat split; intros ->; vm_compute in Hx; discriminate. }
  destruct (Hx _ H) as (H1 & H2 & H3 & H4 & H5).
  apply eqb_str_neq in H1, H2, H3, H4, H5, Hc, Hp.
  by rewrite H1, H2, H3, Hc, Hsh, H4, H5, Hpy, Hp, H.
Qed.

(** A name that no branch of the dispatch matches. *)
Lemma process_unmatched (content : str) (filepath : path) :
  let filename := path_name filepath in
  existsb (eqb_str filename)
    [py "pyproject.toml"; py ".env"; py "devcontainer.json";
     py "compose.yaml"; py "pre-commit"; py "README.md";
     py ".pre-commit-config.yaml"] = false ->
  existsb (fun ext => ends_with ext filename)
    [py ".sh"; py ".py"; py ".yml"; py ".yaml"] = false ->
  process_text_content content filepath = content.
Proof.
  intros filename H1 H2. unfold process_text_content. fold filename.
  simpl in H1, H2.
  repeat match type of H1 with
  | _ || _ = false => apply orb_false_elim in H1 as [?E H1]
  end.
  repeat match type of H2 with
  | _ || _ = false => apply orb_false_elim in H2 as [?F H2]
  end.
  by rewrite E, E0, E1, E2, E3, E4, E5, F, F0, F1, F2.
Qed.

(** The scan does not add a character that the replacement lacks. *)
Lemma sub_loop_count (x : N) (fuel : nat) (re : regex) (repl : str)
  (prev : option N) (s : str) :
  count_char x repl = 0%nat ->
  (count_char x (sub_loop fuel re repl prev s) <= count_char x s)%nat.
Proof.
  intros Hr.
  assert (forall a b, count_char x (a ++ b)
                      = (count_char x a + count_char x b)%nat) as Happ.
  { intros a b. induction a as [|c a IH]; simpl; [done|]. rewrite IH. lia. }
  revert prev s. induction fuel as [|fuel IH]; intros prev s; simpl; [lia|].
  destruct (match_here re prev s) as [[prev' rest]|] eqn:Em.
  - destruct (length rest <? length s)%nat.
    + destruct (match_here_suffix _ _ _ _ _ Em) as [u ->].
      rewrite !Happ, Hr. specialize (IH prev' rest). lia.
    + destruct s as [|c s]; [lia|]. rewrite Happ, Hr. simpl.
      specialize (IH (Some c) s). lia.
  - destruct s as [|c s]; [simpl; lia|]. simpl.
    specialize (IH (Some c) s). lia.
Qed.

Lemma count_raw_wrap (content : str) :
  count_char 37 (raw_wrap content) = (4 + count_char 37 content)%nat.
Proof.
  unfold raw_wrap.
  assert (forall a b, count_char 37 (a ++ b)
                      = (count_char 37 a + count_char 37 b)%nat) as Happ.
  { intros a b. induction a as [|c a IH]; simpl; [done|]. rewrite IH. lia. }
  rewrite !Happ.
  change (count_char 37 (py "{% raw %}")) with 2%nat.
  change (count_char 37 (py "{% endraw %}")) with 2%nat. lia.
Qed.

Lemma re_sub_not_wrapped (re : regex) (repl content : str) :
  count_char 37 repl = 0%nat -> re_sub re repl content <> raw_wrap content.
Proof.
  intros Hr E. apply (f_equal (count_char 37)) in E.
  rewrite count_raw_wrap in E.
  pose proof (sub_loop_count 37 (S (length content)) re repl None content Hr)
    as Hle.
  unfold re_sub in E. lia.
Qed.

End Dispatch.

(** The transformer looks at the final segment of the path only. *)
Lemma process_text_content_name {udb : UnicodeDB} (content : str)
  (filepath1 filepath2 : path) :
  path_name filepath1 = path_name filepath2 ->
  process_text_content content filepath1
  = process_text_content content filepath2.
Proof.
  intros Hname. unfold process_text_content. by rewrite Hname.
Qed.

(** C4 (amended): for every file name ending in [.yml] or [.yaml] other
    than the exact names [compose.yaml] and [.pre-commit-config.yaml],
    which are dispatched before, a content containing [${{] is returned
    between [{% raw %}] and [{% endraw %}], verbatim and with no other
    substitution, and a content without [${{] is returned unchanged. *)
Theorem workflow_wrapped_verbatim {udb : UnicodeDB}
  (content : str) (filepath : path) :
  ends_with (py ".yml") (path_name filepath)
  || ends_with (py ".yaml") (path_name filepath) = true ->
  path_name filepath <> py "compose.yaml" ->
  path_name filepath <> py ".pre-commit-config.yaml" ->
  process_text_content content filepath
  = if contains (py "${{") content
    then py "{% raw %}" ++ content ++ py "{% endraw %}"
    else content.
Proof. apply process_workflow. Qed.

Lemma workflow_wrapped_verbatim_witness :
  process_text_content (udb := ascii_db) (py "run: ${{ matrix.os }} template_core")
    [py ".github"; py "workflows"; py "ci.yml"]
  = py "{% raw %}run: ${{ matrix.os }} template_core{% endraw %}".
Proof.
  rewrite (workflow_wrapped_verbatim (udb := ascii_db)).
  - vm_compute. reflexivity.
  - vm_compute. reflexivity.
  - apply eqb_str_neq. vm_compute. reflexivity.
  - apply eqb_str_neq. vm_compute. reflexivity.
Defined.

(** C4, as stated, fails for [compose.yaml]: its name ends in [.yaml], its
    content contains [${{], and it is returned without the literal-block
    pair. *)
Lemma workflow_wrapped_verbatim_counterexample :
  let content := py "image: ${{ tag }}" in
  let filepath := [py "compose.yaml"] in
  ends_with (py ".yaml") (path_name filepath) = true /\
  contains (py "${{") content = true /\
  process_text_content (udb := ascii_db) content filepath = content /\
  process_text_content (udb := ascii_db) content filepath
  <> py "{% raw %}" ++ content ++ py "{% endraw %}".
Proof.
  repeat split; try (vm_compute; reflexivity).
  vm_compute. discriminate.
Qed.

(** C10: a file named exactly [compose.yaml] or [.pre-commit-config.yaml]
    receives the rule list of its exact name and nothing else: the result
    is that of its own substitutions, and it is never the content between
    [{% raw %}] and [{% endraw %}], whether or not the content contains
    [${{]; the branch of the [.yml] and [.yaml] extensions is not
    reached. *)
Theorem exact_name_before_extension {udb : UnicodeDB}
  (content : str) (filepath : path) :
  (path_name filepath = py "compose.yaml" ->
   process_text_content content filepath
   = re_sub (lit (py "template-dev:"))
       (py "{{cookiecutter.docker_service_name}}:") content
   /\ process_text_content content filepath <> raw_wrap content)
  /\
  (path_name filepath = py ".pre-commit-config.yaml" ->
   process_text_content content filepath
   = re_sub (lit (py "--config-file=template_tools/mypy.ini"))
       (py "--config-file={{cookiecutter.project_slug}}_tools/mypy.ini")
       (re_sub (lit (py "--config-file=template_core/mypy.ini"))
          (py "--config-file={{cookiecutter.project_slug}}_core/mypy.ini")
          content)
   /\ process_text_content content filepath <> raw_wrap content).
Proof.
  split; intros Hname.
  - rewrite (process_compose _ _ Hname). split; [done|].
    by apply re_sub_not_wrapped.
  - rewrite (process_pre_commit_config _ _ Hname). split; [done|].
    intros E. apply (f_equal (count_char 37)) in E.
    rewrite count_raw_wrap in E. unfold re_sub in E.
    match type of E with
    | count_char _ (sub_loop ?f ?re ?r None (sub_loop ?f2 ?re2 ?r2 None _)) = _ =>
        pose proof (sub_loop_count 37 f re r None
                      (sub_loop f2 re2 r2 None content) eq_refl) as H1;
        pose proof (sub_loop_count 37 f2 re2 r2 None content eq_refl) as H2
    end.
    lia.
Qed.

Lemma exact_name_before_extension_witness :
  let content := py "services:" ++ [10] ++ py "  template-dev: ${{ x }}" in
  process_text_content (udb := ascii_db) content [py "compose.yaml"]
  = py "services:" ++ [10]
    ++ py "  {{cookiecutter.docker_service_name}}: ${{ x }}"
  /\ process_text_content (udb := ascii_db) content [py "compose.yaml"]
     <> raw_wrap content.
Proof.
  intros content.
  destruct (exact_name_before_extension (udb := ascii_db) content
              [py "compose.yaml"]) as [H _].
  destruct H as [H1 H2]; [vm_compute; reflexivity|].
  split; [|exact H2]. rewrite H1. vm_compute. reflexivity.
Defined.

(** ** [str.replace] and the absence of occurrences *)

Lemma replace_loop_fuel (old new : str) (f f' : nat) (s : str) :
  old <> [] -> (length s < f)%nat -> (length s < f')%nat ->
  replace_loop f old new s = replace_loop f' old new s.
Proof.
  intros Hold. revert f' s. induction f as [|f IH]; intros f' s Hf Hf'; [lia|].
  destruct f' as [|f']; [lia|]. simpl.
  destruct (starts_with old s) eqn:E.
  - f_equal. pose proof (starts_with_drop_length old s Hold E) as Hlt.
    apply Nat.ltb_lt in Hlt. apply IH; lia.
  - destruct s as [|c s]; [done|]. f_equal. simpl in Hf, Hf'. apply IH; lia.
Qed.

Lemma replace_loop_S (fuel : nat) (old new s : str) :
  replace_loop (S fuel) old new s
  = if starts_with old s
    then new ++ replace_loop fuel old new (drop (length old) s)
    else match s with
         | [] => []
         | c :: s' => c :: replace_loop fuel old new s'
         end.
Proof. reflexivity. Qed.

Lemma str_replace_unfold (old new s : str) :
  old <> [] ->
  str_replace old new s
  = if starts_with old s
    then new ++ str_replace old new (drop (length old) s)
    else match s with
         | [] => []
         | c :: s' => c :: str_replace old new s'
         end.
Proof.
  intros Hold. unfold str_replace. destruct old as [|x old]; [done|].
  etransitivity; [apply replace_loop_S|].
  destruct (starts_with (x :: old) s) eqn:E.
  - f_equal. pose proof (starts_with_drop_length _ s Hold E) as Hlt.
    apply Nat.ltb_lt in Hlt. apply replace_loop_fuel; [done|lia..].
  - destruct s as [|c s]; [done|]. f_equal.
Qed.

Lemma contains_cons (q : str) (c : N) (s : str) :
  contains q (c :: s) = starts_with q (c :: s) || contains q s.
Proof. reflexivity. Qed.

Lemma contains_nil_false (q s : str) : contains q s = false -> q <> [].
Proof. intros H ->. by destruct s. Qed.

Lemma contains_app_r (q u t : str) :
  contains q (u ++ t) = false -> contains q t = false.
Proof.
  induction u as [|c u IH]; simpl; [done|].
  intros [_ H]%orb_false_elim. by apply IH.
Qed.

Lemma suffixes_In (q' q : str) :
  In q' (suffixes q) <-> q' <> [] /\ exists u, q = u ++ q'.
Proof.
  induction q as [|x q IH]; simpl.
  - split; [done|]. intros [Hne [u Hu]]. symmetry in Hu.
    apply app_eq_nil in Hu as [_ ->]. done.
  - rewrite IH. split.
    + intros [<-|[Hne [u ->]]]; [split; [done|by exists []]|].
      split; [done|]. by exists (x :: u).
    + intros [Hne [u Hu]]. destruct u as [|y u]; simpl in Hu.
      * by left.
      * right. injection Hu as -> ->. split; [done|]. by exists u.
Qed.

Lemma starts_with_app_compat (q a t : str) :
  starts_with q (a ++ t) = true -> compat a q = true.
Proof.
  unfold compat. revert a. induction q as [|x q IH]; intros a H.
  - destruct a; [done|]. apply orb_true_r.
  - destruct a as [|y a]; [done|]. simpl in H |- *.
    apply andb_prop in H as [Hx Hq]. rewrite (N.eqb_sym y x), Hx. simpl.
    by apply IH.
Qed.

Lemma contains_app_cases (q a t : str) :
  contains q (a ++ t) = true ->
  (exists a', In a' (suffixes a) /\ starts_with q (a' ++ t) = true)
  \/ contains q t = true.
Proof.
  induction a as [|c a IH]; simpl; [by right|].
  intros [H|H]%orb_prop.
  - left. exists (c :: a). by split; [left|].
  - destruct (IH H) as [(a' & Ha & Hs)|Ht]; [|by right].
    left. exists a'. by split; [right|].
Qed.

Section Replace.
Variables old new q : str.
Hypothesis old_nonempty : old <> [].
Hypothesis safe : safe_insert new q = true.

(** If the result of the replacement starts with a suffix of [q], so
    did the text. *)
Lemma starts_with_replace (s q' : str) :
  (exists u, q = u ++ q') ->
  starts_with q' (str_replace old new s) = true -> starts_with q' s = true.
Proof.
  apply andb_prop in safe as [_ HB]. rewrite forallb_forall in HB.
  remember (length s) as n eqn:Hn. revert s q' Hn.
  induction n as [n IH] using lt_wf_ind. intros s q' Hn Hsuf.
  destruct q' as [|x q']; [done|].
  rewrite str_replace_unfold by done.
  destruct (starts_with old s) eqn:E.
  - intros H. apply starts_with_app_compat in H.
    specialize (HB (x :: q')). rewrite H in HB. simpl in HB.
    discriminate HB. apply suffixes_In. by split.
  - destruct s as [|c s]; [done|]. simpl.
    intros [Hx H]%andb_prop. rewrite Hx. simpl.
    apply (IH (length s)) with (s := s); [simpl in Hn; lia|done| |done].
    destruct Hsuf as [u ->]. exists (u ++ [x]). by rewrite <- app_assoc.
Qed.

(** The result of the replacement contains no occurrence of [q], when
    the text contained none or when [q] is the replaced string. *)
Lemma replace_clean (s : str) :
  q = old \/ contains q s = false ->
  contains q (str_replace old new s) = false.
Proof.
  intros Hs0.
  assert (q <> []) as Hq.
  { destruct Hs0 as [->|Hs0]; [done|]. by apply contains_nil_false in Hs0. }
  revert Hs0.
  pose proof safe as Hsafe.
  apply andb_prop in Hsafe as [HA _]. rewrite forallb_forall in HA.
  remember (length s) as n eqn:Hn. revert s Hn.
  induction n as [n IH] using lt_wf_ind. intros s Hn Hs.
  rewrite str_replace_unfold by done.
  destruct (starts_with old s) eqn:E.
  - assert (contains q (str_replace old new (drop (length old) s)) = false)
      as Hrest.
    { pose proof (starts_with_drop_length old s old_nonempty E) as Hlt.
      apply Nat.ltb_lt in Hlt.
      apply (IH (length (drop (length old) s))); [lia|done|].
      destruct Hs as [->|Hs]; [by left|right].
      rewrite (starts_with_inv _ _ E) in Hs. by apply contains_app_r in Hs. }
    destruct (contains q (new ++ _)) eqn:Ec; [|done].
    apply contains_app_cases in Ec as [(a' & Ha & Hsw)|Ht]; [|congruence].
    apply starts_with_app_compat in Hsw. specialize (HA a' Ha).
    by rewrite Hsw in HA.
  - destruct s as [|c s].
    + simpl. by destruct q.
    + change (contains q (c :: str_replace old new s))
        with (starts_with q (c :: str_replace old new s)
              || contains q (str_replace old new s)).
      rewrite (IH (length s)) with (s := s); [|simpl in Hn; lia|done|].
      * rewrite orb_false_r.
        destruct (starts_with q (c :: str_replace old new s)) eqn:Es;
          [|done].
        assert (starts_with q (c :: s) = true) as Hin.
        { apply starts_with_replace; [by exists []|].
          rewrite str_replace_unfold by done. by rewrite E. }
        destruct Hs as [->|Hs]; [congruence|].
        simpl in Hs. rewrite Hin in Hs. done.
      * destruct Hs as [->|Hs]; [by left|right].
        simpl in Hs. by apply orb_false_elim in Hs as [_ Hs].
Qed.

End Replace.

(** Without an occurrence of [old], nothing is replaced. *)
Lemma str_replace_clean_id (old new s : str) :
  old <> [] -> contains old s = false -> str_replace old new s = s.
Proof.
  intros Hold. induction s as [|c s IH]; intros H;
    rewrite str_replace_unfold by done.
  - simpl in H. apply orb_false_elim in H as [-> _]. done.
  - rewrite contains_cons in H. apply orb_false_elim in H as [Hs Hc].
    rewrite Hs. f_equal. by apply IH.
Qed.

(** ** The scan, line by line *)

#[local] Arguments N.eqb : simpl never.

Section Lines.
Context {udb : UnicodeDB}.

Lemma sub_loop_fuel (re : regex) (repl : str) (f f' : nat)
  (prev : option N) (s : str) :
  (length s < f)%nat -> (length s < f')%nat ->
  sub_loop f re repl prev s = sub_loop f' re repl prev s.
Proof.
  revert f' prev s. induction f as [|f IH]; intros f' prev s Hf Hf'; [lia|].
  destruct f' as [|f']; [lia|]. simpl.
  destruct (match_here re prev s) as [[prev' rest]|] eqn:Em.
  - destruct (length rest <? length s)%nat eqn:El.
    + apply Nat.ltb_lt in El. f_equal. apply IH; lia.
    + destruct s as [|c s]; [done|]. simpl in Hf, Hf'.
      do 2 f_equal. apply IH; lia.
  - destruct s as [|c s]; [done|]. simpl in Hf, Hf'. f_equal. apply IH; lia.
Qed.

Lemma sub_loop_S (f : nat) (re : regex) (repl : str) (prev : option N)
  (s : str) :
  sub_loop (S f) re repl prev s
  = match match_here re prev s with
    | Some (prev', rest) =>
        if (length rest <? length s)%nat
        then repl ++ sub_loop f re repl prev' rest
        else match s with
             | [] => repl
             | c :: s' => repl ++ c :: sub_loop f re repl (Some c) s'
             end
    | None =>
        match s with
        | [] => []
        | c :: s' => c :: sub_loop f re repl (Some c) s'
        end
    end.
Proof. reflexivity. Qed.

Lemma re_sub_unfold (re : regex) (repl : str) (f : nat) (prev : option N)
  (s : str) :
  (length s < f)%nat ->
  sub_loop f re repl prev s
  = match match_here re prev s with
    | Some (prev', rest) =>
        if (length rest <? length s)%nat
        then repl ++ sub_loop (S (length rest)) re repl prev' rest
        else match s with
             | [] => repl
             | c :: s' =>
                 repl ++ c :: sub_loop (S (length s')) re repl (Some c) s'
             end
    | None =>
        match s with
        | [] => []
        | c :: s' => c :: sub_loop (S (length s')) re repl (Some c) s'
        end
    end.
Proof.
  intros Hf. destruct f as [|f]; [lia|].
  etransitivity; [apply sub_loop_S|].
  destruct (match_here re prev s) as [[prev' rest]|] eqn:Em.
  - destruct (length rest <? length s)%nat eqn:El.
    + apply Nat.ltb_lt in El. f_equal. apply sub_loop_fuel; lia.
    + destruct s as [|c s]; [done|]. simpl in Hf.
      do 2 f_equal. apply sub_loop_fuel; lia.
  - destruct s as [|c s]; [done|]. simpl in Hf. f_equal.
    apply sub_loop_fuel; lia.
Qed.

(** A pattern that starts by consuming a character ignores what
    precedes the position. *)
Lemma local_re_prev (re : regex) (p1 p2 : option N) (s : str) :
  local_re re = true -> match_here re p1 s = match_here re p2 s.
Proof. destruct re as [|[c|k| |] re]; done. Qed.

Lemma local_re_progress (re : regex) (prev prev' : option N)
  (s rest : str) :
  local_re re = true -> match_here re prev s = Some (prev', rest) ->
  (length rest < length s)%nat.
Proof.
  intros Hl H. destruct re as [|[c|k| |] re]; try done; simpl in H.
  - destruct s as [|x s]; [done|]. destruct (x =? c); [|done].
    apply match_here_length in H. simpl. lia.
  - destruct s as [|x s]; [done|]. destruct (in_class k x); [|done].
    apply plus_loop_inv in H as (y & u & t' & -> & Hc).
    apply match_here_length in Hc. simpl. rewrite length_app. lia.
Qed.

Lemma sub_loop_prev (re : regex) (repl : str) (f : nat)
  (p1 p2 : option N) (s : str) :
  local_re re = true ->
  sub_loop f re repl p1 s = sub_loop f re repl p2 s.
Proof.
  intros Hl. destruct f as [|f]; [done|]. simpl.
  by rewrite (local_re_prev re p1 p2).
Qed.

Lemma in_class_newline (k : cclass) :
  local_atom (Plus k) = true -> in_class k 10 = false.
Proof. by destruct k. Qed.

(** A line-local pattern matches in [u ++ '\n' ++ rest] as it does in
    the line [u]. *)
Lemma match_here_line (re : regex) (prev : option N) (u rest : str) :
  forallb local_atom re = true ->
  match_here re prev (u ++ 10 :: rest)
  = match match_here re prev u with
    | Some (p', r') => Some (p', r' ++ 10 :: rest)
    | None => None
    end.
Proof.
  revert prev u. induction re as [|a re IH]; intros prev u Hl; [done|].
  simpl in Hl. apply andb_prop in Hl as [Ha Hl].
  destruct a as [c|k| |]; try done; simpl.
  - destruct u as [|x u]; simpl.
    + simpl in Ha. rewrite N.eqb_sym. by destruct (c =? 10).
    + destruct (x =? c); [|done]. by apply IH.
  - pose proof (in_class_newline k Ha) as Hk.
    destruct u as [|x u]; simpl; [by rewrite Hk|].
    destruct (in_class k x); [|done].
    revert x. induction u as [|y u IHu]; intros x; simpl.
    + rewrite Hk. by rewrite <- (IH (Some x) []).
    + destruct (in_class k y).
      * rewrite IHu.
        destruct (plus_loop k (match_here re) y u) as [[p' r']|]; [done|].
        by rewrite <- (IH (Some x) (y :: u)).
      * by rewrite <- (IH (Some x) (y :: u)).
Qed.

Lemma newline_free_app (a b : str) :
  count_char 10 (a ++ b) = (count_char 10 a + count_char 10 b)%nat.
Proof. induction a as [|c a IH]; simpl; [done|]. rewrite IH. lia. Qed.

(** The scan of a line-local pattern treats the first line and the rest
    of the text separately. *)
Lemma re_sub_line (re : regex) (repl l rest : str) :
  local_re re = true ->
  count_char 10 l = 0%nat ->
  re_sub re repl (l ++ 10 :: rest)
  = re_sub re repl l ++ 10 :: re_sub re repl rest.
Proof.
  intros Hl. unfold re_sub. generalize (@None N) at 1 2.
  assert (forallb local_atom re = true) as Hall.
  { destruct re as [|[c|k| |] re]; done. }
  remember (length l) as n eqn:Hn. revert l Hn.
  induction n as [n IH] using lt_wf_ind. intros l Hn prev Hnl.
  rewrite (re_sub_unfold re repl _ prev (l ++ 10 :: rest)) by lia.
  rewrite (re_sub_unfold re repl _ prev l) by lia.
  rewrite match_here_line by done.
  destruct (match_here re prev l) as [[p' r']|] eqn:Em.
  - pose proof (local_re_progress _ _ _ _ _ Hl Em) as Hlt.
    destruct (match_here_suffix _ _ _ _ _ Em) as [u Hu].
    assert (count_char 10 r' = 0%nat) as Hr'.
    { rewrite Hu, newline_free_app in Hnl. lia. }
    replace (Nat.ltb (length (r' ++ 10 :: rest)) (length (l ++ 10 :: rest)))
      with true by (symmetry; apply Nat.ltb_lt; rewrite !length_app; lia).
    replace (length r' <? length l)%nat
      with true by (symmetry; by apply Nat.ltb_lt).
    rewrite <- app_assoc. f_equal.
    apply (IH (length r')); [lia|done..].
  - destruct l as [|c l]; cbn [app].
    + f_equal. apply sub_loop_prev. done.
    + f_equal. simpl in Hnl. destruct (c =? 10); [done|].
      apply (IH (length l)); [simpl in Hn; lia|done..].
Qed.

(** The scan adds no newline that the replacement lacks. *)
Lemma re_sub_newline_free (re : regex) (repl l : str) :
  count_char 10 repl = 0%nat -> count_char 10 l = 0%nat ->
  count_char 10 (re_sub re repl l) = 0%nat.
Proof.
  intros Hr Hl.
  pose proof (sub_loop_count 10 (S (length l)) re repl None l Hr).
  unfold re_sub. lia.
Qed.

End Lines.

(** ** Matching literal prefixes and runs of a class *)

Lemma count_char_app (x : N) (a b : str) :
  count_char x (a ++ b) = (count_char x a + count_char x b)%nat.
Proof. induction a as [|c a IH]; simpl; [done|]. rewrite IH. lia. Qed.

Lemma contains_true_inv (p s : str) :
  contains p s = true -> exists u v, s = u ++ p ++ v.
Proof.
  induction s as [|c s IH].
  - simpl. rewrite orb_false_r. intros H. exists [], [].
    apply starts_with_inv in H. by rewrite drop_nil in H.
  - rewrite contains_cons. intros [H|H]%orb_prop.
    + exists [], (drop (length p) (c :: s)). by apply starts_with_inv.
    + destruct (IH H) as (u & v & ->). by exists (c :: u), v.
Qed.

(** A string that lacks a character of [p] does not contain [p]. *)
Lemma contains_absent (p s : str) (c : N) :
  In c p -> count_char c s = 0%nat -> contains p s = false.
Proof.
  intros Hin Hc. destruct (contains p s) eqn:E; [|done].
  apply contains_true_inv in E as (u & v & ->).
  rewrite !count_char_app in Hc.
  assert (count_char c p <> 0%nat); [|lia].
  clear Hc. induction p as [|x p IH]; [done|]. simpl.
  destruct Hin as [->|Hin]; [rewrite N.eqb_refl; lia|].
  specialize (IH Hin). lia.
Qed.

Lemma contains_prefix_absent (a w p : str) (c : N) :
  forallb (fun r => negb (compat r p)) (suffixes a) = true ->
  In c p -> count_char c w = 0%nat -> contains p (a ++ w) = false.
Proof.
  intros Ha Hin Hc. destruct (contains p (a ++ w)) eqn:E; [|done].
  apply contains_app_cases in E as [(a' & Ha' & Hs)|E].
  - rewrite forallb_forall in Ha. specialize (Ha a' Ha').
    apply starts_with_app_compat in Hs. by rewrite Hs in Ha.
  - by rewrite (contains_absent p w c) in E.
Qed.

Lemma last_default (z : N) (w : str) (a b : N) :
  List.last (z :: w) a = List.last (z :: w) b.
Proof.
  revert z. induction w as [|y w IH]; intros z; [done|].
  change (List.last (y :: w) a = List.last (y :: w) b). apply IH.
Qed.

Section Matching.
Context {udb : UnicodeDB}.

Lemma match_here_lit_app (p : str) (re : regex) (prev : option N) (s : str) :
  match_here (lit p ++ re) prev (p ++ s) = match_here re (after_lit prev p) s.
Proof.
  revert prev. induction p as [|x p IH]; intros prev; [done|].
  simpl. rewrite N.eqb_refl, IH. f_equal.
  destruct p as [|y p]; [done|]. unfold after_lit.
  change (last (x :: y :: p)) with (last (y :: p)).
  destruct (last (y :: p)) eqn:E; [done|]. by apply last_None in E.
Qed.

Lemma match_here_lit_miss (p : str) (re : regex) (prev : option N) (s : str) :
  starts_with p s = false -> match_here (lit p ++ re) prev s = None.
Proof.
  revert prev s. induction p as [|x p IH]; intros prev s H; [done|].
  simpl. destruct s as [|y s]; [done|]. simpl in H. rewrite N.eqb_sym.
  destruct (x =? y); [|done]. by apply IH.
Qed.

(** A pattern that begins with the literal [p] is found nowhere in a
    string without [p]. *)
Lemma search_lit_prefix (p : str) (re : regex) (prev : option N) (s : str) :
  contains p s = false -> search_from (lit p ++ re) prev s = false.
Proof.
  revert prev. induction s as [|c s IH]; intros prev H.
  - simpl in H. apply orb_false_elim in H as [H _].
    simpl. by rewrite match_here_lit_miss.
  - rewrite contains_cons in H. apply orb_false_elim in H as [H1 H2].
    simpl. rewrite match_here_lit_miss by done. by apply IH.
Qed.

Lemma plus_loop_run (k : cclass)
  (cont : option N -> str -> option (option N * str))
  (x : N) (w t : str) (r : option N * str) :
  forallb (in_class k) w = true ->
  match t with [] => true | y :: _ => negb (in_class k y) end = true ->
  cont (Some (List.last w x)) t = Some r ->
  plus_loop k cont x (w ++ t) = Some r.
Proof.
  intros Hw Ht. revert x. induction w as [|y w IH]; intros x Hc.
  - simpl in *. destruct t as [|z t]; [done|].
    simpl. apply negb_true_iff in Ht. by rewrite Ht.
  - simpl in Hw. apply andb_prop in Hw as [Hy Hw].
    simpl. rewrite Hy. rewrite (IH Hw y); [done|].
    destruct w as [|z w]; [done|]. by rewrite (last_default z w y x).
Qed.

(** [k+] on a non-empty run [w] of the class that ends where [t]
    starts. *)
Lemma match_here_plus (k : cclass) (re : regex) (prev : option N)
  (w t : str) (r : option N * str) :
  w <> [] ->
  forallb (in_class k) w = true ->
  match t with [] => true | y :: _ => negb (in_class k y) end = true ->
  match_here re (Some (List.last w 0)) t = Some r ->
  match_here (Plus k :: re) prev (w ++ t) = Some r.
Proof.
  intros Hne Hw Ht Hc. destruct w as [|x w]; [done|].
  simpl in Hw. apply andb_prop in Hw as [Hx Hw].
  cbn [match_here app]. rewrite Hx. apply plus_loop_run; [done..|].
  destruct w as [|z w]; [done|]. by rewrite (last_default z w x 0).
Qed.

Lemma word_no_equals (w : str) :
  forallb is_word w = true -> count_char 61 w = 0%nat.
Proof.
  induction w as [|c w IH]; [done|]. simpl.
  intros [Hc Hw]%andb_prop. rewrite (IH Hw).
  destruct (c =? 61) eqn:E; [|done]. apply N.eqb_eq in E. by subst.
Qed.

Lemma digit_no_equals (w : str) :
  forallb is_digit w = true -> count_char 61 w = 0%nat.
Proof.
  induction w as [|c w IH]; [done|]. simpl.
  intros [Hc Hw]%andb_prop. rewrite (IH Hw).
  destruct (c =? 61) eqn:E; [|done]. apply N.eqb_eq in E. by subst.
Qed.

End Matching.

(** ** The [.env] branch *)

Lemma existsb_In (c : N) (p : str) : existsb (N.eqb c) p = true -> In c p.
Proof.
  intros (x & Hx & E)%existsb_exists. apply N.eqb_eq in E. by subst.
Qed.

Lemma is_line_count (l : str) : is_line l = true -> count_char 10 l = 0%nat.
Proof.
  unfold is_line. induction l as [|c l IH]; [done|]. simpl.
  rewrite negb_orb. intros [Hc Hl]%andb_prop. rewrite (IH Hl).
  rewrite N.eqb_sym. by destruct (10 =? c).
Qed.

Section Env.
Context {udb : UnicodeDB}.

Lemma env_transform_line (l rest : str) :
  count_char 10 l = 0%nat ->
  env_transform (l ++ 10 :: rest)
  = env_transform l ++ 10 :: env_transform rest.
Proof.
  intros Hl. unfold env_transform.
  rewrite (re_sub_line env_image_name) by done.
  rewrite (re_sub_line env_user_name);
    [|done|by apply re_sub_newline_free].
  rewrite (re_sub_line env_image_version);
    [done|done|by repeat apply re_sub_newline_free].
Qed.

Lemma env_transform_lines (lines : list str) :
  forallb is_line lines = true ->
  env_transform (join_sep [10] lines)
  = join_sep [10] (List.map env_transform lines).
Proof.
  induction lines as [|l lines IH]; [intros _; by vm_compute|].
  intros [Hl Hls]%andb_prop. destruct lines as [|l2 lines]; [done|].
  change (join_sep [10] (l :: l2 :: lines))
    with (l ++ 10 :: join_sep [10] (l2 :: lines)).
  rewrite env_transform_line by (by apply is_line_count).
  rewrite (IH Hls). done.
Qed.

Lemma env_image_name_line :
  env_transform (py "IMAGE_NAME=template")
  = py "IMAGE_NAME={{cookiecutter.docker_image_name}}".
Proof. vm_compute. reflexivity. Qed.

Lemma env_user_name_line (w : str) :
  w <> [] -> forallb is_word w = true ->
  env_transform (py "USER_NAME=" ++ w)
  = py "USER_NAME={{cookiecutter.user_name}}".
Proof.
  intros Hne Hw. unfold env_transform.
  rewrite (re_sub_no_match env_image_name).
  2:{ unfold re_search, env_image_name.
      rewrite <- (app_nil_r (lit _)). apply search_lit_prefix.
      apply (contains_prefix_absent _ _ _ 61);
        [by vm_compute|apply existsb_In; by vm_compute|].
      by apply word_no_equals. }
  assert (re_sub env_user_name (py "USER_NAME={{cookiecutter.user_name}}")
            (py "USER_NAME=" ++ w)
          = py "USER_NAME={{cookiecutter.user_name}}") as ->.
  { unfold re_sub. rewrite re_sub_unfold by lia.
    unfold env_user_name. rewrite match_here_lit_app.
    rewrite <- (app_nil_r w) at 1.
    rewrite (match_here_plus CWord [] _ w [] (Some (List.last w 0), []));
      [|done..].
    destruct w as [|x w]; [done|]. cbn [length app Nat.ltb Nat.leb py].
    rewrite sub_loop_S.
    change (match_here _ _ []) with (@None (option N * str)).
    by rewrite app_nil_r. }
  by vm_compute.
Qed.

Lemma env_image_version_line (a b c : str) :
  a <> [] -> b <> [] -> c <> [] ->
  forallb is_digit a = true -> forallb is_digit b = true ->
  forallb is_digit c = true ->
  env_transform (py "IMAGE_VERSION=v" ++ a ++ py "." ++ b ++ py "." ++ c)
  = py "IMAGE_VERSION={{cookiecutter.docker_image_version}}".
Proof.
  intros Ha Hb Hc Da Db Dc. unfold env_transform.
  assert (count_char 61 (a ++ py "." ++ b ++ py "." ++ c) = 0%nat) as Heq.
  { rewrite !count_char_app, (digit_no_equals a), (digit_no_equals b),
      (digit_no_equals c) by done. by vm_compute. }
  rewrite (re_sub_no_match env_image_name).
  2:{ unfold re_search, env_image_name.
      rewrite <- (app_nil_r (lit _)). apply search_lit_prefix.
      apply (contains_prefix_absent _ _ _ 61);
        [by vm_compute|apply existsb_In; by vm_compute|done]. }
  rewrite (re_sub_no_match env_user_name).
  2:{ unfold re_search, env_user_name. apply search_lit_prefix.
      apply (contains_prefix_absent _ _ _ 61);
        [by vm_compute|apply existsb_In; by vm_compute|done]. }
  unfold re_sub. rewrite re_sub_unfold by lia.
  assert (exists p', match_here env_image_version None
            (py "IMAGE_VERSION=v" ++ a ++ py "." ++ b ++ py "." ++ c)
          = Some (p', [])) as [p' ->].
  { exists (Some (List.last c 0)). unfold env_image_version, version_re.
    change (py "IMAGE_VERSION=v" ++ ?x)
      with (py "IMAGE_VERSION=" ++ py "v" ++ x).
    rewrite !match_here_lit_app.
    apply match_here_plus; [done..|]. rewrite match_here_lit_app.
    apply match_here_plus; [done..|]. rewrite match_here_lit_app.
    rewrite <- (app_nil_r c) at 1. apply match_here_plus; [done..|].
    reflexivity. }
  destruct a as [|x a]; [done|]. cbn [length app Nat.ltb Nat.leb py].
  rewrite sub_loop_S.
  change (match_here _ _ []) with (@None (option N * str)).
  by rewrite app_nil_r.
Qed.

Lemma env_other_line (line : str) :
  re_search env_image_name line = false ->
  re_search env_user_name line = false ->
  re_search env_image_version line = false ->
  env_transform line = line.
Proof.
  intros H1 H2 H3. unfold env_transform.
  rewrite (re_sub_no_match env_image_name) by done.
  rewrite (re_sub_no_match env_user_name) by done.
  by rewrite (re_sub_no_match env_image_version).
Qed.

End Env.

(** C6: for a file named [.env], the content is transformed line by line;
    the line [IMAGE_NAME=template] becomes the line with the
    docker-image-name placeholder, a line [USER_NAME=w] becomes the line
    with the user-name placeholder for every non-empty [w] of word
    characters, a line [IMAGE_VERSION=va.b.c] with runs of digits [a],
    [b], [c] becomes the line with the image-version placeholder, and a
    line in which none of the three patterns is found is left unchanged. *)
Theorem env_lines_rewritten {udb : UnicodeDB} (filepath : path) :
  path_name filepath = py ".env" ->
  let transform := fun content => process_text_content content filepath in
  (forall lines : list str,
     forallb is_line lines = true ->
     transform (join_sep [10] lines)
     = join_sep [10] (List.map transform lines))
  /\ transform (py "IMAGE_NAME=template")
     = py "IMAGE_NAME={{cookiecutter.docker_image_name}}"
  /\ (forall w : str,
        w <> [] -> forallb is_word w = true ->
        transform (py "USER_NAME=" ++ w)
        = py "USER_NAME={{cookiecutter.user_name}}")
  /\ (forall a b c : str,
        a <> [] -> b <> [] -> c <> [] ->
        forallb is_digit a = true -> forallb is_digit b = true ->
        forallb is_digit c = true ->
        transform (py "IMAGE_VERSION=v" ++ a ++ py "." ++ b ++ py "." ++ c)
        = py "IMAGE_VERSION={{cookiecutter.docker_image_version}}")
  /\ (forall line : str,
        re_search (lit (py "IMAGE_NAME=template")) line = false ->
        re_search (lit (py "USER_NAME=") ++ [Plus CWord]) line = false ->
        re_search (lit (py "IMAGE_VERSION=") ++ version_re) line = false ->
        transform line = line).
Proof.
  intros Hname transform.
  assert (forall content, transform content = env_transform content) as HT.
  { intros content. unfold transform. by rewrite (process_env _ _ Hname). }
  repeat split.
  - intros lines Hl. rewrite HT, env_transform_lines by done.
    f_equal. apply map_ext. intros l. by rewrite HT.
  - rewrite HT. apply env_image_name_line.
  - intros w Hne Hw. rewrite HT. by apply env_user_name_line.
  - intros a b c Ha Hb Hc Da Db Dc. rewrite HT.
    by apply env_image_version_line.
  - intros line H1 H2 H3. rewrite HT. by apply env_other_line.
Qed.

Lemma env_lines_rewritten_witness :
  process_text_content (udb := ascii_db)
    (join_sep [10] [py "# settings"; py "USER_NAME=alice"; py "PORT=8080"])
    [py ".env"]
  = join_sep [10]
      [py "# settings"; py "USER_NAME={{cookiecutter.user_name}}";
       py "PORT=8080"].
Proof.
  destruct (env_lines_rewritten (udb := ascii_db) [py ".env"])
    as (Hlines & _ & Huser & _ & Hother).
  - vm_compute. reflexivity.
  - cbv beta zeta in Hlines, Huser, Hother.
    rewrite Hlines by (vm_compute; reflexivity).
    cbn [List.map].
    change (py "USER_NAME=alice") with (py "USER_NAME=" ++ py "alice").
    rewrite (Huser (py "alice"));
      [|apply eqb_str_neq; vm_compute; reflexivity|vm_compute; reflexivity].
    rewrite !Hother by (vm_compute; reflexivity). reflexivity.
Defined.

(** ** Idempotence of the Content Transformer *)

Section Idempotence.
Context {udb : UnicodeDB}.

Lemma re_sub_lit_idempotent (p repl s : str) :
  p <> [] -> safe_insert repl p = true ->
  re_sub (lit p) repl (re_sub (lit p) repl s) = re_sub (lit p) repl s.
Proof.
  intros Hp Hs. rewrite !re_sub_lit by done.
  apply str_replace_clean_id; [done|].
  apply replace_clean; [done..|by left].
Qed.

Lemma compose_idempotent (content : str) (filepath : path) :
  path_name filepath = py "compose.yaml" ->
  process_text_content (process_text_content content filepath) filepath
  = process_text_content content filepath.
Proof.
  intros Hname. rewrite !(process_compose _ _ Hname).
  apply re_sub_lit_idempotent; [|by vm_compute].
  apply eqb_str_neq. by vm_compute.
Qed.

Lemma pre_commit_config_idempotent (content : str) (filepath : path) :
  path_name filepath = py ".pre-commit-config.yaml" ->
  process_text_content (process_text_content content filepath) filepath
  = process_text_content content filepath.
Proof.
  intros Hname. rewrite !(process_pre_commit_config _ _ Hname).
  set (p1 := py "--config-file=template_core/mypy.ini").
  set (r1 := py "--config-file={{cookiecutter.project_slug}}_core/mypy.ini").
  set (p2 := py "--config-file=template_tools/mypy.ini").
  set (r2 := py "--config-file={{cookiecutter.project_slug}}_tools/mypy.ini").
  assert (p1 <> []) as Hp1 by (apply eqb_str_neq; by vm_compute).
  assert (p2 <> []) as Hp2 by (apply eqb_str_neq; by vm_compute).
  rewrite !re_sub_lit by done.
  set (out := str_replace p2 r2 (str_replace p1 r1 content)).
  assert (contains p1 out = false) as H1.
  { apply replace_clean; [done|by vm_compute|right].
    apply replace_clean; [done|by vm_compute|by left]. }
  assert (contains p2 out = false) as H2.
  { apply replace_clean; [done|by vm_compute|by left]. }
  rewrite (str_replace_clean_id p1 r1 out) by done.
  by apply str_replace_clean_id.
Qed.

End Idempotence.

(** C5 (amended): the Content Transformer is idempotent, for every
    content, on the files named [compose.yaml] and
    [.pre-commit-config.yaml], whose rule lists replace fixed literals,
    and on the files that no branch of the dispatch matches; on a workflow
    file (another name in [.yml] or [.yaml]) it is idempotent for every
    content without [${{]. *)
Theorem transform_idempotent {udb : UnicodeDB}
  (content : str) (filepath : path) :
  let filename := path_name filepath in
  filename = py "compose.yaml"
  \/ filename = py ".pre-commit-config.yaml"
  \/ (existsb (eqb_str filename)
        [py "pyproject.toml"; py ".env"; py "devcontainer.json";
         py "compose.yaml"; py "pre-commit"; py "README.md";
         py ".pre-commit-config.yaml"] = false
      /\ existsb (fun ext => ends_with ext filename)
           [py ".sh"; py ".py"; py ".yml"; py ".yaml"] = false)
  \/ (ends_with (py ".yml") filename || ends_with (py ".yaml") filename = true
      /\ filename <> py "compose.yaml"
      /\ filename <> py ".pre-commit-config.yaml"
      /\ contains (py "${{") content = false) ->
  process_text_content (process_text_content content filepath) filepath
  = process_text_content content filepath.
Proof.
  intros filename [H|[H|[[H1 H2]|(H1 & H2 & H3 & H4)]]].
  - by apply compose_idempotent.
  - by apply pre_commit_config_idempotent.
  - by rewrite !process_unmatched.
  - rewrite !process_workflow by done. by rewrite H4, H4.
Qed.

Lemma transform_idempotent_witness :
  let content := py "  template-dev:" ++ [10] ++ py "    image: x" in
  process_text_content (udb := ascii_db)
    (process_text_content (udb := ascii_db) content [py "compose.yaml"])
    [py "compose.yaml"]
  = process_text_content (udb := ascii_db) content [py "compose.yaml"].
Proof.
  apply (transform_idempotent (udb := ascii_db)).
  left. vm_compute. reflexivity.
Defined.

(** C5, as stated, fails on a shell script, whose rule list replaces two
    fixed literals: where two occurrences of [/home/klapaucius/] share a
    slash, the first run rewrites one of them and the second run the
    other. *)
Lemma transform_idempotent_counterexample :
  let content := py "/home/klapaucius/home/klapaucius/" in
  let filepath := [py "setup.sh"] in
  process_text_content (udb := ascii_db) content filepath
  = py "/home/{{cookiecutter.user_name}}/home/klapaucius/"
  /\ process_text_content (udb := ascii_db)
       (process_text_content (udb := ascii_db) content filepath) filepath
     = py "/home/{{cookiecutter.user_name}}/home/{{cookiecutter.user_name}}/"
  /\ process_text_content (udb := ascii_db)
       (process_text_content (udb := ascii_db) content filepath) filepath
     <> process_text_content (udb := ascii_db) content filepath.
Proof.
  repeat split; try (vm_compute; reflexivity). vm_compute. discriminate.
Qed.

(** The escape of [${#] cascades: its replacement contains [${#]. *)
Lemma shell_escape_cascades :
  let filepath := [py "hooks"; py "pre-commit"] in
  process_text_content (udb := ascii_db) (py "${#a[@]}") filepath
  = py "{{ '${#' }}a[@]}"
  /\ process_text_content (udb := ascii_db) (py "{{ '${#' }}a[@]}") filepath
     = py "{{ '{{ '${#' }}' }}a[@]}".
Proof. split; vm_compute; reflexivity. Qed.

(** The literal-block pair is added again on every run. *)
Lemma workflow_wrap_cascades :
  let filepath := [py "ci.yml"] in
  process_text_content (udb := ascii_db) (py "${{ x }}") filepath
  = py "{% raw %}${{ x }}{% endraw %}"
  /\ process_text_content (udb := ascii_db)
       (py "{% raw %}${{ x }}{% endraw %}") filepath
     = py "{% raw %}{% raw %}${{ x }}{% endraw %}{% endraw %}".
Proof. split; vm_compute; reflexivity. Qed.

(** The removal of the notice of [README.md] is not idempotent either:
    removing a notice can bring the two halves of another one together. *)
Lemma readme_removal_cascades :
  let content := py ">" ++ README_NOTICE ++ drop 1 README_NOTICE in
  let filepath := [py "README.md"] in
  process_text_content (udb := ascii_db) content filepath = README_NOTICE
  /\ process_text_content (udb := ascii_db) README_NOTICE filepath = [].
Proof. split; vm_compute; reflexivity. Qed.

(** ** File system operations *)

Lemma mkdir_chain_mono (fs fs' : filesystem) (done todo : path) :
  mkdir_chain fs done todo = Ok fs' ->
  forall p n, fs !! p = Some n -> fs' !! p = Some n.
Proof.
  revert fs done. induction todo as [|seg rest IH]; intros fs done H p n Hp.
  - by injection H as <-.
  - simpl in H. destruct (fs !! (done ++ [seg])) as [[bytes x|]|] eqn:Ed.
    + done.
    + by apply (IH _ _ H).
    + apply (IH _ _ H). rewrite lookup_insert_ne; [done|]. congruence.
Qed.

Lemma mkdir_chain_dirs (fs fs' : filesystem) (done todo : path) :
  mkdir_chain fs done todo = Ok fs' ->
  forall k, (0 < k <= length todo)%nat ->
            fs' !! (done ++ take k todo) = Some Dir.
Proof.
  revert fs done. induction todo as [|seg rest IH]; intros fs done H k Hk.
  - simpl in Hk. lia.
  - simpl in H. destruct k as [|k]; [lia|]. simpl in Hk.
    assert (done ++ take (S k) (seg :: rest)
            = (done ++ [seg]) ++ take k rest) as ->.
    { simpl. by rewrite <- app_assoc. }
    destruct (fs !! (done ++ [seg])) as [[bytes x|]|] eqn:Ed; [done| |].
    + destruct k as [|k].
      * rewrite take_0, app_nil_r. by apply (mkdir_chain_mono _ _ _ _ H).
      * apply (IH _ _ H). lia.
    + destruct k as [|k].
      * rewrite take_0, app_nil_r. apply (mkdir_chain_mono _ _ _ _ H).
        apply lookup_insert_eq.
      * apply (IH _ _ H). lia.
Qed.

Lemma mkdir_chain_grows (fs fs' : filesystem) (done todo : path) :
  mkdir_chain fs done todo = Ok fs' ->
  grows_by (fun p n => n = Dir /\
              exists k, (0 < k <= length todo)%nat /\ p = done ++ take k todo)
    fs fs'.
Proof.
  revert fs done. induction todo as [|seg rest IH]; intros fs done H p n Hp.
  - injection H as <-. by left.
  - simpl in H.
    assert (forall k, (done ++ [seg]) ++ take k rest
                      = done ++ take (S k) (seg :: rest)) as Hshift.
    { intros k. simpl. by rewrite <- app_assoc. }
    destruct (fs !! (done ++ [seg])) as [[bytes x|]|] eqn:Ed; [done| |].
    + destruct (IH _ _ H p n Hp) as [Hold|[-> (k & Hk & ->)]]; [by left|].
      right. split; [done|]. exists (S k). rewrite Hshift. simpl. split; [lia|done].
    + destruct (IH _ _ H p n Hp) as [Hold|[-> (k & Hk & ->)]].
      * destruct (decide (p = done ++ [seg])) as [->|Hne].
        -- rewrite lookup_insert_eq in Hold. injection Hold as <-.
           right. split; [done|]. exists 1%nat. simpl. split; [lia|done].
        -- rewrite lookup_insert_ne in Hold by done. by left.
      * right. split; [done|]. exists (S k). rewrite Hshift. simpl.
        split; [lia|done].
Qed.

Lemma fs_node_lookup (fs : filesystem) (p : path) :
  p <> [] -> fs_node fs p = fs !! p.
Proof. by destruct p. Qed.

Lemma mkdir_parents_is_dir (fs fs' : filesystem) (d : path) :
  mkdir_parents fs d = Ok fs' -> fs_node fs' d = Some Dir.
Proof.
  intros H. destruct d as [|seg d]; [done|].
  rewrite fs_node_lookup by done.
  pose proof (mkdir_chain_dirs _ _ _ _ H (length (seg :: d))) as Hd.
  rewrite firstn_all in Hd. apply Hd. simpl. lia.
Qed.

Lemma mkdir_parents_node (fs fs' : filesystem) (d p : path) (n : node) :
  mkdir_parents fs d = Ok fs' -> fs_node fs p = Some n -> fs_node fs' p = Some n.
Proof.
  intros H Hp. destruct p as [|seg p]; [done|].
  rewrite fs_node_lookup in * by done. by apply (mkdir_chain_mono _ _ _ _ H).
Qed.

(** What a successful [write_text] does. *)
Lemma write_text_shape (fs fs' : filesystem) (dest : path) (s : str) :
  write_text fs dest s = Ok fs' ->
  exists bytes x, fs' = <[dest := File bytes x]> fs
                  /\ fs_node fs dest <> Some Dir.
Proof.
  unfold write_text. intros H.
  destruct (fs_node fs dest) as [[old x|]|] eqn:Ed; [|done|].
  - destruct (utf8_encode s) as [bytes|]; [|done]. injection H as <-.
    by exists bytes, x.
  - destruct (create_error fs dest); [done|].
    destruct (utf8_encode s) as [bytes|]; [|done]. injection H as <-.
    by exists bytes, false.
Qed.

(** What a successful [copy2] does. *)
Lemma copy2_shape (fs fs' : filesystem) (source dest : path) :
  copy2 fs source dest = Ok fs' ->
  exists bytes x target,
    fs' = <[target := File bytes x]> fs
    /\ fs_node fs source = Some (File bytes x)
    /\ (target = dest
        \/ target = dest ++ [path_name source] /\ is_dir fs dest = true)
    /\ fs_node fs target <> Some Dir.
Proof.
  unfold copy2. intros H.
  destruct (fs_node fs source) as [[bytes x|]|] eqn:Es; [|done..].
  set (target := if is_dir fs dest then dest ++ [path_name source] else dest)
    in *.
  exists bytes, x, target.
  assert (target = dest
          \/ target = dest ++ [path_name source] /\ is_dir fs dest = true)
    as Ht.
  { unfold target. destruct (is_dir fs dest); [by right|by left]. }
  destruct (bool_decide (source = target)); [done|].
  destruct (fs_node fs target) as [[old y|]|] eqn:Et; [|done|].
  - injection H as <-. done.
  - destruct (create_error fs target); [done|]. injection H as <-. done.
Qed.

Section CopyFile.
Context {udb : UnicodeDB}.

(** A successful [copy_and_process_file] creates the parents of the
    destination and writes one regular file, at the destination or,
    when the destination is a directory, inside it. *)
Lemma copy_and_process_file_shape (fs fs' : filesystem)
  (source dest : path) :
  copy_and_process_file fs source dest = Ok fs' ->
  exists fs1 bytes x target,
    mkdir_parents fs (path_parent dest) = Ok fs1
    /\ fs' = <[target := File bytes x]> fs1
    /\ (target = dest
        \/ target = dest ++ [path_name source] /\ is_dir fs1 dest = true)
    /\ fs_node fs1 target <> Some Dir.
Proof.
  unfold copy_and_process_file. intros H.
  destruct (mkdir_parents fs (path_parent dest)) as [fs1|e] eqn:Em; [|done].
  simpl in H. exists fs1.
  assert (forall fs2, copy_as_text fs1 source dest = Ok fs2 ->
            exists bytes x, fs2 = <[dest := File bytes x]> fs1
                            /\ fs_node fs1 dest <> Some Dir) as Htext.
  { intros fs2. unfold copy_as_text.
    destruct (read_text fs1 source) as [content|]; [|done]. simpl.
    destruct (write_text fs1 dest _) as [fsw|] eqn:Ew; [|done]. simpl.
    apply write_text_shape in Ew as (bytes & x & -> & Hd).
    intros [= <-]. destruct (access_x _ source).
    - unfold chmod_x. rewrite lookup_insert_eq.
      exists bytes, true. by rewrite insert_insert_eq.
    - by exists bytes, x. }
  destruct (copy_as_text fs1 source dest) as [fs2|e] eqn:Et.
  - injection H as <-. destruct (Htext _ eq_refl) as (bytes & x & -> & Hd).
    exists bytes, x, dest. split; [done|]. split; [done|].
    split; [by left|done].
  - assert (copy2 fs1 source dest = Ok fs') as Hc by (by destruct e).
    apply copy2_shape in Hc as (bytes & x & target & -> & _ & Ht & Hd).
    by exists bytes, x, target.
Qed.

End CopyFile.

(** C8: a regular source file whose bytes are not valid UTF-8 is copied
    without the Content Transformer: once the parents of the destination
    exist, [copy_and_process_file] is [shutil.copy2], and when the
    destination is not a directory it succeeds and the destination is a
    regular file with exactly the bytes (and the mode) of the source. *)
Theorem binary_copied_raw {udb : UnicodeDB} (fs : filesystem)
  (source dest : path) (bytes : list Byte.byte) (x : bool) :
  fs_node fs source = Some (File bytes x) ->
  utf8_decode bytes = None ->
  copy_and_process_file fs source dest
  = (fs1 <- mkdir_parents fs (path_parent dest) ;; copy2 fs1 source dest)
  /\ forall fs1,
       mkdir_parents fs (path_parent dest) = Ok fs1 ->
       is_dir fs1 dest = false ->
       source <> dest ->
       copy_and_process_file fs source dest
       = Ok (<[dest := File bytes x]> fs1)
       /\ (<[dest := File bytes x]> fs1) !! dest = Some (File bytes x).
Proof.
  intros Hs Hdec.
  assert (forall fs1, mkdir_parents fs (path_parent dest) = Ok fs1 ->
            copy_and_process_file fs source dest = copy2 fs1 source dest
            /\ fs_node fs1 source = Some (File bytes x)) as Hraw.
  { intros fs1 Hm. pose proof (mkdir_parents_node _ _ _ _ _ Hm Hs) as Hs1.
    split; [|done]. unfold copy_and_process_file. rewrite Hm. simpl.
    unfold copy_as_text, read_text. by rewrite Hs1, Hdec. }
  split.
  - destruct (mkdir_parents fs (path_parent dest)) as [fs1|e] eqn:Em.
    + by destruct (Hraw fs1 eq_refl) as [-> _].
    + unfold copy_and_process_file. by rewrite Em.
  - intros fs1 Hm Hd Hne. destruct (Hraw fs1 Hm) as [-> Hs1].
    split; [|apply lookup_insert_eq].
    unfold copy2. rewrite Hd, Hs1.
    rewrite bool_decide_eq_false_2 by done.
    unfold is_dir in Hd.
    destruct (fs_node fs1 dest) as [[old y|]|] eqn:Et; [done|done|].
    unfold create_error. by rewrite (mkdir_parents_is_dir _ _ _ Hm).
Qed.

Lemma binary_copied_raw_witness :
  let source := [py "docs"; py "logo.png"] in
  let dest := TEMPLATE_ROOT ++ source in
  let bytes := [Byte.x89; Byte.x50; Byte.xff; Byte.x00] in
  let fs : filesystem :=
    <[ source := File bytes false ]> (<[ [py "docs"] := Dir ]> ∅) in
  match copy_and_process_file (udb := ascii_db) fs source dest with
  | Ok fs' => fs' !! dest = Some (File bytes false)
  | Raise _ => False
  end.
Proof.
  intros source dest bytes fs.
  destruct (binary_copied_raw (udb := ascii_db) fs source dest bytes false)
    as [_ H]; [vm_compute; reflexivity..|].
  assert (match mkdir_parents fs (path_parent dest) with
          | Ok fs1 => is_dir fs1 dest = false
          | Raise _ => False
          end) as Hdir by (vm_compute; reflexivity).
  revert Hdir.
  destruct (mkdir_parents fs (path_parent dest)) as [fs1|e] eqn:Em; [|done].
  intros Hdir. destruct (H fs1 eq_refl Hdir) as [Hcopy Hlook].
  - intros E. vm_compute in E. discriminate E.
  - rewrite Hcopy. exact Hlook.
Defined.

(** ** [.git] segments under prefixes, suffixes and renaming *)

Lemma inside_git_suffix (a b : path) :
  inside_git (a ++ b) = false -> inside_git b = false.
Proof.
  intros H. destruct (inside_git b) eqn:E; [|done].
  apply inside_git_inv in E as (before & after & -> & Hne).
  rewrite app_assoc, inside_git_app in H; done.
Qed.

Lemma inside_git_prefix (a b : path) :
  inside_git (a ++ b) = false -> inside_git a = false.
Proof.
  intros H. destruct (inside_git a) eqn:E; [|done].
  apply inside_git_inv in E as (before & after & -> & Hne).
  rewrite <- app_assoc in H.
  change ((py ".git" :: after) ++ b) with (py ".git" :: (after ++ b)) in H.
  rewrite inside_git_app in H; [done|]. by destruct after.
Qed.

Lemma path_name_inv (p : path) (x : str) :
  path_name p = x -> x <> [] -> exists before, p = before ++ [x].
Proof.
  intros Hn Hx. destruct p as [|y p] using rev_ind.
  - by destruct Hx.
  - rewrite path_name_app in Hn. subst. by exists p.
Qed.

(** A [.git] segment that is not final has a segment beneath it. *)
Lemma inside_git_extend (a b : path) :
  path_name a = py ".git" -> b <> [] -> inside_git (a ++ b) = true.
Proof.
  intros Hn Hb. apply path_name_inv in Hn as [before ->]; [|done].
  rewrite <- app_assoc. by apply inside_git_app.
Qed.

Lemma inside_git_snoc (q : path) (x : str) :
  elem_str (py ".git") q = false -> inside_git (q ++ [x]) = false.
Proof.
  intros He. destruct (inside_git (q ++ [x])) eqn:E; [|done].
  apply inside_git_inv in E as (before & after & Heq & Hne).
  destruct after as [|y after] using rev_ind; [done|]. clear IHafter.
  rewrite app_comm_cons, app_assoc in Heq.
  apply app_inj_tail in Heq as [-> _].
  assert (elem_str (py ".git") (before ++ py ".git" :: after) = true) as Ht.
  { apply elem_str_In. apply in_or_app. right. by left. }
  congruence.
Qed.

Lemma path_name_app_r (a b : path) :
  b <> [] -> path_name (a ++ b) = path_name b.
Proof.
  intros Hb. destruct b as [|y b] using rev_ind; [done|].
  by rewrite app_assoc, !path_name_app.
Qed.

Lemma rename_part_git (x : str) :
  eqb_str (rename_part x) (py ".git") = eqb_str x (py ".git").
Proof.
  destruct (eqb_str x (py "template_core")) eqn:E1.
  { apply eqb_str_eq in E1. subst. by vm_compute. }
  destruct (eqb_str x (py "template_tools")) eqn:E2.
  { apply eqb_str_eq in E2. subst. by vm_compute. }
  rewrite rename_part_other; [done|by apply eqb_str_neq..].
Qed.

Lemma inside_git_rename (parts : path) :
  inside_git (List.map rename_part parts) = inside_git parts.
Proof.
  unfold inside_git.
  assert (forall l, after_first (py ".git") (List.map rename_part l)
                    = List.map rename_part <$> after_first (py ".git") l)
    as Haf.
  { induction l as [|y l IH]; [done|]. simpl. rewrite rename_part_git.
    by destruct (eqb_str y (py ".git")). }
  rewrite Haf. destruct (after_first (py ".git") parts) as [[|z l]|]; done.
Qed.

Lemma path_name_rename (parts : path) :
  path_name (List.map rename_part parts) = py ".git" ->
  path_name parts = py ".git".
Proof.
  destruct parts as [|y parts] using rev_ind; [done|].
  rewrite List.map_app. simpl. rewrite !path_name_app.
  intros H. apply eqb_str_eq. rewrite <- rename_part_git.
  by apply eqb_str_eq.
Qed.

Lemma elem_git_cases (q : path) :
  elem_str (py ".git") q = true ->
  inside_git q = true \/ path_name q = py ".git".
Proof.
  intros He. destruct (eqb_str (path_name q) (py ".git")) eqn:E.
  - right. by apply eqb_str_eq.
  - left. apply inside_git_of_elem; [done|]. by apply eqb_str_neq.
Qed.

(** The destination of a relative path: the template root followed by
    the renamed segments of a non-empty tail of the path. *)
Lemma get_template_path_inv (rel dest : path) :
  get_template_path rel = Ok dest ->
  exists pre parts,
    rel = pre ++ parts /\ rel <> []
    /\ dest = TEMPLATE_ROOT ++ List.map rename_part parts.
Proof.
  unfold get_template_path. destruct rel as [|p0 rest]; [done|].
  set (parts := if eqb_str p0 (py ".") then rest else p0 :: rest).
  intros H.
  assert (dest = TEMPLATE_ROOT ++ List.map rename_part parts) as ->.
  { revert H. destruct (List.map rename_part parts) as [|x l]; intros [= <-].
    - by rewrite app_nil_r.
    - done. }
  unfold parts. destruct (eqb_str p0 (py ".")).
  - by exists [p0], rest.
  - by exists [], (p0 :: rest).
Qed.

Lemma relative_to_inv (item source rel : path) :
  relative_to item source = Some rel -> item = source ++ rel.
Proof.
  revert item. induction source as [|s source IH]; intros item H.
  - by injection H as <-.
  - destruct item as [|i item]; [done|]. simpl in H.
    destruct (eqb_str i s) eqn:E; [|done]. apply eqb_str_eq in E. subst.
    simpl. f_equal. by apply IH.
Qed.

Lemma relative_to_app (source rel : path) :
  relative_to (source ++ rel) source = Some rel.
Proof.
  induction source as [|s source IH]; [done|]. simpl.
  by rewrite eqb_str_refl.
Qed.

Lemma should_exclude_false_inv (fs : filesystem) (p : path) :
  should_exclude fs p = false ->
  inside_git p = false
  /\ (path_name p = py ".git" -> is_dir fs p = false).
Proof.
  unfold should_exclude. intros H. split.
  - destruct (eqb_str (path_name p) (py ".git") && is_dir fs p); [done|].
    by destruct (inside_git p).
  - intros Hn. rewrite Hn, eqb_str_refl in H. by destruct (is_dir fs p).
Qed.

(** ** Monotonicity of the copy *)

Lemma fs_le_refl (fs : filesystem) : fs_le fs fs.
Proof. by intros p. Qed.

Lemma fs_le_trans (fs1 fs2 fs3 : filesystem) :
  fs_le fs1 fs2 -> fs_le fs2 fs3 -> fs_le fs1 fs3.
Proof.
  intros H12 H23 p. destruct (H12 p) as [A1 B1], (H23 p) as [A2 B2].
  split; auto.
Qed.

Lemma fs_le_mkdir (fs fs' : filesystem) (d : path) :
  mkdir_parents fs d = Ok fs' -> fs_le fs fs'.
Proof.
  intros H p. split.
  - by apply (mkdir_chain_mono _ _ _ _ H).
  - unfold is_file. destruct (fs_node fs p) as [[bytes x|]|] eqn:E; [|done..].
    by rewrite (mkdir_parents_node _ _ _ _ _ H E).
Qed.

Lemma fs_le_insert_file (fs : filesystem) (target : path)
  (bytes : list Byte.byte) (x : bool) :
  fs_node fs target <> Some Dir -> fs_le fs (<[target := File bytes x]> fs).
Proof.
  intros Hd p. destruct target as [|t target]; [done|].
  rewrite fs_node_lookup in Hd by done.
  destruct (decide (p = t :: target)) as [->|Hne].
  - split; [done|]. intros _. unfold is_file.
    by rewrite fs_node_lookup, lookup_insert_eq.
  - split.
    + by rewrite lookup_insert_ne.
    + unfold is_file. destruct p as [|s p]; [done|].
      by rewrite !fs_node_lookup, lookup_insert_ne.
Qed.

Lemma fs_le_is_Some (fs fs' : filesystem) (p : path) :
  p <> [] -> fs_le fs fs' -> is_Some (fs !! p) -> is_Some (fs' !! p).
Proof.
  intros Hp Hle [n Hn]. destruct (Hle p) as [HD HF].
  destruct n as [bytes x|].
  - assert (is_file fs' p = true) as Hf.
    { apply HF. unfold is_file. by rewrite fs_node_lookup, Hn. }
    unfold is_file in Hf. rewrite fs_node_lookup in Hf by done.
    by destruct (fs' !! p).
  - rewrite (HD Hn). done.
Qed.

Section CopyTree.
Context {udb : UnicodeDB}.

Lemma fs_le_copy_file (fs fs' : filesystem) (source dest : path) :
  copy_and_process_file fs source dest = Ok fs' -> fs_le fs fs'.
Proof.
  intros H. apply copy_and_process_file_shape in H
    as (fs1 & bytes & x & target & Hm & -> & _ & Hd).
  eapply fs_le_trans; [by eapply fs_le_mkdir|].
  by apply fs_le_insert_file.
Qed.

Lemma fs_le_copy_item (source : path) (fs fs' : filesystem) (item : path) :
  copy_item source fs item = Ok fs' -> fs_le fs fs'.
Proof.
  unfold copy_item. intros H.
  destruct (should_exclude fs item); [injection H as <-; apply fs_le_refl|].
  destruct (relative_to item source) as [rel|];
    [|injection H as <-; apply fs_le_refl].
  destruct (get_template_path rel) as [dest|]; [|done]. simpl in H.
  destruct (is_file fs item); [by eapply fs_le_copy_file|].
  destruct (is_dir fs item); [by eapply fs_le_mkdir|].
  injection H as <-. apply fs_le_refl.
Qed.

Lemma fs_le_copy_tree (source : path) (items : list path)
  (fs fs' : filesystem) :
  copy_directory_structure source items fs = Ok fs' -> fs_le fs fs'.
Proof.
  revert fs. induction items as [|item items IH]; intros fs H.
  - injection H as <-. apply fs_le_refl.
  - simpl in H. destruct (copy_item source fs item) as [fs1|] eqn:E; [|done].
    simpl in H. eapply fs_le_trans; [by eapply fs_le_copy_item|by apply IH].
Qed.

(** The run reaches every item of the listing. *)
Lemma copy_tree_reaches (source : path) (items : list path)
  (fs fs' : filesystem) (item : path) :
  In item items ->
  copy_directory_structure source items fs = Ok fs' ->
  exists fs1 fs2,
    fs_le fs fs1 /\ copy_item source fs1 item = Ok fs2 /\ fs_le fs2 fs'.
Proof.
  revert fs. induction items as [|i items IH]; intros fs Hin H; [done|].
  simpl in H. destruct (copy_item source fs i) as [fsi|] eqn:E; [|done].
  simpl in H. destruct Hin as [->|Hin].
  - exists fs, fsi. split; [apply fs_le_refl|]. split; [done|].
    by eapply fs_le_copy_tree.
  - destruct (IH _ Hin H) as (fs1 & fs2 & H1 & H2 & H3).
    exists fs1, fs2. split; [|done].
    eapply fs_le_trans; [by eapply fs_le_copy_item|done].
Qed.

(** A regular file that is not excluded leaves an entry at its
    rewritten path. *)
Lemma copy_item_kept_file (source : path) (fs fs' : filesystem)
  (rel : path) :
  is_file fs (source ++ rel) = true ->
  should_exclude fs (source ++ rel) = false ->
  copy_item source fs (source ++ rel) = Ok fs' ->
  exists dest, get_template_path rel = Ok dest /\ is_Some (fs' !! dest).
Proof.
  intros Hf Hx. unfold copy_item. rewrite Hx, relative_to_app, Hf.
  destruct (get_template_path rel) as [dest|] eqn:Eg; [|done]. simpl.
  intros H. exists dest. split; [done|].
  apply copy_and_process_file_shape in H
    as (fs1 & bytes & x & target & Hm & -> & [->|[-> Hd]] & _).
  - by rewrite lookup_insert_eq.
  - unfold is_dir in Hd.
    apply get_template_path_inv in Eg as (pre & parts & _ & _ & ->).
    rewrite fs_node_lookup in Hd by done.
    rewrite lookup_insert_ne.
    + by destruct (fs1 !! _) as [[]|].
    + intros E. apply (f_equal length) in E. rewrite !length_app in E.
      simpl in E. lia.
Qed.

End CopyTree.

(** ** No trace of [.git] in the output tree *)

Lemma clean_tree_nodes (fs : filesystem) : clean_tree fs <-> clean_nodes fs.
Proof.
  split.
  - intros Hc q n Hq. split.
    + destruct (inside_git q) eqn:E; [|done].
      apply inside_git_inv in E as (before & after & -> & Hne).
      by destruct (Hc _ _ _ Hq).
    + intros Hn. apply path_name_inv in Hn as [before ->]; [|done].
      by destruct (Hc _ _ _ Hq).
  - intros Hc before after n Hq. destruct (Hc _ _ Hq) as [Hi Hn].
    destruct after as [|a after].
    + split; [done|]. apply Hn. apply path_name_app.
    + by rewrite inside_git_app in Hi.
Qed.

Lemma clean_grows (P : path -> node -> Prop) (fs fs' : filesystem) :
  clean_nodes fs -> grows_by P fs fs' ->
  (forall q n, P (TEMPLATE_ROOT ++ q) n ->
               inside_git q = false /\ (path_name q = py ".git" -> n <> Dir)) ->
  clean_nodes fs'.
Proof.
  intros Hc Hg HP q n Hq. destruct (Hg _ _ Hq) as [Hold|Hnew].
  - by apply Hc.
  - by apply HP.
Qed.

Lemma clean_mkdir (fs fs' : filesystem) (d : path) :
  clean_nodes fs -> mkdir_parents fs d = Ok fs' ->
  (forall q' k, d = (TEMPLATE_ROOT ++ q') ++ k ->
                inside_git q' = false /\ path_name q' <> py ".git") ->
  clean_nodes fs'.
Proof.
  intros Hc Hm Hd. eapply clean_grows; [done|by eapply mkdir_chain_grows|].
  intros q n [-> (k & _ & Hk)].
  change ([] ++ take k d) with (take k d) in Hk.
  destruct (Hd q (drop k d)) as [Hi Hn].
  - rewrite Hk. symmetry. apply take_drop.
  - split; [done|]. intros Hq. by destruct Hn.
Qed.

Lemma clean_insert_file (fs : filesystem) (target : path)
  (bytes : list Byte.byte) (x : bool) :
  clean_nodes fs ->
  (forall q, target = TEMPLATE_ROOT ++ q -> inside_git q = false) ->
  clean_nodes (<[target := File bytes x]> fs).
Proof.
  intros Hc Ht q n Hq.
  destruct (decide (target = TEMPLATE_ROOT ++ q)) as [E|Hne].
  - rewrite E, lookup_insert_eq in Hq. injection Hq as <-.
    split; [by apply Ht|done].
  - rewrite lookup_insert_ne in Hq by done. by apply Hc.
Qed.

Section CleanTree.
Context {udb : UnicodeDB}.

Lemma clean_copy_item (source : path) (fs fs' : filesystem) (item : path) :
  clean_nodes fs -> copy_item source fs item = Ok fs' -> clean_nodes fs'.
Proof.
  intros Hc. unfold copy_item.
  destruct (should_exclude fs item) eqn:Hx; [by intros [= <-]|].
  destruct (relative_to item source) as [rel|] eqn:Er; [|by intros [= <-]].
  destruct (get_template_path rel) as [dest|] eqn:Eg; [|done]. simpl.
  apply should_exclude_false_inv in Hx as [Hgit Hname].
  apply relative_to_inv in Er.
  apply get_template_path_inv in Eg as (pre & parts & Hrel & Hne & ->).
  set (q := List.map rename_part parts).
  assert (item = (source ++ pre) ++ parts) as Hitem.
  { by rewrite Er, Hrel, app_assoc. }
  assert (inside_git q = false) as Hq.
  { unfold q. rewrite inside_git_rename. rewrite Hitem in Hgit.
    by apply inside_git_suffix in Hgit. }
  assert (path_name q = py ".git" -> path_name item = py ".git") as Hqn.
  { intros Hn. apply path_name_rename in Hn.
    rewrite Hitem, path_name_app_r; [done|]. by destruct parts. }
  assert (forall q' k, q = q' ++ k -> k <> [] ->
            inside_git q' = false /\ path_name q' <> py ".git") as Hpre.
  { intros q' k Hk Hkne. rewrite Hk in Hq. split.
    - by apply inside_git_prefix in Hq.
    - intros Hn. by rewrite inside_git_extend in Hq. }
  destruct (is_file fs item) eqn:Hf.
  - intros H. apply copy_and_process_file_shape in H
      as (fs1 & bytes & x & target & Hm & -> & Ht & _).
    assert (clean_nodes fs1) as Hc1.
    { eapply clean_mkdir; [done..|]. intros q' k Hk.
      assert (TEMPLATE_ROOT ++ q <> []) as Hnil by done.
      apply app_removelast_last with (d := []) in Hnil.
      unfold path_parent in Hk. rewrite Hk in Hnil.
      rewrite <- !app_assoc in Hnil. apply app_inv_head in Hnil.
      apply (Hpre q' _ Hnil). by destruct k. }
    apply clean_insert_file; [done|]. intros q0 Hq0.
    destruct Ht as [->|[-> Hd]].
    + apply app_inv_head in Hq0. by subst.
    + rewrite <- app_assoc in Hq0. apply app_inv_head in Hq0. subst q0.
      apply inside_git_snoc.
      destruct (elem_str (py ".git") q) eqn:He; [|done].
      apply elem_git_cases in He as [He|He]; [congruence|].
      unfold is_dir in Hd. rewrite fs_node_lookup in Hd by done.
      destruct (fs1 !! (TEMPLATE_ROOT ++ q)) as [[|]|] eqn:El; try done.
      destruct (Hc1 _ _ El) as [_ Hn']. by destruct (Hn' He).
  - destruct (is_dir fs item) eqn:Hd; [|by intros [= <-]].
    intros Hm. eapply clean_mkdir; [done..|]. intros q' k Hk.
    rewrite <- app_assoc in Hk. apply app_inv_head in Hk.
    destruct k as [|s k]; [|by apply (Hpre q' (s :: k))].
    rewrite app_nil_r in Hk. subst q'. split; [done|].
    intros Hn. specialize (Hname (Hqn Hn)). congruence.
Qed.

Lemma clean_copy_tree (source : path) (items : list path)
  (fs fs' : filesystem) :
  clean_nodes fs -> copy_directory_structure source items fs = Ok fs' ->
  clean_nodes fs'.
Proof.
  revert fs. induction items as [|item items IH]; intros fs Hc H.
  - by injection H as <-.
  - simpl in H. destruct (copy_item source fs item) as [fs1|] eqn:E; [|done].
    simpl in H. apply (IH fs1); [|done]. by eapply clean_copy_item.
Qed.

End CleanTree.

(** C1 (amended): a directory whose final segment is [.git] is excluded,
    and so is every path with a further segment beneath a [.git] segment,
    whatever its kind and whatever the special-keep rule says; the claim
    is not made for a path that ends in [.git] and is not a directory.
    Consequently the tree copier leaves an output tree without a trace of
    [.git] that way: below the template root it creates no entry beneath
    a [.git] segment and no directory named [.git]. *)
Theorem git_excluded {udb : UnicodeDB} :
  (forall (fs : filesystem) (p : path),
     path_name p = py ".git" -> is_dir fs p = true ->
     should_exclude fs p = true)
  /\ (forall (fs : filesystem) (before after : path),
        after <> [] -> should_exclude fs (before ++ py ".git" :: after) = true)
  /\ (forall (source : path) (items : list path) (fs fs' : filesystem),
        clean_tree fs ->
        copy_directory_structure source items fs = Ok fs' ->
        clean_tree fs').
Proof.
  split; [|split].
  - apply should_exclude_git_dir.
  - intros fs before after Hne. apply should_exclude_inside_git.
    by apply inside_git_app.
  - intros source items fs fs' Hc H. apply clean_tree_nodes.
    apply clean_tree_nodes in Hc. by eapply clean_copy_tree.
Qed.

Lemma git_excluded_witness :
  let fs : filesystem :=
    <[ [py ".git"] := Dir ]>
    (<[ [py ".git"; py "config"] := File [Byte.x61] false ]>
    (<[ [py "scratchpads"] := Dir ]>
    (<[ [py "scratchpads"; py ".git"] := Dir ]>
    (<[ [py "scratchpads"; py ".git"; py ".gitignore"]
        := File [Byte.x2a] false ]>
    (<[ [py "main.py"] := File [Byte.x78] false ]> ∅))))) in
  let items : list path :=
    [ [py ".git"]; [py ".git"; py "config"]; [py "scratchpads"];
      [py "scratchpads"; py ".git"];
      [py "scratchpads"; py ".git"; py ".gitignore"]; [py "main.py"] ] in
  should_exclude fs [py ".git"] = true
  /\ should_exclude fs [py "scratchpads"; py ".git"; py ".gitignore"] = true
  /\ match copy_directory_structure (udb := ascii_db) [] items fs with
     | Ok fs' =>
         is_file fs' (TEMPLATE_ROOT ++ [py "main.py"]) = true
         /\ clean_tree fs'
     | Raise _ => False
     end.
Proof.
  intros fs items.
  destruct (git_excluded (udb := ascii_db)) as (Hdir & Hin & Htree).
  split; [|split].
  - apply Hdir; vm_compute; reflexivity.
  - apply (Hin fs [py "scratchpads"] [py ".gitignore"]). discriminate.
  - assert (match copy_directory_structure (udb := ascii_db) [] items fs with
            | Ok fs' => is_file fs' (TEMPLATE_ROOT ++ [py "main.py"]) = true
            | Raise _ => False
            end) as Hrun by (vm_compute; reflexivity).
    revert Hrun.
    destruct (copy_directory_structure (udb := ascii_db) [] items fs)
      as [fs'|e] eqn:E; [|done].
    intros Hrun. split; [exact Hrun|].
    apply (Htree [] items fs fs'); [|exact E].
    intros before after n Hn. unfold fs in Hn.
    repeat (rewrite lookup_insert_ne in Hn;
            [|intros E'; vm_compute in E'; discriminate E']).
    rewrite lookup_empty in Hn. discriminate Hn.
Defined.

(** C1, as stated, fails for a regular file named [.git] (the link file
    of a submodule or of a worktree): its path has a [.git] segment, the
    special-keep rule does not apply to it, it is not excluded, and the
    copier writes it into the output tree. *)
Lemma git_excluded_counterexample :
  let p := [py "vendor"; py ".git"] in
  let fs : filesystem :=
    <[ [py "vendor"] := Dir ]>
    (<[ p := File [Byte.x67; Byte.x69; Byte.x74] false ]> ∅) in
  elem_str (py ".git") p = true
  /\ is_file fs p = true
  /\ special_keep fs p = false
  /\ should_exclude fs p = false
  /\ match copy_directory_structure (udb := ascii_db) [] [[py "vendor"]; p]
             fs with
     | Ok fs' => is_file fs' (TEMPLATE_ROOT ++ p) = true
     | Raise _ => False
     end.
Proof.
  intros p fs. repeat split; vm_compute; reflexivity.
Qed.

(** C7, as stated, fails beneath a [.git] segment: the test of [.git]
    comes first, and a file named [.gitignore] there is excluded although
    [scratchpads] is among its segments. *)
Lemma scratchpads_only_gitignore_counterexample :
  let p := [py "scratchpads"; py ".git"; py ".gitignore"] in
  let fs : filesystem := <[ p := File [Byte.x2a] false ]> ∅ in
  elem_str (py "scratchpads") p = true
  /\ is_file fs p = true
  /\ path_name p = py ".gitignore"
  /\ should_exclude fs p = true.
Proof. repeat split; vm_compute; reflexivity. Qed.

(** * Further properties of the code *)

(** ** Path Classifier and Path Rewriter *)

(** X1: The loop over the set [EXCLUDE_PATTERNS] gives the same answer in
    whatever order the set is iterated. *)
Theorem exclude_loop_any_order (patterns : list str) (p : path) :
  Permutation EXCLUDE_PATTERNS patterns ->
  exclude_loop patterns p = exclude_loop EXCLUDE_PATTERNS p.
Proof. intros HP. symmetry. by apply exclude_loop_perm. Qed.

Lemma exclude_loop_any_order_witness :
  exclude_loop (rev EXCLUDE_PATTERNS) [py "pkg"; py "poetry.lock"]
  = exclude_loop EXCLUDE_PATTERNS [py "pkg"; py "poetry.lock"].
Proof.
  apply exclude_loop_any_order. apply Permutation_rev.
Defined.

Lemma should_exclude_hit (fs : filesystem) (p : path) (pattern : str) :
  In pattern EXCLUDE_PATTERNS -> pattern <> py ".git" ->
  special_keep fs p = false -> pattern_hits pattern p = true ->
  should_exclude fs p = true.
Proof.
  intros Hin Hne Hkeep Hm. unfold should_exclude.
  destruct (eqb_str (path_name p) (py ".git") && is_dir fs p); [done|].
  destruct (inside_git p); [done|].
  unfold special_keep in Hkeep.
  destruct (elem_str (py "scratchpads") p && is_file fs p); simpl in Hkeep.
  - by rewrite Hkeep.
  - by apply (exclude_loop_hit _ pattern).
Qed.

Lemma contains_refl_app (q v : str) : contains q (q ++ v) = true.
Proof.
  destruct q as [|c q]; [by destruct v|].
  change ((c :: q) ++ v) with (c :: (q ++ v)). rewrite contains_cons.
  change (c :: (q ++ v)) with ((c :: q) ++ v). by rewrite starts_with_app.
Qed.

Lemma contains_app_l (q a b : str) :
  contains q a = true -> contains q (a ++ b) = true.
Proof.
  intros H. apply contains_true_inv in H as (u & v & ->).
  rewrite <- !app_assoc. induction u as [|c u IH].
  - cbn [app]. apply contains_refl_app.
  - change ((c :: u) ++ q ++ v ++ b) with (c :: (u ++ q ++ v ++ b)).
    rewrite contains_cons, IH. apply orb_true_r.
Qed.

Lemma contains_app_suffix (q u : str) : contains q (u ++ q) = true.
Proof.
  induction u as [|c u IH].
  - cbn [app]. rewrite <- (app_nil_r q) at 2. apply contains_refl_app.
  - change ((c :: u) ++ q) with (c :: (u ++ q)).
    rewrite contains_cons, IH. apply orb_true_r.
Qed.

Lemma join_sep_cons (sep x y : str) (l : list str) :
  join_sep sep (x :: y :: l) = x ++ sep ++ join_sep sep (y :: l).
Proof. reflexivity. Qed.

Lemma join_sep_app (sep : str) (p rest : list str) :
  p <> [] -> rest <> [] ->
  join_sep sep (p ++ rest) = join_sep sep p ++ sep ++ join_sep sep rest.
Proof.
  intros Hp Hr. destruct rest as [|y rest]; [done|]. clear Hr.
  induction p as [|x p IH]; [done|]. destruct p as [|z p].
  - cbn [app]. by rewrite join_sep_cons.
  - change ((x :: z :: p) ++ y :: rest) with (x :: z :: (p ++ y :: rest)).
    rewrite !join_sep_cons.
    change (z :: (p ++ y :: rest)) with ((z :: p) ++ y :: rest).
    rewrite IH by done. by rewrite <- !app_assoc.
Qed.

Lemma path_str_app (p rest : path) :
  p <> [] -> rest <> [] ->
  path_str (p ++ rest) = path_str p ++ py "/" ++ path_str rest.
Proof.
  intros Hp Hr. destruct p as [|x p]; [done|].
  destruct rest as [|y rest]; [done|].
  exact (join_sep_app (py "/") (x :: p) (y :: rest) Hp Hr).
Qed.

Lemma path_str_name (p : path) :
  p <> [] -> exists u, path_str p = u ++ path_name p.
Proof.
  intros Hp. destruct p as [|x p] using rev_ind; [done|]. clear IHp.
  rewrite path_name_app. destruct p as [|y p].
  - by exists [].
  - rewrite path_str_app by done. exists (path_str (y :: p) ++ py "/").
    by rewrite <- app_assoc.
Qed.

(** A pattern that hits a path by substring or by name hits every path
    below it. *)
Lemma pattern_hits_below (pattern : str) (p rest : path) :
  p <> [] ->
  contains pattern (path_str p) = true \/ path_name p = pattern ->
  contains pattern (path_str (p ++ rest)) = true.
Proof.
  intros Hp H.
  assert (contains pattern (path_str p) = true) as Hc.
  { destruct H as [H|<-]; [done|].
    destruct (path_str_name p Hp) as [u ->]. apply contains_app_suffix. }
  destruct rest as [|y rest]; [by rewrite app_nil_r|].
  rewrite path_str_app by done. by apply contains_app_l.
Qed.

Lemma output_dir_excluded (fs : filesystem) (q : path) :
  special_keep fs (OUTPUT_DIR ++ q) = false ->
  should_exclude fs (OUTPUT_DIR ++ q) = true.
Proof.
  intros Hkeep.
  apply (should_exclude_hit fs _ (py "cookiecutter-output")); [| |done|].
  - apply elem_str_In. by vm_compute.
  - apply eqb_str_neq. by vm_compute.
  - unfold pattern_hits.
    rewrite (pattern_hits_below (py "cookiecutter-output") OUTPUT_DIR q);
      [done|done|by right].
Qed.

(** X2: Exclusion by a literal pattern is inherited: when a pattern other
    than [.git] is a substring of the string of a path or is its final
    segment, every path below it is excluded as well, unless the
    special-keep rule keeps it. *)
Theorem excluded_below_excluded (fs : filesystem) (p rest : path)
  (pattern : str) :
  In pattern EXCLUDE_PATTERNS ->
  pattern <> py ".git" ->
  p <> [] ->
  contains pattern (path_str p) = true \/ path_name p = pattern ->
  special_keep fs (p ++ rest) = false ->
  should_exclude fs (p ++ rest) = true.
Proof.
  intros Hin Hne Hp Hhit Hkeep.
  apply (should_exclude_hit fs _ pattern); [done..|].
  unfold pattern_hits. by rewrite (pattern_hits_below pattern p rest).
Qed.

Lemma excluded_below_excluded_witness :
  should_exclude ∅ [py "src"; py "__pycache__"; py "mod.cpython-312.opt"]
  = true.
Proof.
  apply (excluded_below_excluded ∅ [py "src"; py "__pycache__"]
           [py "mod.cpython-312.opt"] (py "__pycache__")).
  - apply elem_str_In. vm_compute. reflexivity.
  - apply eqb_str_neq. vm_compute. reflexivity.
  - discriminate.
  - right. vm_compute. reflexivity.
  - vm_compute. reflexivity.
Defined.

(** X3: The generator does not copy its own output: whatever
    [get_template_path] returns lies in [OUTPUT_DIR] and is itself
    excluded by [should_exclude], unless the special-keep rule keeps
    it. *)
Theorem destination_is_excluded (fs : filesystem) (rel dest : path) :
  get_template_path rel = Ok dest ->
  special_keep fs dest = false ->
  (exists q, dest = OUTPUT_DIR ++ q) /\ should_exclude fs dest = true.
Proof.
  intros Hd Hkeep.
  apply get_template_path_inv in Hd as (pre & parts & _ & _ & ->).
  split.
  - exists (py "{{cookiecutter.project_slug}}" :: List.map rename_part parts).
    done.
  - unfold TEMPLATE_ROOT in *. rewrite <- app_assoc in *.
    by apply output_dir_excluded.
Qed.

Lemma destination_is_excluded_witness :
  let dest := TEMPLATE_ROOT ++ [py "docs"; py "index.md"] in
  let fs : filesystem := <[ dest := File [Byte.x61] false ]> ∅ in
  get_template_path [py "docs"; py "index.md"] = Ok dest
  /\ should_exclude fs dest = true.
Proof.
  intros dest fs. split; [vm_compute; reflexivity|].
  destruct (destination_is_excluded fs [py "docs"; py "index.md"] dest)
    as [_ H]; [vm_compute; reflexivity..|exact H].
Defined.

(** X4: [get_template_path] raises, and then [IndexError], exactly on the
    path without segments; on every other path it returns a path below
    the template root with at most as many further segments. *)
Theorem get_template_path_total (source_path : path) :
  (source_path = [] /\ get_template_path source_path = Raise IndexError)
  \/ (source_path <> []
      /\ exists q, get_template_path source_path = Ok (TEMPLATE_ROOT ++ q)
                   /\ (length q <= length source_path)%nat).
Proof.
  destruct source_path as [|p0 rest]; [by left|]. right. split; [done|].
  unfold get_template_path.
  set (parts := if eqb_str p0 (py ".") then rest else p0 :: rest).
  exists (List.map rename_part parts). split.
  - destruct (List.map rename_part parts); [by rewrite app_nil_r|done].
  - rewrite length_map. unfold parts.
    destruct (eqb_str p0 (py ".")); simpl; lia.
Qed.

Lemma rename_part_inj (x y : str) :
  elem_str x rename_values = false -> elem_str y rename_values = false ->
  rename_part x = rename_part y -> x = y.
Proof.
  intros Hx Hy.
  assert (forall z, elem_str z rename_values = false ->
            rename_part z = z
            \/ (elem_str (rename_part z) rename_values = true
                /\ (z = py "template_core" \/ z = py "template_tools")))
    as Hcase.
  { intros z _. destruct (eqb_str z (py "template_core")) eqn:E1.
    { apply eqb_str_eq in E1. subst. right. split; [by vm_compute|by left]. }
    destruct (eqb_str z (py "template_tools")) eqn:E2.
    { apply eqb_str_eq in E2. subst. right. split; [by vm_compute|by right]. }
    left. apply rename_part_other; by apply eqb_str_neq. }
  intros E.
  destruct (Hcase x Hx) as [Hx'|[Hvx Hkx]], (Hcase y Hy) as [Hy'|[Hvy Hky]].
  - congruence.
  - rewrite Hx' in E. rewrite <- E in Hvy. congruence.
  - rewrite Hy' in E. rewrite E in Hvx. congruence.
  - destruct Hkx as [->| ->], Hky as [->| ->]; try done;
      vm_compute in E; discriminate E.
Qed.

(** X5: Two source paths are never rewritten to the same destination, as
    long as no segment of them already bears one of the renamed names
    of the Rename Table (and, as pathlib guarantees, they do not start
    with ['.']). *)
Theorem get_template_path_injective (p1 p2 dest : path) :
  head p1 <> Some (py ".") ->
  head p2 <> Some (py ".") ->
  forallb (fun x => negb (elem_str x rename_values)) (p1 ++ p2) = true ->
  get_template_path p1 = Ok dest ->
  get_template_path p2 = Ok dest ->
  p1 = p2.
Proof.
  intros H1 H2 Hv Hd1 Hd2.
  assert (forall p, head p <> Some (py ".") -> get_template_path p = Ok dest ->
            dest = TEMPLATE_ROOT ++ List.map rename_part p) as Hshape.
  { intros p Hp Hd. unfold get_template_path in Hd.
    destruct p as [|p0 rest]; [done|].
    assert (eqb_str p0 (py ".") = false) as Hp0.
    { apply eqb_str_neq. intros ->. by apply Hp. }
    rewrite Hp0 in Hd. by injection Hd as <-. }
  pose proof (Hshape _ H1 Hd1) as E1. pose proof (Hshape _ H2 Hd2) as E2.
  rewrite E1 in E2. apply app_inv_head in E2.
  rewrite forallb_app in Hv. apply andb_prop in Hv as [Hv1 Hv2].
  clear -E2 Hv1 Hv2. revert p2 E2 Hv2.
  induction p1 as [|x p1 IH]; intros [|y p2] E Hv2; try done.
  simpl in E, Hv1, Hv2. injection E as Exy E.
  apply andb_prop in Hv1 as [Hx Hv1]. apply andb_prop in Hv2 as [Hy Hv2].
  apply negb_true_iff in Hx, Hy. f_equal.
  - by apply rename_part_inj.
  - by apply IH.
Qed.

Lemma get_template_path_injective_witness :
  [py "template_core"; py "cli"] = [py "template_core"; py "cli"].
Proof.
  apply (get_template_path_injective [py "template_core"; py "cli"]
           [py "template_core"; py "cli"]
           (TEMPLATE_ROOT ++ [py "{{cookiecutter.project_slug}}_core";
                              py "cli"])).
  - intros E. vm_compute in E. discriminate E.
  - intros E. vm_compute in E. discriminate E.
  - vm_compute. reflexivity.
  - vm_compute. reflexivity.
  - vm_compute. reflexivity.
Defined.

(** Without that condition destinations do collide: a directory that is
    already named like a replacement meets the renamed one. *)
Lemma get_template_path_collision :
  get_template_path [py "template_core"; py "a.py"]
  = get_template_path [py "{{cookiecutter.project_slug}}_core"; py "a.py"].
Proof. vm_compute. reflexivity. Qed.

(** ** Content Transformer *)

(** X6: A file whose name no branch of the dispatch matches (none of the
    seven exact names, none of the four extensions) is returned
    unchanged, whatever its content. *)
Theorem unmatched_name_unchanged {udb : UnicodeDB}
  (content : str) (filepath : path) :
  existsb (eqb_str (path_name filepath))
    [py "pyproject.toml"; py ".env"; py "devcontainer.json";
     py "compose.yaml"; py "pre-commit"; py "README.md";
     py ".pre-commit-config.yaml"] = false ->
  existsb (fun ext => ends_with ext (path_name filepath))
    [py ".sh"; py ".py"; py ".yml"; py ".yaml"] = false ->
  process_text_content content filepath = content.
Proof.
  intros H1 H2. unfold process_text_content.
  simpl in H1, H2.
  repeat match type of H1 with
  | _ || _ = false => apply orb_false_elim in H1 as [?E H1]
  end.
  repeat match type of H2 with
  | _ || _ = false => apply orb_false_elim in H2 as [?F H2]
  end.
  cbv zeta. by rewrite E, E0, E1, E2, E3, E4, E5, F, F0, F1, F2.
Qed.

Lemma unmatched_name_unchanged_witness :
  process_text_content (udb := ascii_db)
    (py "template_core /home/klapaucius/ ${{ x }} ${#")
    [py "docs"; py "notes.txt"]
  = py "template_core /home/klapaucius/ ${{ x }} ${#".
Proof.
  apply (unmatched_name_unchanged (udb := ascii_db));
    vm_compute; reflexivity.
Defined.

Section Characters.
Context {udb : UnicodeDB}.
Variable P : N -> Prop.
Hypothesis P_printable : forall c, printable c = true -> P c.

Lemma printable_Forall (s : str) : forallb printable s = true -> Forall P s.
Proof.
  induction s as [|c s IH]; [constructor|]. simpl.
  intros [Hc Hs]%andb_prop. constructor; [by apply P_printable|by apply IH].
Qed.

Lemma sub_loop_Forall (fuel : nat) (re : regex) (repl : str)
  (prev : option N) (s : str) :
  Forall P repl -> Forall P s -> Forall P (sub_loop fuel re repl prev s).
Proof.
  intros Hr. revert prev s.
  induction fuel as [|fuel IH]; intros prev s Hs; [done|].
  rewrite sub_loop_S.
  destruct (match_here re prev s) as [[prev' rest]|] eqn:Em.
  - destruct (match_here_suffix _ _ _ _ _ Em) as [u ->].
    apply Forall_app in Hs as [Hu Hrest].
    destruct (Nat.ltb _ _).
    + apply Forall_app. split; [done|by apply IH].
    + destruct (u ++ rest) as [|c t] eqn:Eu; [done|].
      apply Forall_app. split; [done|].
      assert (Forall P (c :: t)) as Hct.
      { rewrite <- Eu. by apply Forall_app. }
      inversion Hct; subst. constructor; [done|by apply IH].
  - destruct s as [|c s]; [done|]. inversion Hs; subst.
    constructor; [done|by apply IH].
Qed.

Lemma re_sub_Forall (re : regex) (repl s : str) :
  forallb printable repl = true -> Forall P s -> Forall P (re_sub re repl s).
Proof.
  intros Hr Hs. apply sub_loop_Forall; [by apply printable_Forall|done].
Qed.

Lemma replace_loop_Forall (fuel : nat) (old new s : str) :
  Forall P new -> Forall P s -> Forall P (replace_loop fuel old new s).
Proof.
  intros Hn. revert s. induction fuel as [|fuel IH]; intros s Hs; [done|].
  rewrite replace_loop_S. destruct (starts_with old s).
  - apply Forall_app. split; [done|]. apply IH.
    rewrite <- (take_drop (length old) s) in Hs.
    by apply Forall_app in Hs as [_ Hd].
  - destruct s as [|c s]; [done|]. inversion Hs; subst.
    constructor; [done|by apply IH].
Qed.

Lemma str_replace_Forall (old new s : str) :
  forallb printable new = true -> Forall P s ->
  Forall P (str_replace old new s).
Proof.
  intros Hn%printable_Forall Hs. unfold str_replace.
  destruct old as [|x old]; [|by apply replace_loop_Forall].
  induction s as [|c s IH]; simpl.
  - by rewrite app_nil_r.
  - inversion Hs; subst. apply Forall_app. split; [done|].
    constructor; [done|by apply IH].
Qed.

Lemma raw_wrap_Forall (s : str) : Forall P s -> Forall P (raw_wrap s).
Proof.
  intros Hs. unfold raw_wrap. apply Forall_app. split;
    [by apply printable_Forall; vm_compute|].
  apply Forall_app. split; [done|by apply printable_Forall; vm_compute].
Qed.

(** Whatever the transformer puts into a text is printable ASCII: a
    property of characters that holds of the printable ASCII characters
    and of every character of the content holds of every character of
    the result. *)
Lemma process_text_content_Forall (content : str) (filepath : path) :
  Forall P content -> Forall P (process_text_content content filepath).
Proof.
  intros Hc. unfold process_text_content. cbv zeta.
  repeat match goal with
  | |- Forall P content => exact Hc
  | |- Forall P (if ?b then _ else _) => destruct b
  | |- Forall P (re_sub _ _ _) => apply re_sub_Forall; [by vm_compute|]
  | |- Forall P (str_replace _ _ _) =>
      apply str_replace_Forall; [by vm_compute|]
  | |- Forall P (raw_wrap _) => apply raw_wrap_Forall
  end.
Qed.

End Characters.

(** X7: The transformer inserts printable ASCII only: every character of
    the result is a character of the content or a printable ASCII
    character (so it adds no line break, no control character and no
    character above ASCII). *)
Theorem transformer_inserts_printable {udb : UnicodeDB}
  (content : str) (filepath : path) :
  Forall (fun c => In c content \/ printable c = true)
    (process_text_content content filepath).
Proof.
  apply process_text_content_Forall.
  - intros c Hc. by right.
  - apply Forall_forall. intros c Hc. left. by apply list_elem_of_In.
Qed.

(** ** UTF-8 and newlines *)

Ltac to_prop :=
  repeat rewrite ?andb_true_iff, ?orb_true_iff, ?andb_false_iff,
    ?N.leb_le, ?N.leb_gt, ?N.ltb_lt, ?N.ltb_ge, ?N.eqb_eq, ?N.eqb_neq in *.

Ltac arith := to_prop; zify; Z.to_euclidean_division_equations; lia.

Lemma byte_of_to_N (b : Byte.byte) : byte_of (Byte.to_N b) = b.
Proof. unfold byte_of. by rewrite Byte.of_to_N. Qed.

Lemma utf8_decode_cons (b0 : Byte.byte) (r0 : list Byte.byte) :
  utf8_decode (b0 :: r0)
  = let n0 := Byte.to_N b0 in
    if n0 <? 128 then cons n0 <$> utf8_decode r0
    else if in_range 194 223 n0 then
      match r0 with
      | b1 :: r1 =>
          let n1 := Byte.to_N b1 in
          if is_cont n1
          then cons ((n0 - 192) * 64 + (n1 - 128)) <$> utf8_decode r1
          else None
      | _ => None
      end
    else if in_range 224 239 n0 then
      match r0 with
      | b1 :: b2 :: r2 =>
          let n1 := Byte.to_N b1 in
          let n2 := Byte.to_N b2 in
          let lo := if n0 =? 224 then 160 else 128 in
          let hi := if n0 =? 237 then 159 else 191 in
          if in_range lo hi n1 && is_cont n2
          then cons ((n0 - 224) * 4096 + (n1 - 128) * 64 + (n2 - 128))
                 <$> utf8_decode r2
          else None
      | _ => None
      end
    else if in_range 240 244 n0 then
      match r0 with
      | b1 :: b2 :: b3 :: r3 =>
          let n1 := Byte.to_N b1 in
          let n2 := Byte.to_N b2 in
          let n3 := Byte.to_N b3 in
          let lo := if n0 =? 240 then 144 else 128 in
          let hi := if n0 =? 244 then 143 else 191 in
          if in_range lo hi n1 && is_cont n2 && is_cont n3
          then cons ((n0 - 240) * 262144 + (n1 - 128) * 4096
                     + (n2 - 128) * 64 + (n3 - 128))
                 <$> utf8_decode r3
          else None
      | _ => None
      end
    else None.
Proof. reflexivity. Qed.

(** One step of the decoder: the first character, the bytes that encode
    it, and the rest. *)
Lemma utf8_decode_step (bs : list Byte.byte) (s : str) :
  utf8_decode bs = Some s ->
  (bs = [] /\ s = [])
  \/ exists c enc rest s',
       bs = enc ++ rest /\ enc <> [] /\ s = c :: s'
       /\ utf8_decode rest = Some s'
       /\ utf8_encode_char c = Some enc
       /\ valid_scalar c = true.
Proof.
  destruct bs as [|b0 r0]; [intros [= <-]; by left|]. intros H. right.
  rewrite utf8_decode_cons in H. cbv zeta in H.
  set (n0 := Byte.to_N b0) in *.
  assert (byte_of n0 = b0) as Hb0 by apply byte_of_to_N.
  destruct (n0 <? 128) eqn:E0.
  { destruct (utf8_decode r0) as [s'|] eqn:Er; [|done]. injection H as <-.
    exists n0, [b0], r0, s'. repeat split; try done.
    - unfold utf8_encode_char. by rewrite E0, Hb0.
    - unfold valid_scalar. arith. }
  destruct (in_range 194 223 n0) eqn:E1.
  { destruct r0 as [|b1 r1]; [done|].
    set (n1 := Byte.to_N b1) in *.
    assert (byte_of n1 = b1) as Hb1 by apply byte_of_to_N.
    destruct (is_cont n1) eqn:C1; [|done].
    destruct (utf8_decode r1) as [s'|] eqn:Er; [|done]. injection H as <-.
    exists ((n0 - 192) * 64 + (n1 - 128)), [b0; b1], r1, s'.
    unfold in_range, is_cont in *.
    repeat split; try done.
    - unfold utf8_encode_char.
      replace (_ <? 128) with false by (symmetry; arith).
      replace (_ <? 2048) with true by (symmetry; arith).
      replace (192 + _ / 64) with n0 by arith.
      replace (128 + _ mod 64) with n1 by arith.
      by rewrite Hb0, Hb1.
    - unfold valid_scalar. arith. }
  destruct (in_range 224 239 n0) eqn:E2.
  { destruct r0 as [|b1 [|b2 r2]]; [done..|].
    set (n1 := Byte.to_N b1) in *. set (n2 := Byte.to_N b2) in *.
    assert (byte_of n1 = b1) as Hb1 by apply byte_of_to_N.
    assert (byte_of n2 = b2) as Hb2 by apply byte_of_to_N.
    match type of H with
    | (if ?b then _ else _) = _ => destruct b eqn:C1; [|done]
    end.
    destruct (utf8_decode r2) as [s'|] eqn:Er; [|done]. injection H as <-.
    exists ((n0 - 224) * 4096 + (n1 - 128) * 64 + (n2 - 128)),
      [b0; b1; b2], r2, s'.
    unfold in_range, is_cont in *.
    assert (valid_scalar ((n0 - 224) * 4096 + (n1 - 128) * 64 + (n2 - 128))
            = true) as Hv.
    { unfold valid_scalar.
      destruct (n0 =? 224) eqn:Ea, (n0 =? 237) eqn:Eb; arith. }
    repeat split; try done.
    unfold utf8_encode_char, in_range.
    replace (_ <? 128) with false
      by (symmetry; destruct (n0 =? 224) eqn:Ea, (n0 =? 237) eqn:Eb; arith).
    replace (_ <? 2048) with false
      by (symmetry; destruct (n0 =? 224) eqn:Ea, (n0 =? 237) eqn:Eb; arith).
    replace (_ <? 65536) with true
      by (symmetry; destruct (n0 =? 224) eqn:Ea, (n0 =? 237) eqn:Eb; arith).
    replace ((55296 <=? _) && (_ <=? 57343)) with false
      by (symmetry; unfold valid_scalar in Hv;
          destruct (n0 =? 224) eqn:Ea, (n0 =? 237) eqn:Eb; arith).
    replace (224 + _ / 4096) with n0
      by (destruct (n0 =? 224) eqn:Ea, (n0 =? 237) eqn:Eb; arith).
    replace (128 + (_ / 64) mod 64) with n1
      by (destruct (n0 =? 224) eqn:Ea, (n0 =? 237) eqn:Eb; arith).
    replace (128 + _ mod 64) with n2
      by (destruct (n0 =? 224) eqn:Ea, (n0 =? 237) eqn:Eb; arith).
    by rewrite Hb0, Hb1, Hb2. }
  destruct (in_range 240 244 n0) eqn:E3; [|done].
  destruct r0 as [|b1 [|b2 [|b3 r3]]]; [done..|].
  set (n1 := Byte.to_N b1) in *. set (n2 := Byte.to_N b2) in *.
  set (n3 := Byte.to_N b3) in *.
  assert (byte_of n1 = b1) as Hb1 by apply byte_of_to_N.
  assert (byte_of n2 = b2) as Hb2 by apply byte_of_to_N.
  assert (byte_of n3 = b3) as Hb3 by apply byte_of_to_N.
  match type of H with
  | (if ?b then _ else _) = _ => destruct b eqn:C1; [|done]
  end.
  destruct (utf8_decode r3) as [s'|] eqn:Er; [|done]. injection H as <-.
  exists ((n0 - 240) * 262144 + (n1 - 128) * 4096 + (n2 - 128) * 64
          + (n3 - 128)), [b0; b1; b2; b3], r3, s'.
  unfold in_range, is_cont in *.
  repeat split; try done.
  - unfold utf8_encode_char.
    replace (_ <? 128) with false
      by (symmetry; destruct (n0 =? 240) eqn:Ea, (n0 =? 244) eqn:Eb; arith).
    replace (_ <? 2048) with false
      by (symmetry; destruct (n0 =? 240) eqn:Ea, (n0 =? 244) eqn:Eb; arith).
    replace (_ <? 65536) with false
      by (symmetry; destruct (n0 =? 240) eqn:Ea, (n0 =? 244) eqn:Eb; arith).
    replace (_ <? 1114112) with true
      by (symmetry; destruct (n0 =? 240) eqn:Ea, (n0 =? 244) eqn:Eb; arith).
    replace (240 + _ / 262144) with n0
      by (destruct (n0 =? 240) eqn:Ea, (n0 =? 244) eqn:Eb; arith).
    replace (128 + (_ / 4096) mod 64) with n1
      by (destruct (n0 =? 240) eqn:Ea, (n0 =? 244) eqn:Eb; arith).
    replace (128 + (_ / 64) mod 64) with n2
      by (destruct (n0 =? 240) eqn:Ea, (n0 =? 244) eqn:Eb; arith).
    replace (128 + _ mod 64) with n3
      by (destruct (n0 =? 240) eqn:Ea, (n0 =? 244) eqn:Eb; arith).
    by rewrite Hb0, Hb1, Hb2, Hb3.
  - unfold valid_scalar.
    destruct (n0 =? 240) eqn:Ea, (n0 =? 244) eqn:Eb; arith.
Qed.

Lemma utf8_encode_cons (c : N) (s : str) (enc rest : list Byte.byte) :
  utf8_encode_char c = Some enc -> utf8_encode s = Some rest ->
  utf8_encode (c :: s) = Some (enc ++ rest).
Proof. intros Hc Hs. simpl. by rewrite Hc, Hs. Qed.

(** What the strict decoder accepts is encoded back to the same bytes,
    and consists of Unicode scalar values. *)
Lemma utf8_decode_sound (bs : list Byte.byte) (s : str) :
  utf8_decode bs = Some s ->
  utf8_encode s = Some bs /\ forallb valid_scalar s = true.
Proof.
  remember (length bs) as n eqn:Hn. revert bs s Hn.
  induction n as [n IH] using lt_wf_ind. intros bs s Hn H.
  apply utf8_decode_step in H
    as [[-> ->]|(c & enc & rest & s' & -> & Hne & -> & Hr & Hc & Hv)];
    [done|].
  destruct (IH (length rest)) with (bs := rest) (s := s') as [He Hs];
    [|done|done|].
  - rewrite Hn, length_app. destruct enc; [done|]. simpl. lia.
  - split; [by apply utf8_encode_cons|]. simpl. by rewrite Hv, Hs.
Qed.

Lemma utf8_encode_char_valid (c : N) :
  valid_scalar c = true -> is_Some (utf8_encode_char c).
Proof.
  unfold valid_scalar, utf8_encode_char, in_range. intros Hv.
  destruct (c <? 128); [done|]. destruct (c <? 2048); [done|].
  destruct (c <? 65536) eqn:E3.
  - destruct ((55296 <=? c) && (c <=? 57343)) eqn:E4; [|done]. arith.
  - destruct (c <? 1114112) eqn:E5; [done|]. arith.
Qed.

Lemma utf8_encode_valid (s : str) :
  forallb valid_scalar s = true -> is_Some (utf8_encode s).
Proof.
  induction s as [|c s IH]; [done|]. simpl.
  intros [Hc Hs]%andb_prop.
  destruct (utf8_encode_char_valid c Hc) as [enc ->].
  by destruct (IH Hs) as [rest ->].
Qed.

Lemma universal_newlines_cons (c : N) (s : str) :
  universal_newlines (c :: s)
  = if c =? 13 then
      match s with
      | d :: s'' =>
          if d =? 10 then 10 :: universal_newlines s''
          else 10 :: universal_newlines s
      | [] => [10]
      end
    else c :: universal_newlines s.
Proof. reflexivity. Qed.

Lemma universal_newlines_Forall (P : N -> Prop) (s : str) :
  P 10 -> Forall P s -> Forall P (universal_newlines s).
Proof.
  intros H10. remember (length s) as n eqn:Hn. revert s Hn.
  induction n as [n IH] using lt_wf_ind. intros s Hn Hs.
  destruct s as [|c s]; [done|]. rewrite universal_newlines_cons.
  inversion Hs as [|? ? Hc Hs']; subst.
  destruct (c =? 13).
  - destruct s as [|d s]; [by repeat constructor|].
    inversion Hs' as [|? ? Hd Hs'']; subst.
    destruct (d =? 10); constructor; try done.
    + apply (IH (length s)); [simpl; lia|done..].
    + apply (IH (length (d :: s))); [simpl; lia|done..].
  - constructor; [done|]. apply (IH (length s)); [simpl; lia|done..].
Qed.

(** Reading in text mode leaves no carriage return. *)
Lemma universal_newlines_no_cr (s : str) :
  Forall (fun c => c <> 13) (universal_newlines s).
Proof.
  remember (length s) as n eqn:Hn. revert s Hn.
  induction n as [n IH] using lt_wf_ind. intros s Hn.
  destruct s as [|c s]; [done|]. rewrite universal_newlines_cons.
  destruct (c =? 13) eqn:E.
  - destruct s as [|d s]; [by repeat constructor|].
    destruct (d =? 10); constructor; try done.
    + apply (IH (length s)); [simpl in *; lia|done].
    + apply (IH (length (d :: s))); [simpl in *; lia|done].
  - constructor; [by apply N.eqb_neq|].
    apply (IH (length s)); [simpl in *; lia|done].
Qed.

Lemma universal_newlines_id (s : str) :
  count_char 13 s = 0%nat -> universal_newlines s = s.
Proof.
  induction s as [|c s IH]; [done|]. rewrite universal_newlines_cons.
  simpl. destruct (c =? 13); [done|]. intros H. f_equal. by apply IH.
Qed.

Lemma forallb_Forall_valid (s : str) :
  forallb valid_scalar s = true <-> Forall (fun c => valid_scalar c = true) s.
Proof.
  induction s as [|c s IH]; simpl.
  - split; [constructor|done].
  - rewrite andb_true_iff, IH. split.
    + intros [Hc Hs]. by constructor.
    + intros H. by inversion H.
Qed.

Section TextCopy.
Context {udb : UnicodeDB}.

(** The text read from a decodable file, once transformed, can always
    be encoded. *)
Lemma processed_text_encodes (bytes : list Byte.byte) (s : str)
  (filepath : path) :
  utf8_decode bytes = Some s ->
  is_Some (utf8_encode (process_text_content (universal_newlines s) filepath)).
Proof.
  intros Hd. apply utf8_decode_sound in Hd as [_ Hv].
  apply utf8_encode_valid, forallb_Forall_valid.
  apply process_text_content_Forall.
  - intros c Hc. unfold printable, valid_scalar in *. arith.
  - apply universal_newlines_Forall; [done|]. by apply forallb_Forall_valid.
Qed.

Lemma mkdir_chain_raises (fs : filesystem) (made todo : path) (e : exn) :
  mkdir_chain fs made todo = Raise e ->
  e = FileExistsError \/ e = NotADirectoryError.
Proof.
  revert fs made. induction todo as [|seg rest IH]; intros fs made H.
  - discriminate H.
  - simpl in H. destruct (fs !! (made ++ [seg])) as [[bytes x|]|]; eauto.
    injection H as <-. destruct rest; auto.
Qed.

Lemma create_error_kind (fs : filesystem) (d : path) (e : exn) :
  create_error fs d = Some e ->
  e = NotADirectoryError \/ e = FileNotFoundError.
Proof.
  unfold create_error.
  destruct (fs_node fs (path_parent d)) as [[bytes x|]|]; intros [= <-]; auto.
Qed.

Lemma copy2_raises (fs : filesystem) (source dest : path) (e : exn) :
  copy2 fs source dest = Raise e ->
  e <> UnicodeDecodeError /\ e <> UnicodeEncodeError.
Proof.
  unfold copy2. intros H.
  destruct (fs_node fs source) as [[bytes x|]|].
  - destruct (bool_decide _); [by injection H as <-|].
    destruct (fs_node fs _) as [[old y|]|]; [done|by injection H as <-|].
    destruct (create_error fs _) as [e'|] eqn:Ec; [|done].
    injection H as <-. by apply create_error_kind in Ec as [-> | ->].
  - injection H as <-. by destruct source, dest.
  - by injection H as <-.
Qed.

End TextCopy.

Lemma byte_of_cr (n : N) : byte_of n = Byte.x0d -> n = 13.
Proof.
  unfold byte_of. destruct (Byte.of_N n) as [b|] eqn:E; [|done].
  intros ->. by apply Byte.to_of_N in E.
Qed.

Lemma utf8_encode_char_no_cr (c : N) (enc : list Byte.byte) :
  utf8_encode_char c = Some enc -> c <> 13 ->
  Forall (fun b => b <> Byte.x0d) enc.
Proof.
  unfold utf8_encode_char. intros H Hc.
  destruct (c <? 128) eqn:E1.
  { injection H as <-. repeat constructor. by intros ->%byte_of_cr. }
  destruct (c <? 2048) eqn:E2.
  { injection H as <-.
    repeat constructor; intros E%byte_of_cr; revert E; arith. }
  destruct (c <? 65536) eqn:E3.
  { destruct (in_range 55296 57343 c); [done|]. injection H as <-.
    repeat constructor; intros E%byte_of_cr; revert E; arith. }
  destruct (c <? 1114112) eqn:E4; [|done]. injection H as <-.
  repeat constructor; intros E%byte_of_cr; revert E; arith.
Qed.

Lemma utf8_encode_no_cr (s : str) (out : list Byte.byte) :
  utf8_encode s = Some out -> Forall (fun c => c <> 13) s ->
  Forall (fun b => b <> Byte.x0d) out.
Proof.
  revert out. induction s as [|c s IH]; intros out H Hs.
  - injection H as <-. constructor.
  - simpl in H. destruct (utf8_encode_char c) as [enc|] eqn:Ec; [|done].
    destruct (utf8_encode s) as [rest|] eqn:Er; [|done]. injection H as <-.
    inversion Hs; subst. apply Forall_app. split.
    + by eapply utf8_encode_char_no_cr.
    + by apply IH.
Qed.

Section TextFile.
Context {udb : UnicodeDB}.

(** The text path of [copy_and_process_file], once the text is known to
    encode. *)
Lemma copy_text_file (fs fs1 : filesystem) (source dest : path)
  (bytes out : list Byte.byte) (x : bool) (s : str) :
  fs_node fs source = Some (File bytes x) ->
  utf8_decode bytes = Some s ->
  utf8_encode (process_text_content (universal_newlines s) source)
  = Some out ->
  mkdir_parents fs (path_parent dest) = Ok fs1 ->
  is_dir fs1 dest = false ->
  source <> dest ->
  copy_and_process_file fs source dest
  = Ok (<[dest := File out (x || access_x fs1 dest)]> fs1).
Proof.
  intros Hs Hdec Hout Hm Hd Hne.
  pose proof (mkdir_parents_node _ _ _ _ _ Hm Hs) as Hs1.
  assert (source <> []) as Hsne by (by intros ->).
  assert (dest <> []) as Hdne by (by intros ->).
  unfold copy_and_process_file. rewrite Hm. simpl.
  unfold copy_as_text, read_text. rewrite Hs1, Hdec. simpl.
  assert (forall y, fs_node (<[dest := File out y]> fs1) source
                    = Some (File bytes x)) as Hsrc.
  { intros y. rewrite fs_node_lookup, lookup_insert_ne by done.
    by rewrite <- fs_node_lookup. }
  assert (forall y,
            (if access_x (<[dest := File out y]> fs1) source
             then chmod_x (<[dest := File out y]> fs1) dest
             else <[dest := File out y]> fs1)
            = <[dest := File out (x || y)]> fs1) as Hflag.
  { intros y. unfold access_x. rewrite Hsrc. destruct x; [|done].
    unfold chmod_x. rewrite lookup_insert_eq. by rewrite insert_insert_eq. }
  unfold write_text, access_x, is_dir in *.
  destruct (fs_node fs1 dest) as [[old y|]|] eqn:Et; [|done|].
  - rewrite Hout. simpl. by rewrite Hflag.
  - unfold create_error. rewrite (mkdir_parents_is_dir _ _ _ Hm).
    rewrite Hout. simpl. by rewrite Hflag.
Qed.

Lemma copy_as_text_raises (fs : filesystem) (source dest : path) (e : exn) :
  copy_as_text fs source dest = Raise e -> e <> UnicodeEncodeError.
Proof.
  unfold copy_as_text, read_text.
  destruct (fs_node fs source) as [[bytes x|]|]; [|by intros [= <-]..].
  destruct (utf8_decode bytes) as [s|] eqn:Hdec; [|by intros [= <-]].
  simpl. destruct (processed_text_encodes bytes s source Hdec) as [out Hout].
  unfold write_text. rewrite Hout.
  destruct (fs_node fs dest) as [[old y|]|]; [done|by intros [= <-]|].
  destruct (create_error fs dest) as [e'|] eqn:Ec; [|done].
  simpl. intros [= <-]. by apply create_error_kind in Ec as [-> | ->].
Qed.

End TextFile.

(** X8: A decodable file is copied as text: its bytes are decoded, line ends
    are normalised to ['\n'], the transformer is applied, and the result,
    which can always be encoded, is written to the destination; the
    destination is executable when the source is (or when it was
    before). *)
Theorem text_copied_transformed {udb : UnicodeDB} (fs fs1 : filesystem)
  (source dest : path) (bytes : list Byte.byte) (x : bool) (s : str) :
  fs_node fs source = Some (File bytes x) ->
  utf8_decode bytes = Some s ->
  mkdir_parents fs (path_parent dest) = Ok fs1 ->
  is_dir fs1 dest = false ->
  source <> dest ->
  exists out,
    utf8_encode (process_text_content (universal_newlines s) source)
    = Some out
    /\ copy_and_process_file fs source dest
       = Ok (<[dest := File out (x || access_x fs1 dest)]> fs1).
Proof.
  intros Hs Hdec Hm Hd Hne.
  destruct (processed_text_encodes bytes s source Hdec) as [out Hout].
  exists out. split; [exact Hout|].
  by apply (copy_text_file fs fs1 source dest bytes out x s).
Qed.

Lemma text_copied_transformed_witness :
  let source := [py "run.sh"] in
  let dest := TEMPLATE_ROOT ++ source in
  let fs : filesystem :=
    <[ source := File [Byte.x24; Byte.x7b; Byte.x23; Byte.x0d; Byte.x0a] true ]>
    ∅ in
  match copy_and_process_file (udb := ascii_db) fs source dest with
  | Ok fs' =>
      fs' !! dest
      = Some (File [Byte.x7b; Byte.x7b; Byte.x20; Byte.x27; Byte.x24;
                    Byte.x7b; Byte.x23; Byte.x27; Byte.x20; Byte.x7d;
                    Byte.x7d; Byte.x0a] true)
  | Raise _ => False
  end.
Proof.
  intros source dest fs.
  assert (match mkdir_parents fs (path_parent dest) with
          | Ok fs1 => is_dir fs1 dest = false /\ access_x fs1 dest = false
          | Raise _ => False
          end) as Hdir by (vm_compute; split; reflexivity).
  revert Hdir.
  destruct (mkdir_parents fs (path_parent dest)) as [fs1|e] eqn:Em; [|done].
  intros [Hdir Hacc].
  destruct (text_copied_transformed (udb := ascii_db) fs fs1 source dest
              [Byte.x24; Byte.x7b; Byte.x23; Byte.x0d; Byte.x0a] true
              [36; 123; 35; 13; 10]) as (out & Hout & Hcopy).
  - vm_compute. reflexivity.
  - vm_compute. reflexivity.
  - exact Em.
  - exact Hdir.
  - intros E. vm_compute in E. discriminate E.
  - rewrite Hcopy, lookup_insert_eq. vm_compute in Hout.
    injection Hout as <-. reflexivity.
Defined.

(** X9: A decodable file without carriage return whose text the transformer
    leaves as it is arrives byte for byte at the destination. *)
Theorem text_copied_verbatim {udb : UnicodeDB} (fs fs1 : filesystem)
  (source dest : path) (bytes : list Byte.byte) (x : bool) (s : str) :
  fs_node fs source = Some (File bytes x) ->
  utf8_decode bytes = Some s ->
  count_char 13 s = 0%nat ->
  process_text_content s source = s ->
  mkdir_parents fs (path_parent dest) = Ok fs1 ->
  is_dir fs1 dest = false ->
  source <> dest ->
  copy_and_process_file fs source dest
  = Ok (<[dest := File bytes (x || access_x fs1 dest)]> fs1).
Proof.
  intros Hs Hdec Hcr Hid Hm Hd Hne.
  destruct (processed_text_encodes bytes s source Hdec) as [out Hout].
  rewrite (copy_text_file fs fs1 source dest bytes out x s) by done.
  rewrite (universal_newlines_id s Hcr), Hid in Hout.
  apply utf8_decode_sound in Hdec as [Henc _]. congruence.
Qed.

Lemma text_copied_verbatim_witness :
  let source := [py "LICENSE"] in
  let dest := TEMPLATE_ROOT ++ source in
  let bytes := [Byte.x4d; Byte.x49; Byte.x54; Byte.xc2; Byte.xa9; Byte.x0a] in
  let fs : filesystem := <[ source := File bytes false ]> ∅ in
  match copy_and_process_file (udb := ascii_db) fs source dest with
  | Ok fs' => fs' !! dest = Some (File bytes false)
  | Raise _ => False
  end.
Proof.
  intros source dest bytes fs.
  assert (match mkdir_parents fs (path_parent dest) with
          | Ok fs1 => is_dir fs1 dest = false /\ access_x fs1 dest = false
          | Raise _ => False
          end) as Hdir by (vm_compute; split; reflexivity).
  revert Hdir.
  destruct (mkdir_parents fs (path_parent dest)) as [fs1|e] eqn:Em; [|done].
  intros [Hdir Hacc].
  rewrite (text_copied_verbatim (udb := ascii_db) fs fs1 source dest bytes
             false [77; 73; 84; 169; 10]).
  - rewrite lookup_insert_eq, Hacc. reflexivity.
  - vm_compute. reflexivity.
  - vm_compute. reflexivity.
  - vm_compute. reflexivity.
  - vm_compute. reflexivity.
  - exact Em.
  - exact Hdir.
  - intros E. vm_compute in E. discriminate E.
Defined.

(** X10: [copy_and_process_file] never fails with a Unicode error: a decoding
    error is the signal for the raw copy, and what the text path writes
    can always be encoded. *)
Theorem copy_never_unicode_error {udb : UnicodeDB} (fs : filesystem)
  (source dest : path) :
  copy_and_process_file fs source dest <> Raise UnicodeDecodeError
  /\ copy_and_process_file fs source dest <> Raise UnicodeEncodeError.
Proof.
  assert (forall e, copy_and_process_file fs source dest = Raise e ->
            e <> UnicodeDecodeError /\ e <> UnicodeEncodeError) as H.
  { intros e. unfold copy_and_process_file.
    destruct (mkdir_parents fs (path_parent dest)) as [fs1|e'] eqn:Em.
    - simpl. destruct (copy_as_text fs1 source dest) as [fs2|e'] eqn:Et;
        [done|].
      pose proof (copy_as_text_raises _ _ _ _ Et) as He'.
      destruct e'; try (intros [= <-]; by split); try done;
        apply copy2_raises.
    - simpl. intros [= <-].
      by apply mkdir_chain_raises in Em as [-> | ->]. }
  split; intros E; by destruct (H _ E).
Qed.

(** X11: No carriage return reaches a file that is copied as text: the bytes
    written contain no [0x0D]. *)
Theorem text_copy_has_no_cr {udb : UnicodeDB} (fs fs1 : filesystem)
  (source dest : path) (bytes : list Byte.byte) (x : bool) (s : str) :
  fs_node fs source = Some (File bytes x) ->
  utf8_decode bytes = Some s ->
  mkdir_parents fs (path_parent dest) = Ok fs1 ->
  is_dir fs1 dest = false ->
  source <> dest ->
  exists out flag,
    copy_and_process_file fs source dest = Ok (<[dest := File out flag]> fs1)
    /\ Forall (fun b => b <> Byte.x0d) out.
Proof.
  intros Hs Hdec Hm Hd Hne.
  destruct (processed_text_encodes bytes s source Hdec) as [out Hout].
  exists out, (x || access_x fs1 dest).
  split; [by apply (copy_text_file fs fs1 source dest bytes out x s)|].
  apply (utf8_encode_no_cr _ _ Hout).
  apply process_text_content_Forall.
  - intros c Hc. unfold printable in Hc. arith.
  - apply universal_newlines_no_cr.
Qed.

Lemma text_copy_has_no_cr_witness :
  let source := [py "notes.txt"] in
  let dest := TEMPLATE_ROOT ++ source in
  let fs : filesystem :=
    <[ source := File [Byte.x61; Byte.x0d; Byte.x0a; Byte.x62; Byte.x0d] false ]>
    ∅ in
  match mkdir_parents fs (path_parent dest) with
  | Ok fs1 =>
      exists out flag,
        copy_and_process_file (udb := ascii_db) fs source dest
        = Ok (<[dest := File out flag]> fs1)
        /\ Forall (fun b => b <> Byte.x0d) out
  | Raise _ => False
  end.
Proof.
  intros source dest fs.
  assert (match mkdir_parents fs (path_parent dest) with
          | Ok fs1 => is_dir fs1 dest = false
          | Raise _ => False
          end) as Hdir by (vm_compute; reflexivity).
  revert Hdir.
  destruct (mkdir_parents fs (path_parent dest)) as [fs1|e] eqn:Em; [|done].
  intros Hdir.
  apply (text_copy_has_no_cr (udb := ascii_db) fs fs1 source dest
           [Byte.x61; Byte.x0d; Byte.x0a; Byte.x62; Byte.x0d] false
           [97; 13; 10; 98; 13]).
  - vm_compute. reflexivity.
  - vm_compute. reflexivity.
  - exact Em.
  - exact Hdir.
  - intros E. vm_compute in E. discriminate E.
Defined.

(** ** Where the generator writes *)

Lemma path_under_app (d r : path) : path_under d (d ++ r) = true.
Proof.
  induction d as [|x d IH]; [done|]. simpl. by rewrite eqb_str_refl.
Qed.

Lemma path_under_refl (d : path) : path_under d d = true.
Proof. rewrite <- (app_nil_r d) at 2. apply path_under_app. Qed.

Lemma path_under_prefix (d e p : path) :
  path_under (d ++ e) p = true -> path_under d p = true.
Proof.
  revert p. induction d as [|x d IH]; intros p H; [done|].
  destruct p as [|y p]; [done|]. simpl in *.
  destruct (eqb_str x y); [|done]. simpl in *. by apply IH.
Qed.

(** [mkdir] adds directories at the prefixes of its path and changes
    nothing else. *)
Lemma mkdir_parents_frame (fs fs' : filesystem) (d p : path) :
  mkdir_parents fs d = Ok fs' ->
  (forall k, (0 < k <= length d)%nat -> p <> take k d) ->
  fs' !! p = fs !! p.
Proof.
  intros H Hp. destruct (fs' !! p) as [n|] eqn:E.
  - destruct (mkdir_chain_grows _ _ _ _ H p n E)
      as [Hold|[_ (k & Hk & ->)]]; [done|].
    by destruct (Hp k Hk).
  - destruct (fs !! p) as [n|] eqn:E'; [|done].
    by rewrite (mkdir_chain_mono _ _ _ _ H p n E') in E.
Qed.

Lemma mkdir_template_frame (fs fs' : filesystem) (d p : path) :
  mkdir_parents fs d = Ok fs' ->
  d = OUTPUT_DIR \/ (exists r, d = TEMPLATE_ROOT ++ r) ->
  path_under TEMPLATE_ROOT p = false ->
  p <> OUTPUT_DIR ->
  fs' !! p = fs !! p.
Proof.
  intros H Hd Hu Hne. apply (mkdir_parents_frame _ _ _ _ H).
  intros k Hk ->. destruct Hd as [->|[r ->]].
  - destruct k as [|[|k]]; simpl in Hk; [lia|done|lia].
  - destruct k as [|[|k]]; [lia|done|].
    change (take (S (S k)) (TEMPLATE_ROOT ++ r))
      with (TEMPLATE_ROOT ++ take k r) in Hu.
    by rewrite path_under_app in Hu.
Qed.

Lemma path_parent_template (q : path) :
  path_parent (TEMPLATE_ROOT ++ q) = OUTPUT_DIR
  \/ exists r, path_parent (TEMPLATE_ROOT ++ q) = TEMPLATE_ROOT ++ r.
Proof.
  destruct q as [|x q]; [by left|]. right. exists (removelast (x :: q)).
  unfold path_parent. by rewrite removelast_app.
Qed.

Section Frame.
Context {udb : UnicodeDB}.

Lemma copy_item_frame (source : path) (fs fs' : filesystem) (item p : path) :
  copy_item source fs item = Ok fs' ->
  path_under TEMPLATE_ROOT p = false ->
  p <> OUTPUT_DIR ->
  fs' !! p = fs !! p.
Proof.
  unfold copy_item. intros H Hu Hne.
  destruct (should_exclude fs item); [by injection H as <-|].
  destruct (relative_to item source) as [rel|]; [|by injection H as <-].
  destruct (get_template_path rel) as [dest|] eqn:Eg; [|done]. simpl in H.
  apply get_template_path_inv in Eg as (pre & parts & _ & _ & ->).
  set (q := List.map rename_part parts) in *.
  destruct (is_file fs item).
  - apply copy_and_process_file_shape in H
      as (fs1 & bytes & x & target & Hm & -> & Ht & _).
    rewrite lookup_insert_ne.
    + by apply (mkdir_template_frame _ _ _ _ Hm (path_parent_template q)).
    + intros <-. destruct Ht as [->|[-> _]].
      * by rewrite path_under_app in Hu.
      * by rewrite <- app_assoc, path_under_app in Hu.
  - destruct (is_dir fs item); [|by injection H as <-].
    apply (mkdir_template_frame _ _ _ _ H); [|done..]. right. by exists q.
Qed.

Lemma copy_tree_frame (source : path) (items : list path)
  (fs fs' : filesystem) (p : path) :
  copy_directory_structure source items fs = Ok fs' ->
  path_under TEMPLATE_ROOT p = false ->
  p <> OUTPUT_DIR ->
  fs' !! p = fs !! p.
Proof.
  revert fs. induction items as [|item items IH]; intros fs H Hu Hne.
  - by injection H as <-.
  - simpl in H. destruct (copy_item source fs item) as [fs1|] eqn:E; [|done].
    simpl in H. rewrite (IH _ H Hu Hne). by eapply copy_item_frame.
Qed.

End Frame.

(** X12: Whatever the listing and the source directory, the copy writes only
    below the template root: every other entry, the output directory
    itself apart, which it may create, is after the run what it was
    before. *)
Theorem copy_writes_below_template_root {udb : UnicodeDB} (source : path)
  (items : list path) (fs fs' : filesystem) (p : path) :
  copy_directory_structure source items fs = Ok fs' ->
  path_under TEMPLATE_ROOT p = false ->
  p <> OUTPUT_DIR ->
  fs' !! p = fs !! p.
Proof.
  revert fs. induction items as [|item items IH]; intros fs H Hu Hne.
  - by injection H as <-.
  - simpl in H. destruct (copy_item source fs item) as [fs1|] eqn:E; [|done].
    simpl in H. rewrite (IH _ H Hu Hne). by eapply copy_item_frame.
Qed.

Lemma copy_writes_below_template_root_witness :
  let items := [[py "run.sh"]; [py "docs"]; [py "docs"; py "a.md"]] in
  let fs : filesystem :=
    <[ [py "run.sh"] := File [Byte.x23; Byte.x21; Byte.x0a] true ]>
    (<[ [py "docs"] := Dir ]>
     (<[ [py "docs"; py "a.md"] := File [Byte.x61; Byte.x0a] false ]> ∅)) in
  match copy_directory_structure (udb := ascii_db) SOURCE_DIR items fs with
  | Ok fs' =>
      fs' !! [py "run.sh"] = fs !! [py "run.sh"]
      /\ is_file fs' (TEMPLATE_ROOT ++ [py "run.sh"]) = true
  | Raise _ => False
  end.
Proof.
  intros items fs.
  assert (match copy_directory_structure (udb := ascii_db) SOURCE_DIR items fs
          with
          | Ok fs' => is_file fs' (TEMPLATE_ROOT ++ [py "run.sh"]) = true
          | Raise _ => False
          end) as Hrun by (vm_compute; reflexivity).
  revert Hrun.
  destruct (copy_directory_structure SOURCE_DIR items fs) as [fs'|e] eqn:E;
    [|done].
  intros Hrun. split; [|exact Hrun].
  apply (copy_writes_below_template_root (udb := ascii_db) SOURCE_DIR items
           fs fs' [py "run.sh"] E).
  - vm_compute. reflexivity.
  - intros Heq. vm_compute in Heq. discriminate Heq.
Defined.

Lemma write_text_bytes (fs fs' : filesystem) (dest : path) (s : str) :
  write_text fs dest s = Ok fs' ->
  exists bytes x,
    utf8_encode s = Some bytes /\ fs' = <[dest := File bytes x]> fs.
Proof.
  unfold write_text. intros H.
  destruct (fs_node fs dest) as [[old x|]|]; [|done|].
  - destruct (utf8_encode s) as [bytes|]; [|done]. injection H as <-.
    by exists bytes, x.
  - destruct (create_error fs dest); [done|].
    destruct (utf8_encode s) as [bytes|]; [|done]. injection H as <-.
    by exists bytes, false.
Qed.

Lemma filter_under_lookup (fs : filesystem) (d p : path) :
  filter (fun kv : path * node => path_under d kv.1 = false) fs !! p
  = if path_under d p then None else fs !! p.
Proof.
  destruct (path_under d p) eqn:E.
  - apply map_lookup_filter_None. right. intros n _. simpl. by rewrite E.
  - destruct (fs !! p) as [n|] eqn:Ep.
    + by apply map_lookup_filter_Some.
    + apply map_lookup_filter_None. by left.
Qed.

Lemma rmtree_lookup (fs fs' : filesystem) (d p : path) :
  rmtree fs d = Ok fs' ->
  fs' !! p = if path_under d p then None else fs !! p.
Proof.
  unfold rmtree. destruct (fs_node fs d) as [[bytes x|]|]; [done| |done].
  intros [= <-]. apply filter_under_lookup.
Qed.

Lemma create_gitignore_inv (fs fs' : filesystem) :
  create_gitignore fs = Ok fs' ->
  exists fs1 bytes x,
    mkdir_parents fs TEMPLATE_ROOT = Ok fs1
    /\ utf8_encode gitignore_content = Some bytes
    /\ fs' = <[gitignore_path := File bytes x]> fs1.
Proof.
  unfold create_gitignore.
  change (path_parent gitignore_path) with TEMPLATE_ROOT.
  destruct (mkdir_parents fs TEMPLATE_ROOT) as [fs1|] eqn:Em; [|done].
  simpl. intros (bytes & x & Hb & ->)%write_text_bytes.
  by exists fs1, bytes, x.
Qed.

Lemma create_gitignore_frame (fs fs' : filesystem) (p : path) :
  create_gitignore fs = Ok fs' ->
  path_under TEMPLATE_ROOT p = false ->
  p <> OUTPUT_DIR ->
  fs' !! p = fs !! p.
Proof.
  intros (fs1 & bytes & x & Hm & _ & ->)%create_gitignore_inv Hu Hne.
  rewrite lookup_insert_ne.
  - apply (mkdir_template_frame _ _ _ _ Hm); [|done..].
    right. exists []. by rewrite app_nil_r.
  - intros <-. unfold gitignore_path in Hu. by rewrite path_under_app in Hu.
Qed.

Section MainRun.
Context {udb : UnicodeDB}.

(** The steps of a successful run of [main]. *)
Lemma main_inv (items : list path) (fs fs' : filesystem) :
  main items fs = Ok fs' ->
  exists fs0 fs1 fs2 fs3,
    (if exists_path fs OUTPUT_DIR then rmtree fs OUTPUT_DIR else Ok fs)
    = Ok fs0
    /\ mkdir_parents fs0 OUTPUT_DIR = Ok fs1
    /\ create_cookiecutter_json fs1 = Ok fs2
    /\ copy_directory_structure SOURCE_DIR items fs2 = Ok fs3
    /\ create_gitignore fs3 = Ok fs'.
Proof.
  unfold main. intros H.
  destruct (if exists_path fs OUTPUT_DIR then rmtree fs OUTPUT_DIR else Ok fs)
    as [fs0|]; [|done]. cbn [bind] in H.
  destruct (mkdir_parents fs0 OUTPUT_DIR) as [fs1|] eqn:E1; [|done].
  cbn [bind] in H.
  destruct (create_cookiecutter_json fs1) as [fs2|] eqn:E2; [|done].
  cbn [bind] in H.
  destruct (copy_directory_structure SOURCE_DIR items fs2) as [fs3|] eqn:E3;
    [|done]. cbn [bind] in H.
  by exists fs0, fs1, fs2, fs3.
Qed.

Lemma wipe_frame (fs fs0 : filesystem) (p : path) :
  (if exists_path fs OUTPUT_DIR then rmtree fs OUTPUT_DIR else Ok fs)
  = Ok fs0 ->
  path_under OUTPUT_DIR p = false ->
  fs0 !! p = fs !! p.
Proof.
  intros H Hu. destruct (exists_path fs OUTPUT_DIR).
  - by rewrite (rmtree_lookup _ _ _ p H), Hu.
  - by injection H as <-.
Qed.

End MainRun.

(** X13: [main] leaves everything outside the output directory as it was:
    the project it reads is not modified. *)
Theorem main_leaves_source_untouched {udb : UnicodeDB} (items : list path)
  (fs fs' : filesystem) (p : path) :
  main items fs = Ok fs' ->
  path_under OUTPUT_DIR p = false ->
  fs' !! p = fs !! p.
Proof.
  intros (fs0 & fs1 & fs2 & fs3 & H0 & H1 & H2 & H3 & H4)%main_inv Hu.
  assert (path_under TEMPLATE_ROOT p = false) as Hu'.
  { destruct (path_under TEMPLATE_ROOT p) eqn:E; [|done].
    apply path_under_prefix in E. congruence. }
  assert (p <> OUTPUT_DIR) as Hne.
  { intros ->. by rewrite path_under_refl in Hu. }
  rewrite (create_gitignore_frame _ _ _ H4 Hu' Hne).
  rewrite (copy_tree_frame _ _ _ _ _ H3 Hu' Hne).
  apply write_text_bytes in H2 as (bytes & x & _ & ->).
  rewrite lookup_insert_ne.
  - rewrite (mkdir_template_frame _ _ _ _ H1 (or_introl eq_refl) Hu' Hne).
    by apply wipe_frame.
  - intros <-. unfold config_path in Hu. by rewrite path_under_app in Hu.
Qed.

Lemma main_leaves_source_untouched_witness :
  let items := [[py "run.sh"]; [py ".gitignore"]] in
  let fs : filesystem :=
    <[ [py "run.sh"] := File [Byte.x23; Byte.x21; Byte.x0a] true ]>
    (<[ [py ".gitignore"] := File [Byte.x2a; Byte.x0a] false ]>
     (<[ OUTPUT_DIR := Dir ]>
      (<[ OUTPUT_DIR ++ [py "stale"] := File [] false ]> ∅))) in
  match main (udb := ascii_db) items fs with
  | Ok fs' =>
      fs' !! [py ".gitignore"] = Some (File [Byte.x2a; Byte.x0a] false)
  | Raise _ => False
  end.
Proof.
  intros items fs.
  assert (match main (udb := ascii_db) items fs with
          | Ok _ => True
          | Raise _ => False
          end) as Hrun by (vm_compute; exact I).
  revert Hrun.
  destruct (main items fs) as [fs'|e] eqn:E; [|done].
  intros _.
  rewrite (main_leaves_source_untouched (udb := ascii_db) items fs fs'
             [py ".gitignore"] E).
  - vm_compute. reflexivity.
  - vm_compute. reflexivity.
Defined.

(** X14: What the output directory held before a run has no influence on the
    result: two file systems that agree outside the output directory,
    and in which the output directory is a directory, give the same
    run. *)
Theorem main_ignores_old_output {udb : UnicodeDB} (items : list path)
  (fs1 fs2 : filesystem) :
  is_dir fs1 OUTPUT_DIR = true ->
  is_dir fs2 OUTPUT_DIR = true ->
  (forall p, path_under OUTPUT_DIR p = false -> fs1 !! p = fs2 !! p) ->
  main items fs1 = main items fs2.
Proof.
  intros H1 H2 Hagree. unfold main, exists_path, rmtree, is_dir in *.
  destruct (fs_node fs1 OUTPUT_DIR) as [[b1 x1|]|]; [done| |done].
  destruct (fs_node fs2 OUTPUT_DIR) as [[b2 x2|]|]; [done| |done].
  assert (filter (fun kv => path_under OUTPUT_DIR kv.1 = false) fs1
          = filter (fun kv : path * node =>
                      path_under OUTPUT_DIR kv.1 = false) fs2) as ->; [|done].
  apply map_eq. intros p. rewrite !filter_under_lookup.
  destruct (path_under OUTPUT_DIR p) eqn:E; [done|]. by apply Hagree.
Qed.

Lemma main_ignores_old_output_witness :
  let items := [[py "a.txt"]] in
  let base : filesystem :=
    <[ [py "a.txt"] := File [Byte.x61] false ]> (<[ OUTPUT_DIR := Dir ]> ∅) in
  main (udb := ascii_db) items
    (<[ OUTPUT_DIR ++ [py "stale"] := File [] true ]> base)
  = main (udb := ascii_db) items base.
Proof.
  intros items base.
  apply (main_ignores_old_output (udb := ascii_db)).
  - vm_compute. reflexivity.
  - vm_compute. reflexivity.
  - intros p Hp. apply lookup_insert_ne. intros <-.
    vm_compute in Hp. discriminate Hp.
Defined.

(** X15: After a successful run the configuration file holds the JSON text of
    [COOKIECUTTER_CONFIG]: nothing the copy does afterwards touches
    it. *)
Theorem main_writes_config {udb : UnicodeDB} (items : list path)
  (fs fs' : filesystem) :
  main items fs = Ok fs' ->
  exists bytes x,
    utf8_encode (json_dumps COOKIECUTTER_CONFIG) = Some bytes
    /\ fs' !! config_path = Some (File bytes x).
Proof.
  intros (fs0 & fs1 & fs2 & fs3 & H0 & H1 & H2 & H3 & H4)%main_inv.
  apply write_text_bytes in H2 as (bytes & x & Hb & ->).
  exists bytes, x. split; [exact Hb|].
  rewrite (create_gitignore_frame _ _ _ H4); [|done|done].
  rewrite (copy_tree_frame _ _ _ _ _ H3); [|done|done].
  apply lookup_insert_eq.
Qed.

Lemma main_writes_config_witness :
  let items := [[py "cookiecutter.json"]] in
  let fs : filesystem :=
    <[ [py "cookiecutter.json"] := File [Byte.x7b; Byte.x7d] false ]> ∅ in
  match main (udb := ascii_db) items fs with
  | Ok fs' =>
      exists bytes x,
        utf8_encode (json_dumps COOKIECUTTER_CONFIG) = Some bytes
        /\ fs' !! config_path = Some (File bytes x)
  | Raise _ => False
  end.
Proof.
  intros items fs.
  assert (match main (udb := ascii_db) items fs with
          | Ok _ => True
          | Raise _ => False
          end) as Hrun by (vm_compute; exact I).
  revert Hrun.
  destruct (main items fs) as [fs'|e] eqn:E; [|done].
  intros _. exact (main_writes_config (udb := ascii_db) items fs fs' E).
Defined.

(** X16: After a successful run the [.gitignore] of the template holds the
    text of [create_gitignore], also when the project has a
    [.gitignore] of its own, whose copy is overwritten. *)
Theorem main_writes_gitignore {udb : UnicodeDB} (items : list path)
  (fs fs' : filesystem) :
  main items fs = Ok fs' ->
  exists bytes x,
    utf8_encode gitignore_content = Some bytes
    /\ fs' !! gitignore_path = Some (File bytes x).
Proof.
  intros (fs0 & fs1 & fs2 & fs3 & H0 & H1 & H2 & H3 & H4)%main_inv.
  apply create_gitignore_inv in H4 as (fs4 & bytes & x & _ & Hb & ->).
  exists bytes, x. split; [exact Hb|]. apply lookup_insert_eq.
Qed.

Lemma main_writes_gitignore_witness :
  let items := [[py ".gitignore"]] in
  let fs : filesystem :=
    <[ [py ".gitignore"] := File [Byte.x2a; Byte.x0a] false ]> ∅ in
  match main (udb := ascii_db) items fs with
  | Ok fs' =>
      exists bytes x,
        utf8_encode gitignore_content = Some bytes
        /\ fs' !! gitignore_path = Some (File bytes x)
  | Raise _ => False
  end.
Proof.
  intros items fs.
  assert (match main (udb := ascii_db) items fs with
          | Ok _ => True
          | Raise _ => False
          end) as Hrun by (vm_compute; exact I).
  revert Hrun.
  destruct (main items fs) as [fs'|e] eqn:E; [|done].
  intros _. exact (main_writes_gitignore (udb := ascii_db) items fs fs' E).
Defined.

(** ** Content without the names of the template *)

Lemma contains_mid (t u v : str) : contains t (u ++ t ++ v) = true.
Proof.
  induction u as [|c u IH].
  - cbn [app]. apply contains_refl_app.
  - change ((c :: u) ++ t ++ v) with (c :: (u ++ t ++ v)).
    rewrite contains_cons, IH. apply orb_true_r.
Qed.

Lemma contains_trans (t p s : str) :
  contains t p = true -> contains p s = true -> contains t s = true.
Proof.
  intros (a & b & ->)%contains_true_inv (u & v & ->)%contains_true_inv.
  replace (u ++ (a ++ t ++ b) ++ v) with ((u ++ a) ++ t ++ (b ++ v)).
  - apply contains_mid.
  - by rewrite <- !app_assoc.
Qed.

(** A string free of the words does not contain a string in which one
    of them occurs. *)
Lemma free_of_contains (words : list str) (p s : str) :
  free_of words s = true ->
  existsb (fun w => contains w p) words = true ->
  contains p s = false.
Proof.
  unfold free_of. intros Hs (w & Hw & Hp)%existsb_exists.
  destruct (contains p s) eqn:E; [|done].
  assert (existsb (fun w => contains w s) words = true) as Hex.
  { apply existsb_exists. exists w. split; [done|].
    by apply (contains_trans w p s). }
  by rewrite Hex in Hs.
Qed.

Section Dormant.
Context {udb : UnicodeDB}.

Lemma match_here_chr_prefix (re : regex) (prev : option N) (s : str)
  (r : option N * str) :
  match_here re prev s = Some r -> starts_with (chr_prefix re) s = true.
Proof.
  revert prev s. induction re as [|a re IH]; intros prev s H; [done|].
  destruct a as [c| | |]; try done.
  simpl in H. destruct s as [|x s]; [done|].
  destruct (x =? c) eqn:E; [|done]. simpl.
  rewrite N.eqb_sym, E. simpl. by apply (IH _ _ H).
Qed.

Lemma match_here_lit_prefix (re : regex) (prev : option N) (s : str)
  (r : option N * str) :
  match_here re prev s = Some r -> starts_with (lit_prefix re) s = true.
Proof.
  revert prev s. induction re as [|a re IH]; intros prev s H; [done|].
  destruct a as [c|k| |].
  - by apply (match_here_chr_prefix _ _ _ _ H).
  - done.
  - simpl in H. destruct prev as [x|]; [|by apply (IH _ _ H)].
    destruct (x =? 10); [|done]. by apply (IH _ _ H).
  - simpl in H.
    destruct (xorb (word_opt prev) (word_opt (head s))); [|done].
    by apply (IH _ _ H).
Qed.

(** A pattern is found nowhere in a string that lacks the literal its
    matches begin with. *)
Lemma search_without_prefix (re : regex) (prev : option N) (s : str) :
  contains (lit_prefix re) s = false -> search_from re prev s = false.
Proof.
  revert prev. induction s as [|c s IH]; intros prev H.
  - simpl in H. apply orb_false_elim in H as [H _]. simpl.
    destruct (match_here re prev []) as [r|] eqn:E; [|done].
    by rewrite (match_here_lit_prefix _ _ _ _ E) in H.
  - rewrite contains_cons in H. apply orb_false_elim in H as [H1 H2].
    simpl. destruct (match_here re prev (c :: s)) as [r|] eqn:E.
    + by rewrite (match_here_lit_prefix _ _ _ _ E) in H1.
    + by apply IH.
Qed.

Lemma re_sub_dormant (words : list str) (re : regex) (repl s : str) :
  free_of words s = true ->
  existsb (fun w => contains w (lit_prefix re)) words = true ->
  re_sub re repl s = s.
Proof.
  intros Hs Hre. apply re_sub_no_match, search_without_prefix.
  by apply (free_of_contains words).
Qed.

End Dormant.

(** X17: A text in which none of the template's own names occurs is left as
    it is by the transformer, whatever the file is called. *)
Theorem dormant_content_unchanged {udb : UnicodeDB} (content : str)
  (filepath : path) :
  free_of trigger_words content = true ->
  process_text_content content filepath = content.
Proof.
  intros H. unfold process_text_content. cbv zeta.
  repeat rewrite (re_sub_dormant trigger_words _ _ content H)
    by (vm_compute; reflexivity).
  rewrite (free_of_contains trigger_words (py "${#") content H)
    by (vm_compute; reflexivity).
  rewrite (free_of_contains trigger_words (py "${{") content H)
    by (vm_compute; reflexivity).
  repeat match goal with
  | |- (if ?b then _ else _) = _ => destruct b
  end; reflexivity.
Qed.

Lemma dormant_content_unchanged_witness :
  process_text_content (udb := ascii_db)
    (py "# Notes" ++ [10] ++ py "nothing to rewrite" ++ [10])
    [py "docs"; py "README.md"]
  = py "# Notes" ++ [10] ++ py "nothing to rewrite" ++ [10].
Proof.
  apply (dormant_content_unchanged (udb := ascii_db)).
  vm_compute. reflexivity.
Defined.

(** ** What a run leaves at the rewritten path of a file *)

Lemma path_under_take (k : nat) (d : path) : path_under (take k d) d = true.
Proof.
  revert k. induction d as [|x d IH]; intros [|k]; try done.
  simpl. by rewrite eqb_str_refl, IH.
Qed.

Lemma path_under_length (d p : path) :
  path_under d p = true -> (length d <= length p)%nat.
Proof.
  revert p. induction d as [|x d IH]; intros [|y p] H; simpl in *;
    try done; try lia.
  apply andb_prop in H as [_ H]. specialize (IH _ H). lia.
Qed.

(** [mkdir] along a path touches only the prefixes of the path. *)
Lemma mkdir_parents_prefix_frame (fs fs' : filesystem) (d p : path) :
  mkdir_parents fs d = Ok fs' ->
  path_under p d = false ->
  fs' !! p = fs !! p.
Proof.
  intros H Hp. apply (mkdir_parents_frame _ _ _ _ H).
  intros k _ ->. by rewrite path_under_take in Hp.
Qed.

Lemma path_parent_take (d : path) :
  path_parent d = take (pred (length d)) d.
Proof. apply removelast_firstn_len. Qed.

Lemma path_under_parent (p d : path) :
  path_under p (path_parent d) = true -> path_under p d = true.
Proof.
  rewrite path_parent_take. generalize (pred (length d)). intros k.
  revert p k. induction d as [|x d IH]; intros [|y p] [|k] H; try done.
  simpl in *. apply andb_prop in H as [-> H]. simpl. by apply (IH _ k).
Qed.

Lemma should_exclude_node (fs1 fs2 : filesystem) (p : path) :
  fs_node fs1 p = fs_node fs2 p ->
  should_exclude fs1 p = should_exclude fs2 p.
Proof.
  intros H. unfold should_exclude, is_dir, is_file. by rewrite H.
Qed.

Section Run.
Context {udb : UnicodeDB}.

(** The raw copy of a file that does not decode. *)
Lemma copy_raw_file (fs fs1 : filesystem) (source dest : path)
  (bytes : list Byte.byte) (x : bool) :
  fs_node fs source = Some (File bytes x) ->
  utf8_decode bytes = None ->
  mkdir_parents fs (path_parent dest) = Ok fs1 ->
  is_dir fs1 dest = false ->
  source <> dest ->
  copy_and_process_file fs source dest = Ok (<[dest := File bytes x]> fs1).
Proof.
  intros Hs Hdec Hm Hd Hne.
  pose proof (mkdir_parents_node _ _ _ _ _ Hm Hs) as Hs1.
  unfold copy_and_process_file. rewrite Hm. simpl.
  unfold copy_as_text, read_text. rewrite Hs1, Hdec. simpl.
  unfold copy2. rewrite Hd, Hs1.
  rewrite bool_decide_eq_false_2 by done.
  unfold is_dir in Hd.
  destruct (fs_node fs1 dest) as [[old y|]|] eqn:Et; [done|done|].
  unfold create_error. by rewrite (mkdir_parents_is_dir _ _ _ Hm).
Qed.

(** A regular file is written to a destination that is not a directory
    with the bytes [copied_bytes] gives. *)
Lemma copy_file_bytes (fs fs' : filesystem) (source dest : path)
  (bytes out : list Byte.byte) (x : bool) :
  fs_node fs source = Some (File bytes x) ->
  copied_bytes bytes source = Some out ->
  fs !! dest <> Some Dir ->
  dest <> [] ->
  source <> dest ->
  copy_and_process_file fs source dest = Ok fs' ->
  exists y, fs' !! dest = Some (File out y).
Proof.
  intros Hs Hout Hd Hne Hsd H.
  destruct (mkdir_parents fs (path_parent dest)) as [fs1|e] eqn:Em.
  2: { unfold copy_and_process_file in H. by rewrite Em in H. }
  assert (is_dir fs1 dest = false) as Hd1.
  { unfold is_dir. rewrite fs_node_lookup by done.
    rewrite (mkdir_parents_prefix_frame _ _ _ _ Em).
    - by destruct (fs !! dest) as [[]|].
    - destruct (path_under dest (path_parent dest)) eqn:E; [|done].
      apply path_under_length in E. rewrite path_parent_take in E.
      rewrite length_take in E. destruct dest; [done|]. simpl in E. lia. }
  unfold copied_bytes in Hout.
  destruct (utf8_decode bytes) as [s|] eqn:Hdec.
  - rewrite (copy_text_file fs fs1 source dest bytes out x s) in H by done.
    injection H as <-. eexists. apply lookup_insert_eq.
  - injection Hout as <-.
    rewrite (copy_raw_file fs fs1 source dest bytes x) in H by done.
    injection H as <-. eexists. apply lookup_insert_eq.
Qed.

(** The loop body changes an entry only at a prefix of the rewritten path
    of the item or, copying into a directory, right below it. *)
Lemma copy_item_footprint (source : path) (fs fs' : filesystem)
  (item p : path) :
  copy_item source fs item = Ok fs' ->
  (forall rel dest,
     relative_to item source = Some rel ->
     get_template_path rel = Ok dest ->
     path_under p dest = false /\ dest ++ [path_name item] <> p) ->
  fs' !! p = fs !! p.
Proof.
  unfold copy_item. intros H Hp.
  destruct (should_exclude fs item); [by injection H as <-|].
  destruct (relative_to item source) as [rel|]; [|by injection H as <-].
  destruct (get_template_path rel) as [dest|] eqn:Eg; [|done]. simpl in H.
  destruct (Hp rel dest eq_refl Eg) as [Hu Hne].
  destruct (is_file fs item).
  - apply copy_and_process_file_shape in H
      as (fs1 & bytes & x & target & Hm & -> & Ht & _).
    rewrite lookup_insert_ne.
    + apply (mkdir_parents_prefix_frame _ _ _ _ Hm).
      destruct (path_under p (path_parent dest)) eqn:E; [|done].
      apply path_under_parent in E. congruence.
    + intros <-. destruct Ht as [->|[-> _]]; [|done].
      by rewrite path_under_refl in Hu.
  - destruct (is_dir fs item); [|by injection H as <-].
    by apply (mkdir_parents_prefix_frame _ _ _ _ H).
Qed.

Section OneFile.
Variables (source rel dest : path) (bytes out : list Byte.byte) (x : bool).
Hypothesis Hdest : get_template_path rel = Ok dest.
Hypothesis Hout : copied_bytes bytes (source ++ rel) = Some out.
Hypothesis Houtside : path_under TEMPLATE_ROOT (source ++ rel) = false.
Hypothesis Hnot_output : source ++ rel <> OUTPUT_DIR.

Lemma copy_item_pending (fs fs' : filesystem) (item2 : path) :
  file_pending (source ++ rel) dest bytes out x fs ->
  clashes source (source ++ rel) dest item2 = false ->
  copy_item source fs item2 = Ok fs' ->
  file_pending (source ++ rel) dest bytes out x fs'
  /\ (file_placed dest out fs -> file_placed dest out fs')
  /\ (item2 = source ++ rel -> file_placed dest out fs').
Proof.
  intros (Hnode & Hkeep & Hfree) Hclash H.
  assert (source ++ rel <> []) as Hne by (by intros E; rewrite E in Hnode).
  assert (fs_node fs' (source ++ rel) = Some (File bytes x)) as Hnode'.
  { rewrite fs_node_lookup in * by done.
    by rewrite (copy_item_frame _ _ _ _ _ H Houtside Hnot_output). }
  assert (should_exclude fs' (source ++ rel) = false) as Hkeep'.
  { rewrite <- Hkeep. apply should_exclude_node. congruence. }
  destruct (decide (item2 = source ++ rel)) as [->|Hother].
  - assert (file_placed dest out fs') as Hplaced;
      [|by repeat split; try right].
    revert H. unfold copy_item.
    rewrite Hkeep, relative_to_app, Hdest. simpl.
    unfold is_file. rewrite Hnode.
    pose proof Hdest as Hd.
    apply get_template_path_inv in Hd as (pre & parts & _ & _ & Hd).
    apply (copy_file_bytes fs fs' _ dest bytes out x); try done.
    + destruct Hfree as [E|[y E]]; by rewrite E.
    + by rewrite Hd.
    + intros E. rewrite E, Hd in Houtside.
      by rewrite path_under_app in Houtside.
  - assert (fs' !! dest = fs !! dest) as Hsame.
    { apply (copy_item_footprint _ _ _ _ _ H). intros rel2 dest2 Hr Hg.
      unfold clashes in Hclash. rewrite Hr, Hg in Hclash.
      rewrite bool_decide_eq_false_2 in Hclash by done. simpl in Hclash.
      apply orb_false_elim in Hclash as [Hu Hb].
      split; [done|]. by apply bool_decide_eq_false in Hb. }
    split; [|split].
    + unfold file_pending. by rewrite Hsame.
    + unfold file_placed. by rewrite Hsame.
    + done.
Qed.

Lemma run_pending (items : list path) (fs fs' : filesystem) :
  file_pending (source ++ rel) dest bytes out x fs ->
  lands_alone source items (source ++ rel) dest = true ->
  copy_directory_structure source items fs = Ok fs' ->
  file_pending (source ++ rel) dest bytes out x fs'
  /\ (file_placed dest out fs \/ In (source ++ rel) items ->
      file_placed dest out fs').
Proof.
  revert fs. induction items as [|item2 items IH]; intros fs Hp Hal H.
  - injection H as <-. split; [done|]. by intros [?|[]].
  - simpl in H, Hal. apply andb_prop in Hal as [Hc Hal].
    apply negb_true_iff in Hc.
    destruct (copy_item source fs item2) as [fs1|] eqn:E; [|done].
    simpl in H.
    destruct (copy_item_pending _ _ _ Hp Hc E) as (Hp1 & Hkeep & Hnow).
    destruct (IH _ Hp1 Hal H) as [Hp' Hplaced]. split; [done|].
    intros [Hdone|[->|Hin]]; apply Hplaced; auto.
Qed.

End OneFile.

(** Started on an empty template root, a completed run leaves at the
    rewritten path of a kept regular file what the copy of that file
    writes, as long as no other entry of the listing gets in its way. *)
Lemma run_places_file (source : path) (items : list path)
  (fs fs' : filesystem) (rel dest : path) (bytes : list Byte.byte)
  (x : bool) :
  empty_below TEMPLATE_ROOT fs ->
  In (source ++ rel) items ->
  fs_node fs (source ++ rel) = Some (File bytes x) ->
  should_exclude fs (source ++ rel) = false ->
  get_template_path rel = Ok dest ->
  lands_alone source items (source ++ rel) dest = true ->
  copy_directory_structure source items fs = Ok fs' ->
  exists out y,
    copied_bytes bytes (source ++ rel) = Some out
    /\ fs' !! dest = Some (File out y).
Proof.
  intros Hempty Hin Hnode Hkeep Hdest Hal Hrun.
  assert (exists out, copied_bytes bytes (source ++ rel) = Some out)
    as [out Hout].
  { unfold copied_bytes. destruct (utf8_decode bytes) as [s|] eqn:Hdec.
    - apply (processed_text_encodes bytes s _ Hdec).
    - by exists bytes. }
  assert (source ++ rel <> []) as Hne by (by intros E; rewrite E in Hnode).
  assert (path_under TEMPLATE_ROOT (source ++ rel) = false) as Houtside.
  { destruct (path_under TEMPLATE_ROOT (source ++ rel)) eqn:E; [|done].
    rewrite fs_node_lookup in Hnode by done.
    by rewrite (Hempty _ E) in Hnode. }
  assert (source ++ rel <> OUTPUT_DIR) as Hnot.
  { intros E. rewrite E in Hkeep.
    rewrite <- (app_nil_r OUTPUT_DIR) in Hkeep.
    by rewrite output_dir_excluded in Hkeep. }
  assert (file_pending (source ++ rel) dest bytes out x fs) as Hp.
  { split; [done|]. split; [done|]. left. apply Hempty.
    apply get_template_path_inv in Hdest as (pre & parts & _ & _ & ->).
    apply path_under_app. }
  destruct (run_pending source rel dest bytes out x Hdest Hout Houtside Hnot
              items fs fs' Hp Hal Hrun) as [_ Hplaced].
  destruct Hplaced as [y Hy]; [by right|]. by exists out, y.
Qed.

End Run.

(** C7 (amended): for a regular file with [scratchpads] among its
    segments, [should_exclude] returns [True] unless the file is named
    exactly [.gitignore] and does not lie beneath a [.git] segment, and
    [False] in that case; when a run of the copier that started on an
    empty template root completes, the rewritten path of such a kept file
    holds a regular file with the text of the file (line ends normalised;
    its bytes as they are when they are not UTF-8), provided no other
    entry of the listing is rewritten to that path or beneath it or is
    copied onto it. *)
Theorem scratchpads_only_gitignore {udb : UnicodeDB} :
  (forall (fs : filesystem) (p : path),
     elem_str (py "scratchpads") p = true -> is_file fs p = true ->
     should_exclude fs p
     = inside_git p || negb (eqb_str (path_name p) (py ".gitignore")))
  /\ (forall (source : path) (items : list path) (fs fs' : filesystem)
        (rel dest : path) (bytes : list Byte.byte) (x : bool),
        empty_below TEMPLATE_ROOT fs ->
        In (source ++ rel) items ->
        fs_node fs (source ++ rel) = Some (File bytes x) ->
        elem_str (py "scratchpads") (source ++ rel) = true ->
        path_name (source ++ rel) = py ".gitignore" ->
        inside_git (source ++ rel) = false ->
        get_template_path rel = Ok dest ->
        lands_alone source items (source ++ rel) dest = true ->
        copy_directory_structure source items fs = Ok fs' ->
        exists out y,
          fs' !! dest = Some (File out y)
          /\ match utf8_decode bytes with
             | Some s => utf8_encode (universal_newlines s) = Some out
             | None => out = bytes
             end).
Proof.
  split; [apply should_exclude_scratchpads_file|].
  intros source items fs fs' rel dest bytes x
    Hempty Hin Hnode Hs Hn Hg Hdest Hal Hrun.
  assert (is_file fs (source ++ rel) = true) as Hf.
  { unfold is_file. by rewrite Hnode. }
  assert (should_exclude fs (source ++ rel) = false) as Hkeep.
  { rewrite should_exclude_scratchpads_file by done.
    by rewrite Hg, Hn, eqb_str_refl. }
  destruct (run_places_file source items fs fs' rel dest bytes x)
    as (out & y & Hout & Hlook); [done..|].
  exists out, y. split; [exact Hlook|].
  unfold copied_bytes in Hout.
  destruct (utf8_decode bytes) as [s|]; [|by injection Hout as <-].
  pose proof (process_unmatched (universal_newlines s) (source ++ rel))
    as Hid.
  cbv zeta in Hid. rewrite Hn in Hid.
  by rewrite Hid in Hout by (vm_compute; reflexivity).
Qed.

Lemma scratchpads_only_gitignore_witness :
  let fs : filesystem :=
    <[ [py "scratchpads"] := Dir ]>
    (<[ [py "scratchpads"; py "notes.txt"] := File [Byte.x61] false ]>
    (<[ [py "scratchpads"; py ".gitignore"]
        := File [Byte.x2a; Byte.x0d; Byte.x0a] false ]> ∅)) in
  let items : list path :=
    [ [py "scratchpads"]; [py "scratchpads"; py "notes.txt"];
      [py "scratchpads"; py ".gitignore"] ] in
  should_exclude fs [py "scratchpads"; py "notes.txt"] = true
  /\ should_exclude fs [py "scratchpads"; py ".gitignore"] = false
  /\ match copy_directory_structure (udb := ascii_db) [] items fs with
     | Ok fs' =>
         exists y,
           fs' !! (TEMPLATE_ROOT ++ [py "scratchpads"; py ".gitignore"])
           = Some (File [Byte.x2a; Byte.x0a] y)
     | Raise _ => False
     end.
Proof.
  intros fs items.
  destruct (scratchpads_only_gitignore (udb := ascii_db)) as [Hcls Htree].
  split; [|split].
  - rewrite Hcls; vm_compute; reflexivity.
  - rewrite Hcls; vm_compute; reflexivity.
  - assert (match copy_directory_structure (udb := ascii_db) [] items fs with
            | Ok _ => True
            | Raise _ => False
            end) as Hrun by (vm_compute; exact I).
    revert Hrun.
    destruct (copy_directory_structure (udb := ascii_db) [] items fs)
      as [fs'|e] eqn:E; [intros _|done].
    destruct (Htree [] items fs fs' [py "scratchpads"; py ".gitignore"]
                (TEMPLATE_ROOT ++ [py "scratchpads"; py ".gitignore"])
                [Byte.x2a; Byte.x0d; Byte.x0a] false)
      as (out & y & Hlook & Hout).
    + intros p Hp. unfold fs.
      repeat (rewrite lookup_insert_ne;
              [|intros <-; vm_compute in Hp; discriminate Hp]).
      apply lookup_empty.
    + right. right. left. reflexivity.
    + vm_compute. reflexivity.
    + vm_compute. reflexivity.
    + vm_compute. reflexivity.
    + vm_compute. reflexivity.
    + vm_compute. reflexivity.
    + vm_compute. reflexivity.
    + exact E.
    + exists y. rewrite Hlook. vm_compute in Hout.
      injection Hout as <-. reflexivity.
Defined.

(** The two conditions on the run are needed.  Where another entry of the
    listing is rewritten to the same path, the path holds what was copied
    last; where the path is a directory of the output already, the kept
    file is copied into it. *)
Lemma scratchpads_gitignore_clash :
  let a := [py "template_core"; py "scratchpads"; py ".gitignore"] in
  let b := [py "{{cookiecutter.project_slug}}_core"; py "scratchpads";
            py ".gitignore"] in
  let fs : filesystem :=
    <[ a := File [Byte.x61] false ]> (<[ b := File [Byte.x62] false ]> ∅) in
  get_template_path a = get_template_path b
  /\ match copy_directory_structure (udb := ascii_db) [] [a; b] fs with
     | Ok fs' => fs' !! (TEMPLATE_ROOT ++ b) = Some (File [Byte.x62] false)
     | Raise _ => False
     end.
Proof. intros a b fs. split; vm_compute; reflexivity. Qed.

Lemma scratchpads_gitignore_into_directory :
  let item := [py "scratchpads"; py ".gitignore"] in
  let dest := TEMPLATE_ROOT ++ item in
  let fs : filesystem :=
    <[ item := File [Byte.x2a] false ]>
    (<[ OUTPUT_DIR := Dir ]>
     (<[ TEMPLATE_ROOT := Dir ]>
      (<[ TEMPLATE_ROOT ++ [py "scratchpads"] := Dir ]>
       (<[ dest := Dir ]> ∅)))) in
  match copy_directory_structure (udb := ascii_db) [] [item] fs with
  | Ok fs' =>
      fs' !! dest = Some Dir
      /\ fs' !! (dest ++ [py ".gitignore"]) = Some (File [Byte.x2a] false)
  | Raise _ => False
  end.
Proof. intros item dest fs. vm_compute. split; reflexivity. Qed.

(** C9: the Content Transformer depends only on the content and on the
    final segment of the file path, and nothing that a run of the copier
    does before or after a file changes what the transformer makes of it.
    Two calls on the same content with paths of equal names return the
    same text, whatever the directories; and two completed runs of the
    copier, over any two trees, listings and orders, leave the same bytes
    at the rewritten paths of two files that have the same bytes and the
    same name. *)
Theorem process_text_content_deterministic {udb : UnicodeDB} :
  (forall (content : str) (filepath1 filepath2 : path),
     path_name filepath1 = path_name filepath2 ->
     process_text_content content filepath1
     = process_text_content content filepath2)
  /\ (forall (source1 source2 : path) (items1 items2 : list path)
        (fs1 fs1' fs2 fs2' : filesystem) (rel1 rel2 dest1 dest2 : path)
        (bytes : list Byte.byte) (x1 x2 : bool),
        path_name (source1 ++ rel1) = path_name (source2 ++ rel2) ->
        completed_run source1 items1 fs1 fs1' rel1 dest1 bytes x1 ->
        completed_run source2 items2 fs2 fs2' rel2 dest2 bytes x2 ->
        exists out y1 y2,
          fs1' !! dest1 = Some (File out y1)
          /\ fs2' !! dest2 = Some (File out y2)).
Proof.
  split.
  { intros content filepath1 filepath2. apply process_text_content_name. }
  intros source1 source2 items1 items2 fs1 fs1' fs2 fs2' rel1 rel2
    dest1 dest2 bytes x1 x2 Hname
    (He1 & Hi1 & Hn1 & Hk1 & Hd1 & Ha1 & Hr1)
    (He2 & Hi2 & Hn2 & Hk2 & Hd2 & Ha2 & Hr2).
  destruct (run_places_file source1 items1 fs1 fs1' rel1 dest1 bytes x1)
    as (out1 & y1 & Hout1 & Hlook1); [done..|].
  destruct (run_places_file source2 items2 fs2 fs2' rel2 dest2 bytes x2)
    as (out2 & y2 & Hout2 & Hlook2); [done..|].
  assert (out1 = out2) as <-.
  { unfold copied_bytes in Hout1, Hout2.
    destruct (utf8_decode bytes) as [s|]; [|congruence].
    rewrite (process_text_content_name _ _ _ Hname) in Hout1. congruence. }
  by exists out1, y1, y2.
Qed.

Lemma process_text_content_deterministic_witness :
  let bytes := [Byte.x74; Byte.x65; Byte.x6d; Byte.x70; Byte.x6c; Byte.x61;
                Byte.x74; Byte.x65; Byte.x5f; Byte.x63; Byte.x6f; Byte.x72;
                Byte.x65] in
  let fs1 : filesystem :=
    <[ [py "pkg"] := Dir ]>
    (<[ [py "pkg"; py "main.py"] := File bytes false ]>
     (<[ [py "notes.txt"] := File [Byte.x61] false ]> ∅)) in
  let items1 := [[py "notes.txt"]; [py "pkg"]; [py "pkg"; py "main.py"]] in
  let fs2 : filesystem :=
    <[ [py "proj"; py "main.py"] := File bytes true ]>
    (<[ [py "proj"; py "run.sh"] := File [Byte.x23] true ]>
     (<[ [py "proj"] := Dir ]> ∅)) in
  let items2 := [[py "proj"; py "main.py"]; [py "proj"; py "run.sh"]] in
  match copy_directory_structure (udb := ascii_db) [] items1 fs1,
        copy_directory_structure (udb := ascii_db) [py "proj"] items2 fs2
  with
  | Ok fs1', Ok fs2' =>
      exists out y1 y2,
        fs1' !! (TEMPLATE_ROOT ++ [py "pkg"; py "main.py"])
        = Some (File out y1)
        /\ fs2' !! (TEMPLATE_ROOT ++ [py "main.py"]) = Some (File out y2)
  | _, _ => False
  end.
Proof.
  intros bytes fs1 items1 fs2 items2.
  assert (match copy_directory_structure (udb := ascii_db) [] items1 fs1 with
          | Ok _ => True
          | Raise _ => False
          end) as Hrun1 by (vm_compute; exact I).
  assert (match copy_directory_structure (udb := ascii_db) [py "proj"]
                  items2 fs2 with
          | Ok _ => True
          | Raise _ => False
          end) as Hrun2 by (vm_compute; exact I).
  revert Hrun1 Hrun2.
  destruct (copy_directory_structure (udb := ascii_db) [] items1 fs1)
    as [fs1'|e1] eqn:E1; [|done].
  destruct (copy_directory_structure (udb := ascii_db) [py "proj"]
              items2 fs2) as [fs2'|e2] eqn:E2; [|done].
  intros _ _.
  destruct (process_text_content_deterministic (udb := ascii_db))
    as [_ Hruns].
  apply (Hruns [] [py "proj"] items1 items2 fs1 fs1' fs2 fs2'
           [py "pkg"; py "main.py"] [py "main.py"] _ _ bytes false true).
  - vm_compute. reflexivity.
  - split.
    { intros p Hp. unfold fs1.
      repeat (rewrite lookup_insert_ne;
              [|intros <-; vm_compute in Hp; discriminate Hp]).
      apply lookup_empty. }
    split; [right; right; left; reflexivity|].
    split; [vm_compute; reflexivity|].
    split; [vm_compute; reflexivity|].
    split; [vm_compute; reflexivity|].
    split; [vm_compute; reflexivity|exact E1].
  - split.
    { intros p Hp. unfold fs2.
      repeat (rewrite lookup_insert_ne;
              [|intros <-; vm_compute in Hp; discriminate Hp]).
      apply lookup_empty. }
    split; [left; reflexivity|].
    split; [vm_compute; reflexivity|].
    split; [vm_compute; reflexivity|].
    split; [vm_compute; reflexivity|].
    split; [vm_compute; reflexivity|exact E2].
Defined.
